(** * Notion-to-Drive backup script: a shallow embedding of [notion.py]

    The script reads page objects (JSON values) from the Notion search API,
    rebuilds the page hierarchy from parent pointers ([get_all_pages]) and
    mirrors it into Google Drive folders ([create_folder], [backup_page],
    [run_backup]).

    Python values are embedded as a [json] tree, Python exceptions as an
    [outcome] sum, the mutable dictionary of page infos as an ordered
    association list whose keys play the role of object references, and the
    two remote services as an explicit [world] driven by an [oracle] that
    decides which requests fail. *)

From Stdlib Require Import List String Ascii ZArith Bool Arith Lia Permutation.
From Stdlib Require Import DecimalString.
Import ListNotations.
Open Scope string_scope.

(** ** Python values and the primitive operations the script uses *)

Set Warnings "-register-all".

Module Py.

(** Values that [json.loads] can produce.  Numbers are integers here: no
    operation of the script distinguishes a float from an integer. *)
Inductive json : Type :=
| JNull
| JBool (b : bool)
| JNum (z : Z)
| JStr (s : string)
| JList (items : list json)
| JDict (fields : list (string * json)).

Inductive exn_class : Type :=
| KeyError | IndexError | TypeError | AttributeError | HttpError | Exception.

(** An exception object: its class and the text [str(e)] gives. *)
Record exn : Type := Exn { exn_class_of : exn_class; str_exn : string }.

Inductive outcome (A : Type) : Type :=
| Returns (a : A)
| Raises (e : exn).
Arguments Returns {A} a.
Arguments Raises {A} e.

Definition bind {A B} (c : outcome A) (k : A -> outcome B) : outcome B :=
  match c with
  | Returns a => k a
  | Raises e => Raises e
  end.

(** [try: c  except Exception as e: h e] *)
Definition try_except {A} (c : outcome A) (h : exn -> outcome A) : outcome A :=
  match c with
  | Returns a => Returns a
  | Raises e => h e
  end.

Definition type_name (v : json) : string :=
  match v with
  | JNull => "NoneType"
  | JBool _ => "bool"
  | JNum _ => "int"
  | JStr _ => "str"
  | JList _ => "list"
  | JDict _ => "dict"
  end.

(** Truth value of [v] in a condition. *)
Definition truthy (v : json) : bool :=
  match v with
  | JNull => false
  | JBool b => b
  | JNum z => negb (Z.eqb z 0)
  | JStr s => negb (String.eqb s "")
  | JList l => match l with [] => false | _ => true end
  | JDict d => match d with [] => false | _ => true end
  end.

Fixpoint lookup (k : string) (d : list (string * json)) : option json :=
  match d with
  | [] => None
  | (k', v) :: d' => if String.eqb k k' then Some v else lookup k d'
  end.

Fixpoint is_substring (needle hay : string) : bool :=
  String.prefix needle hay ||
  match hay with
  | EmptyString => false
  | String _ hay' => is_substring needle hay'
  end.

Definition is_str (k : string) (v : json) : bool :=
  match v with
  | JStr s => String.eqb k s
  | _ => false
  end.

(** [k in v] for a string [k]. *)
Definition contains (k : string) (v : json) : outcome bool :=
  match v with
  | JDict d => Returns (match lookup k d with Some _ => true | None => false end)
  | JList l => Returns (existsb (is_str k) l)
  | JStr s => Returns (is_substring k s)
  | _ => Raises (Exn TypeError
                   ("argument of type '" ++ type_name v ++ "' is not iterable"))
  end.

(** [v[k]] for a string [k]. *)
Definition getitem (v : json) (k : string) : outcome json :=
  match v with
  | JDict d =>
      match lookup k d with
      | Some x => Returns x
      | None => Raises (Exn KeyError ("'" ++ k ++ "'"))
      end
  | JList _ =>
      Raises (Exn TypeError "list indices must be integers or slices, not str")
  | JStr _ =>
      Raises (Exn TypeError "string indices must be integers, not 'str'")
  | _ => Raises (Exn TypeError
                   ("'" ++ type_name v ++ "' object is not subscriptable"))
  end.

(** [v[0]].  The keys of a JSON object are strings, so [0] is never one. *)
Definition getitem0 (v : json) : outcome json :=
  match v with
  | JList (x :: _) => Returns x
  | JList [] => Raises (Exn IndexError "list index out of range")
  | JStr (String c _) => Returns (JStr (String c EmptyString))
  | JStr EmptyString => Raises (Exn IndexError "string index out of range")
  | JDict _ => Raises (Exn KeyError "0")
  | _ => Raises (Exn TypeError
                   ("'" ++ type_name v ++ "' object is not subscriptable"))
  end.

(** [v.get(k, default)] *)
Definition get (v : json) (k : string) (default : json) : outcome json :=
  match v with
  | JDict d =>
      Returns (match lookup k d with Some x => x | None => default end)
  | _ => Raises (Exn AttributeError
                   ("'" ++ type_name v ++ "' object has no attribute 'get'"))
  end.

Fixpoint chars (s : string) : list json :=
  match s with
  | EmptyString => []
  | String c s' => JStr (String c EmptyString) :: chars s'
  end.

(** The items a [for] loop over [v] visits. *)
Definition iter (v : json) : outcome (list json) :=
  match v with
  | JList l => Returns l
  | JDict d => Returns (map (fun kv => JStr (fst kv)) d)
  | JStr s => Returns (chars s)
  | _ => Raises (Exn TypeError
                   ("'" ++ type_name v ++ "' object is not iterable"))
  end.

(** Dictionary keys: hashable values up to Python equality, under which
    [True == 1] and [False == 0]. *)
Inductive key : Type :=
| KNone
| KInt (z : Z)
| KStr (s : string).

Definition key_eqb (a b : key) : bool :=
  match a, b with
  | KNone, KNone => true
  | KInt x, KInt y => Z.eqb x y
  | KStr x, KStr y => String.eqb x y
  | _, _ => false
  end.

Definition key_eq_dec (a b : key) : {a = b} + {a <> b}.
Proof.
  decide equality; [apply Z.eq_dec | apply string_dec].
Defined.

(** Using [v] as a dictionary key ([d[v]], [v in d]). *)
Definition hash (v : json) : outcome key :=
  match v with
  | JNull => Returns KNone
  | JBool b => Returns (KInt (if b then 1 else 0))
  | JNum z => Returns (KInt z)
  | JStr s => Returns (KStr s)
  | _ => Raises (Exn TypeError ("unhashable type: '" ++ type_name v ++ "'"))
  end.

End Py.
Import Py.

Notation "x <- c ;; k" := (Py.bind c (fun x => k))
  (at level 61, c at next level, right associativity).

(** ** The [NotionBackup] class *)

Module NotionBackup.

Definition Untitled : json := JStr "Untitled".

(** The body of the [try] block of [get_page_title]. *)
Definition get_page_title_try (page : json) : outcome json :=
  has_properties <- contains "properties" page ;;
  has_title <- (if has_properties : bool
                then properties <- getitem page "properties" ;;
                     contains "title" properties
                else Returns false) ;;
  if has_title : bool then
    properties <- getitem page "properties" ;;
    title_info <- getitem properties "title" ;;
    match title_info with
    | JList (_ :: _) =>
        first <- getitem0 title_info ;;
        text <- get first "text" (JDict []) ;;
        get text "content" Untitled
    | _ =>
        title <- get title_info "title" (JList [JDict []]) ;;
        first <- getitem0 title ;;
        text <- get first "text" (JDict []) ;;
        get text "content" Untitled
    end
  else Returns Untitled.

Definition get_page_title (page : json) : outcome json :=
  try_except (get_page_title_try page) (fun _ => Returns Untitled).

(** *** The page dictionary of [get_all_pages]

    [page_dict] maps a page identifier to a mutable info object
    [{'page', 'children', 'parent_id'}].  Every info object the second pass
    can reach is the value of exactly one key (an overwritten info is
    referenced by nothing), so a key stands for the reference to its info:
    [node_children] holds references, and appending to the children of a
    parent is seen through every alias of that parent.  The association list
    keeps Python's insertion order. *)

Record node : Type := Node {
  node_page : json;
  node_children : list key;
  node_parent_id : json
}.

Definition page_dict : Type := list (key * node).

Fixpoint dict_get (k : key) (d : page_dict) : option node :=
  match d with
  | [] => None
  | (k', n) :: d' => if key_eqb k k' then Some n else dict_get k d'
  end.

Definition dict_mem (k : key) (d : page_dict) : bool :=
  match dict_get k d with Some _ => true | None => false end.

(** [d[k] = n]: an existing key keeps its position, a new one goes last. *)
Fixpoint dict_set (k : key) (n : node) (d : page_dict) : page_dict :=
  match d with
  | [] => [(k, n)]
  | (k', n') :: d' =>
      if key_eqb k k' then (k', n) :: d' else (k', n') :: dict_set k n d'
  end.

(** [d[parent]['children'].append(child)] *)
Fixpoint append_child (parent child : key) (d : page_dict) : page_dict :=
  match d with
  | [] => []
  | (k', n) :: d' =>
      if key_eqb parent k'
      then (k', Node (node_page n) (node_children n ++ [child])%list
                     (node_parent_id n)) :: d'
      else (k', n) :: append_child parent child d'
  end.

(** One iteration of [for page in response['results']].  In
    [page_dict[page['id']] = {...}] Python evaluates the right-hand side
    first.  The list [pages] the loop also appends to is never read. *)
Definition add_page (page : json) (d : page_dict) : outcome page_dict :=
  parent <- get page "parent" (JDict []) ;;
  parent_id <- get parent "page_id" JNull ;;
  id <- getitem page "id" ;;
  k <- hash id ;;
  Returns (dict_set k (Node page [] parent_id) d).

Fixpoint add_pages (pages : list json) (d : page_dict) : outcome page_dict :=
  match pages with
  | [] => Returns d
  | page :: pages' => d' <- add_page page d ;; add_pages pages' d'
  end.

(** The first pass, [while True: ...].  [script] holds the replies the
    Notion API gives to the successive [search] calls that follow the one
    that produced [response]; a call past the end of the script fails. *)
Fixpoint first_pass (response : json) (script : list (outcome json))
    (d : page_dict) : outcome page_dict :=
  results <- getitem response "results" ;;
  pages <- iter results ;;
  d' <- add_pages pages d ;;
  has_more <- get response "has_more" JNull ;;
  if truthy has_more then
    _ <- getitem response "next_cursor" ;;
    match script with
    | [] => Raises (Exn HttpError "search request failed")
    | reply :: script' =>
        response' <- reply ;; first_pass response' script' d'
    end
  else Returns d'.

(** One iteration of [for page_id, info in page_dict.items()].  The loop
    neither adds nor removes keys and never changes ['parent_id'], so the
    items visited are those of the dictionary the first pass built. *)
Definition link_page (item : key * node) (acc : page_dict * list key)
    : outcome (page_dict * list key) :=
  let '(page_id, info) := item in
  let '(d, root_pages) := acc in
  let parent_id := node_parent_id info in
  if truthy parent_id then
    parent_key <- hash parent_id ;;
    if dict_mem parent_key d
    then Returns (append_child parent_key page_id d, root_pages)
    else Returns (d, root_pages)
  else Returns (d, (root_pages ++ [page_id])%list).

Fixpoint link_pages (items : list (key * node)) (acc : page_dict * list key)
    : outcome (page_dict * list key) :=
  match items with
  | [] => Returns acc
  | item :: items' => acc' <- link_page item acc ;; link_pages items' acc'
  end.

Definition second_pass (d : page_dict) : outcome (page_dict * list key) :=
  link_pages d (d, []).

(** The value [get_all_pages] hands to its caller: info objects with their
    children resolved, as [backup_page] walks them. *)
Inductive info : Type :=
| Info (page : json) (children : list info) (parent_id : json).

Definition deref (d : page_dict) (refs : list key) : list node :=
  flat_map (fun k => match dict_get k d with Some n => [n] | None => [] end)
           refs.

(** The object graph below [n], followed to depth [fuel]. *)
Fixpoint snapshot (fuel : nat) (d : page_dict) (n : node) : info :=
  Info (node_page n)
       (match fuel with
        | O => []
        | S fuel' => map (snapshot fuel' d) (deref d (node_children n))
        end)
       (node_parent_id n).

(** A page with a parent is never a root, so no root lies on a cycle and
    every chain of children below a root has fewer nodes than the
    dictionary has keys: that depth shows the whole graph (lemma
    [snapshot_stable]). *)
Definition objects (d : page_dict) (refs : list key) : list info :=
  map (snapshot (List.length d) d) (deref d refs).

Definition get_all_pages (script : list (outcome json))
    : outcome (list info) :=
  try_except
    (match script with
     | [] => Raises (Exn HttpError "search request failed")
     | reply :: script' =>
         response <- reply ;;
         d <- first_pass response script' [] ;;
         linked <- second_pass d ;;
         Returns (objects (fst linked) (snd linked))
     end)
    (fun e => Raises (Exn Exception
                        ("Failed to fetch Notion pages: " ++ str_exn e))).

(** *** The remote services

    Google Drive is a list of files; a request to either service is recorded
    in [requests] whether it succeeds or not.  The [oracle] fixes everything
    the script does not control: which requests fail, the identifiers Drive
    assigns, the blocks Notion holds, the clock and the replies to
    [search]. *)

Record file : Type := File {
  file_id : string;
  file_name : string;
  file_mimeType : string;
  file_parents : list string;
  file_trashed : bool;
  file_media : option json
}.

Inductive request : Type :=
| FilesList (name parent : string)
| FilesCreateFolder (name parent : string)
| BlocksChildrenList (block_id : json)
| FilesCreateMedia (name parent : string) (media : json).

Record world : Type := World {
  files : list file;
  requests : list request;
  stdout : list string;
  folder_cache : list (key * string)
}.

Record oracle : Type := Oracle {
  (** the error text of the [n]-th request, when it fails *)
  fails : nat -> option string;
  (** the identifier Drive gives to the file the [n]-th request creates *)
  new_id : nat -> string;
  (** the reply of [blocks.children.list] for a page identifier *)
  blocks : json -> json;
  (** [datetime.now().strftime('%Y%m%d')] once [n] requests were sent *)
  strftime_date : nat -> string;
  (** [datetime.now().strftime('%Y%m%d_%H%M%S')] once [n] requests were sent *)
  strftime_datetime : nat -> string;
  (** [str(v)] for a list or a dictionary [v] *)
  repr : json -> string;
  (** the replies to the successive [search] calls *)
  search : list (outcome json)
}.

(** Computations that read and write the world and may raise. *)
Definition M (A : Type) : Type := world -> outcome A * world.

Definition ret {A} (a : A) : M A := fun w => (Returns a, w).

Definition raise {A} (e : exn) : M A := fun w => (Raises e, w).

Definition mbind {A B} (c : M A) (k : A -> M B) : M B :=
  fun w =>
    match c w with
    | (Returns a, w') => k a w'
    | (Raises e, w') => (Raises e, w')
    end.

Definition lift {A} (c : outcome A) : M A := fun w => (c, w).

(** [try: c  except Exception as e: h e]; what [c] did to the world stays. *)
Definition try_ {A} (c : M A) (h : exn -> M A) : M A :=
  fun w =>
    match c w with
    | (Returns a, w') => (Returns a, w')
    | (Raises e, w') => h e w'
    end.

Notation "x <~ c ;; k" := (mbind c (fun x => k))
  (at level 61, c at next level, right associativity).

Definition print (line : string) : M unit :=
  fun w => (Returns tt,
            World (files w) (requests w) (stdout w ++ [line])%list
                  (folder_cache w)).

(** Sends a request; returns its index among the requests of the run. *)
Definition send (o : oracle) (r : request) : M nat :=
  fun w =>
    let n := List.length (requests w) in
    let w' := World (files w) (requests w ++ [r])%list (stdout w)
                    (folder_cache w) in
    match fails o n with
    | Some msg => (Raises (Exn HttpError msg), w')
    | None => (Returns n, w')
    end.

Definition add_file (f : file) : M unit :=
  fun w => (Returns tt,
            World (files w ++ [f])%list (requests w) (stdout w)
                  (folder_cache w)).

Definition list_files (p : file -> bool) : M (list file) :=
  fun w => (Returns (filter p (files w)), w).

Fixpoint cache_set (k : key) (v : string) (c : list (key * string))
    : list (key * string) :=
  match c with
  | [] => [(k, v)]
  | (k', v') :: c' =>
      if key_eqb k k' then (k', v) :: c' else (k', v') :: cache_set k v c'
  end.

Definition set_folder_cache (k : key) (v : string) : M unit :=
  fun w => (Returns tt,
            World (files w) (requests w) (stdout w)
                  (cache_set k v (folder_cache w))).

Definition now_date (o : oracle) : M string :=
  fun w => (Returns (strftime_date o (List.length (requests w))), w).

Definition now_datetime (o : oracle) : M string :=
  fun w => (Returns (strftime_datetime o (List.length (requests w))), w).

(** [f"{v}"] *)
Definition format (o : oracle) (v : json) : string :=
  match v with
  | JStr s => s
  | JNull => "None"
  | JBool true => "True"
  | JBool false => "False"
  | JNum z => NilZero.string_of_int (Z.to_int z)
  | _ => repr o v
  end.

Definition format_nat (n : nat) : string :=
  NilZero.string_of_uint (Nat.to_uint n).

Definition folder_mimeType : string := "application/vnd.google-apps.folder".

(** The files the query of [create_folder] selects: [name = '...' and
    '...' in parents and mimeType = '...folder' and trashed = false].  The
    query is kept as the two values the script puts into its text; a name
    that breaks the syntax of the query is a request the oracle fails. *)
Definition matches (folder_name parent_id : string) (f : file) : bool :=
  String.eqb (file_name f) folder_name &&
  existsb (String.eqb parent_id) (file_parents f) &&
  String.eqb (file_mimeType f) folder_mimeType &&
  negb (file_trashed f).

Definition create_folder (o : oracle) (folder_name parent_id : string)
    : M string :=
  try_
    (_ <~ send o (FilesList folder_name parent_id) ;;
     results <~ list_files (matches folder_name parent_id) ;;
     match results with
     | f :: _ => ret (file_id f)
     | [] =>
         n <~ send o (FilesCreateFolder folder_name parent_id) ;;
         _ <~ add_file (File (new_id o n) folder_name folder_mimeType
                             [parent_id] false None) ;;
         ret (new_id o n)
     end)
    (fun e => raise (Exn Exception
                       ("Failed to create folder '" ++ folder_name ++ "': "
                        ++ str_exn e))).

(** The inner [try] of [backup_page]: fetch the blocks, upload them. *)
Definition backup_content (o : oracle) (page_id page_title : json)
    (folder_id : string) : M unit :=
  try_
    (_ <~ send o (BlocksChildrenList page_id) ;;
     let page_content := blocks o page_id in
     stamp <~ now_datetime o ;;
     let name := format o page_title ++ "_content_" ++ stamp ++ ".json" in
     _ <~ print ("Uploading content for page '" ++ format o page_title
                 ++ "'...") ;;
     n <~ send o (FilesCreateMedia name folder_id page_content) ;;
     add_file (File (new_id o n) name "application/json" [folder_id] false
                    (Some page_content)))
    (fun e => print ("Error backing up content for page '"
                     ++ format o page_title ++ "': " ++ str_exn e)).

(** [backup_page] calls itself once for each level of the tree.  The limit
    the interpreter puts on nested calls is not part of this model, which
    follows the script on every tree that stays within it: what is said
    about the walk of a whole tree is said of trees of bounded height
    ([shallow]). *)
Fixpoint backup_page (o : oracle) (page_info : info)
    (parent_folder_id : string) {struct page_info} : M string :=
  match page_info with
  | Info page children _ =>
      page_id <~ lift (getitem page "id") ;;
      page_title <~ lift (get_page_title page) ;;
      try_
        (date <~ now_date o ;;
         let folder_name := format o page_title ++ "_" ++ date in
         folder_id <~ create_folder o folder_name parent_folder_id ;;
         k <~ lift (hash page_id) ;;
         _ <~ set_folder_cache k folder_id ;;
         _ <~ backup_content o page_id page_title folder_id ;;
         _ <~ (fix backup_children (cs : list info) : M unit :=
                 match cs with
                 | [] => ret tt
                 | child_info :: cs' =>
                     _ <~ try_
                            (_ <~ backup_page o child_info folder_id ;; ret tt)
                            (fun e => print ("Error backing up child page: "
                                             ++ str_exn e)) ;;
                     backup_children cs'
                 end) children ;;
         ret folder_name)
        (fun e => raise (Exn Exception
                           ("Failed to backup page '" ++ format o page_title
                            ++ "': " ++ str_exn e)))
  end.

(** The [for i, page_info in enumerate(root_pages, 1)] loop of
    [run_backup]; [counts] is [(successful_backups, failed_backups)]. *)
Fixpoint backup_roots (o : oracle) (total : nat) (backup_folder_id : string)
    (i : nat) (root_pages : list info) (counts : nat * nat)
    : M (nat * nat) :=
  match root_pages with
  | [] => ret counts
  | page_info :: rest =>
      counts' <~
        try_
          (folder_name <~ backup_page o page_info backup_folder_id ;;
           _ <~ print ("[" ++ format_nat i ++ "/" ++ format_nat total
                       ++ "] Backed up: " ++ folder_name) ;;
           ret (S (fst counts), snd counts))
          (fun e =>
             _ <~ print ("Error backing up root page " ++ format_nat i ++ ": "
                         ++ str_exn e) ;;
             ret (fst counts, S (snd counts))) ;;
      backup_roots o total backup_folder_id (S i) rest counts'
  end.

Definition newline : string := String (ascii_of_nat 10) EmptyString.

(** The four [print] calls that end a run that reached its loop. *)
Definition summary (counts : nat * nat) (backup_folder_name : string)
    : list string :=
  [ newline ++ "Backup completed!";
    "Successfully backed up: " ++ format_nat (fst counts)
      ++ " root pages and their subpages";
    "Failed to backup: " ++ format_nat (snd counts) ++ " root pages";
    "Backup folder: " ++ backup_folder_name ].

Fixpoint print_all (lines : list string) : M unit :=
  match lines with
  | [] => ret tt
  | line :: lines' => _ <~ print line ;; print_all lines'
  end.

Definition run_backup (o : oracle) (root_folder_id : string) : M unit :=
  try_
    (_ <~ print "Starting Notion backup..." ;;
     root_pages <~ lift (get_all_pages (search o)) ;;
     _ <~ print ("Found " ++ format_nat (List.length root_pages)
                 ++ " root pages") ;;
     stamp <~ now_datetime o ;;
     let backup_folder_name := "Notion_Backup_" ++ stamp in
     backup_folder_id <~ create_folder o backup_folder_name root_folder_id ;;
     counts <~ backup_roots o (List.length root_pages) backup_folder_id 1
                 root_pages (0, 0) ;;
     print_all (summary counts backup_folder_name))
    (fun e => print ("Backup failed: " ++ str_exn e)).

(** The world a fresh [NotionBackup] object starts in, given what the Drive
    already holds. *)
Definition initial_world (drive : list file) : world := World drive [] [] [].

End NotionBackup.
Import NotionBackup.

(** ** Vocabulary of the properties *)

(** *** Shapes of the title field *)

Definition is_string (v : json) : bool :=
  match v with JStr _ => true | _ => false end.

(** A rich-text item: an object whose ["text"], when present, is an object
    whose ["content"], when present, is a string. *)
Definition rich_text (item : json) : bool :=
  match item with
  | JDict fields =>
      match lookup "text" fields with
      | None => true
      | Some (JDict text) =>
          match lookup "content" text with
          | None => true
          | Some content => is_string content
          end
      | Some _ => false
      end
  | _ => false
  end.

(** Shape (i): a list of rich-text items. *)
Definition rich_text_list (title_info : json) : bool :=
  match title_info with
  | JList items => forallb rich_text items
  | _ => false
  end.

(** Shape (ii): a title property, whose ["title"], when present, is a list
    of rich-text items. *)
Definition title_property (title_info : json) : bool :=
  match title_info with
  | JDict fields =>
      match lookup "title" fields with
      | None => true
      | Some title => rich_text_list title
      end
  | _ => false
  end.

(** The title field of a page object, when it has one. *)
Definition title_field (page : json) : option json :=
  match page with
  | JDict fields =>
      match lookup "properties" fields with
      | Some (JDict properties) => lookup "title" properties
      | _ => None
      end
  | _ => None
  end.

(** *** Input records *)

(** The ['parent_id'] the first pass stores for a page. *)
Definition parent_id_of (page : json) : outcome json :=
  parent <- get page "parent" (JDict []) ;;
  get parent "page_id" JNull.

(** The dictionary key the first pass files a page under. *)
Definition id_of (page : json) : outcome key :=
  id <- getitem page "id" ;;
  hash id.

(** A page as the first pass records it: its key and its fresh info. *)
Definition record_of (page : json) : outcome (key * node) :=
  parent_id <- parent_id_of page ;;
  k <- id_of page ;;
  Returns (k, Node page [] parent_id).

Fixpoint records_of (pages : list json) : outcome (list (key * node)) :=
  match pages with
  | [] => Returns []
  | page :: pages' =>
      r <- record_of page ;;
      rs <- records_of pages' ;;
      Returns (r :: rs)
  end.

(** The pages the first pass visits, over all replies, in order. *)
Fixpoint drained (response : json) (script : list (outcome json))
    : outcome (list json) :=
  results <- getitem response "results" ;;
  pages <- iter results ;;
  has_more <- get response "has_more" JNull ;;
  if truthy has_more then
    _ <- getitem response "next_cursor" ;;
    match script with
    | [] => Raises (Exn HttpError "search request failed")
    | reply :: script' =>
        response' <- reply ;;
        more <- drained response' script' ;;
        Returns (pages ++ more)%list
    end
  else Returns pages.

Definition fetched (script : list (outcome json)) : outcome (list json) :=
  match script with
  | [] => Raises (Exn HttpError "search request failed")
  | reply :: script' => response <- reply ;; drained response script'
  end.

(** The dictionary after the records were stored one by one. *)
Definition store (records : list (key * node)) : page_dict :=
  fold_left (fun d r => dict_set (fst r) (snd r) d) records [].

(** The last record filed under [k]. *)
Definition find_last (k : key) (records : list (key * node)) : option node :=
  option_map snd (find (fun r => key_eqb k (fst r)) (rev records)).

(** *** Parent pointers *)

Definition is_root (n : node) : bool := negb (truthy (node_parent_id n)).

(** The key a non-empty hashable parent identifier refers to. *)
Definition parent_ref (n : node) : option key :=
  if truthy (node_parent_id n) then
    match hash (node_parent_id n) with
    | Returns k => Some k
    | Raises _ => None
    end
  else None.

(** A page the second pass can place: without parent, or with a parent
    identifier that can be looked up. *)
Definition linkable (n : node) : bool :=
  is_root n || match parent_ref n with Some _ => true | None => false end.

Definition child_of (parent : key) (item : key * node) : bool :=
  match parent_ref (snd item) with
  | Some k => key_eqb k parent
  | None => false
  end.

Definition roots_of (items : list (key * node)) : list key :=
  map fst (filter (fun item => is_root (snd item)) items).

Definition children_of (items : list (key * node)) (parent : key)
    : list key :=
  map fst (filter (child_of parent) items).

(** The dictionary [d] once the pages [items] were linked to their parents. *)
Definition relink (items : list (key * node)) (d : page_dict) : page_dict :=
  map (fun item =>
         (fst item,
          Node (node_page (snd item))
               (node_children (snd item) ++ children_of items (fst item))%list
               (node_parent_id (snd item))))
      d.

(** [at_depth d n k]: following parent identifiers from the page filed
    under [k] passes through [n] pages of [d] and ends at one without
    parent. *)
Fixpoint at_depth (d : page_dict) (n : nat) (k : key) : bool :=
  match dict_get k d with
  | None => false
  | Some nd =>
      match n with
      | O => is_root nd
      | S n' =>
          match parent_ref nd with
          | Some p => at_depth d n' p
          | None => false
          end
      end
  end.

(** *** Forests *)

Definition info_page (i : info) : json :=
  match i with Info page _ _ => page end.

Definition info_parent_id (i : info) : json :=
  match i with Info _ _ parent_id => parent_id end.

(** All the nodes of a tree, the root first. *)
Fixpoint nodes (i : info) : list info :=
  match i with
  | Info _ children _ => i :: flat_map nodes children
  end.

Fixpoint count_nodes (i : info) : nat :=
  match i with
  | Info _ children _ => S (list_sum (map count_nodes children))
  end.

Definition forest_pages (forest : list info) : list json :=
  map info_page (flat_map nodes forest).

Definition forest_size (forest : list info) : nat :=
  list_sum (map count_nodes forest).

(** *** The linked dictionary, read as lists of keys *)

(** What [d[pk]['children'].append(c)] does to one item of the
    dictionary. *)
Definition add_child_if (pk c : key) (item : key * node) : key * node :=
  if key_eqb pk (fst item)
  then (fst item, Node (node_page (snd item))
                       (node_children (snd item) ++ [c])%list
                       (node_parent_id (snd item)))
  else item.

(** No page of [d] has children yet, as after the first pass. *)
Definition fresh (d : page_dict) : Prop :=
  forall item, In item d -> node_children (snd item) = [].

(** The forest [get_all_pages] returns for the records of the first pass. *)
Definition built (records : list (key * node)) : list info :=
  objects (relink (store records) (store records))
          (roots_of (store records)).

Definition kids (d : page_dict) (k : key) : list key :=
  match dict_get k d with Some n => node_children n | None => [] end.

Definition parent_of (d : page_dict) (k : key) : option key :=
  match dict_get k d with Some n => parent_ref n | None => None end.

Definition page_at (d : page_dict) (k : key) : list json :=
  match dict_get k d with Some n => [node_page n] | None => [] end.

(** The keys of the trees below [ks], in the order [snapshot] lists their
    nodes, down to depth [fuel]. *)
Fixpoint walk (fuel : nat) (d : page_dict) (ks : list key) : list key :=
  match fuel with
  | O => []
  | S fuel' => flat_map (fun k => k :: walk fuel' d (kids d k)) ks
  end.

(** How many of the depths [n], ..., [n + fuel - 1] the key [x] is at. *)
Fixpoint depth_sum (d : page_dict) (x : key) (n fuel : nat) : nat :=
  match fuel with
  | O => 0
  | S fuel' => Nat.b2n (at_depth d n x) + depth_sum d x (S n) fuel'
  end.

Abbreviation count := (count_occ key_eq_dec).

(** *** The mirror writer, step by step *)

(** The [for child_info in page_info['children']] loop of [backup_page]. *)
Definition backup_children (o : oracle) (folder_id : string)
    : list info -> M unit :=
  fix loop (children : list info) : M unit :=
    match children with
    | [] => ret tt
    | child_info :: rest =>
        _ <~ try_ (_ <~ backup_page o child_info folder_id ;; ret tt)
                  (fun e => print ("Error backing up child page: "
                                   ++ str_exn e)) ;;
        loop rest
    end.

(** The folder name [backup_page] computes in world [w]. *)
Definition folder_name_of (o : oracle) (page_title : json) (w : world)
    : string :=
  format o page_title ++ "_" ++ strftime_date o (List.length (requests w)).

(** The exceptions [create_folder] and [backup_page] raise in place of the
    one they caught. *)
Definition create_folder_failed (folder_name : string) (msg : string) : exn :=
  Exn Exception ("Failed to create folder '" ++ folder_name ++ "': " ++ msg).

Definition backup_failed (o : oracle) (page_title : json) (e : exn) : exn :=
  Exn Exception ("Failed to backup page '" ++ format o page_title ++ "': "
                 ++ str_exn e).

(** The lines printed when a step fails or a root is done. *)
Definition content_failed (o : oracle) (page_title : json) (msg : string)
    : string :=
  "Error backing up content for page '" ++ format o page_title ++ "': " ++ msg.

Definition child_failed (e : exn) : string :=
  "Error backing up child page: " ++ str_exn e.

Definition root_done (i total : nat) (folder_name : string) : string :=
  "[" ++ format_nat i ++ "/" ++ format_nat total ++ "] Backed up: "
  ++ folder_name.

Definition root_failed (i : nat) (e : exn) : string :=
  "Error backing up root page " ++ format_nat i ++ ": " ++ str_exn e.

(** The world after one more request, one more line, one more file. *)
Definition sent (r : request) (w : world) : world :=
  World (files w) (requests w ++ [r])%list (stdout w) (folder_cache w).

Definition printed (line : string) (w : world) : world :=
  World (files w) (requests w) (stdout w ++ [line])%list (folder_cache w).

Definition stored (f : file) (w : world) : world :=
  World (files w ++ [f])%list (requests w) (stdout w) (folder_cache w).

(** The file [create_folder] creates. *)
Definition folder (id name parent : string) : file :=
  File id name folder_mimeType [parent] false None.

(** The world [backup_page] leaves once the folder [folder_id] exists. *)
Definition after_folder (o : oracle) (page_id page_title : json)
    (k : key) (folder_id : string) (children : list info) (w : world)
    : world :=
  snd (backup_children o folder_id children
         (snd (backup_content o page_id page_title folder_id
                 (snd (set_folder_cache k folder_id w))))).

(** [w'] is [w] after more requests, more files and more output. *)
Definition extends (w w' : world) : Prop :=
  (exists fs, files w' = (files w ++ fs)%list) /\
  (exists rs, requests w' = (requests w ++ rs)%list) /\
  (exists out, stdout w' = (stdout w ++ out)%list).

Definition monotone {A} (c : M A) : Prop :=
  forall w, extends w (snd (c w)).

(** The title [backup_page] uses in names and messages. *)
Definition title_of (o : oracle) (page_info : info) : string :=
  match get_page_title (info_page page_info) with
  | Returns page_title => format o page_title
  | Raises _ => ""
  end.

Definition has_id (page_info : info) : Prop :=
  exists page_id, getitem (info_page page_info) "id" = Returns page_id.

(** [backup_page] was run for [page_info] under the folder [parent]: the
    lookup of its folder, the first request it sends, is among the
    requests. *)
Definition attempted (o : oracle) (page_info : info) (parent : string)
    (w : world) : Prop :=
  exists date,
    In (FilesList (title_of o page_info ++ "_" ++ date) parent) (requests w).

(** *** Reading a Drive *)

Definition is_folder (f : file) : bool :=
  String.eqb (file_mimeType f) folder_mimeType.

Definition ids (fs : list file) : list string := map file_id fs.

(** The folders lying directly in one of the folders [parents]. *)
Definition containers_in (parents : list string) (fs : list file)
    : list file :=
  filter (fun f =>
            is_folder f &&
            existsb (fun p => existsb (String.eqb p) parents) (file_parents f))
         fs.

(** The files that are not folders. *)
Definition artifacts (fs : list file) : list file :=
  filter (fun f => negb (is_folder f)) fs.

(** *** Scenarios *)

(** Page objects as the Notion API returns them, cut down to the fields the
    script reads. *)
Definition title_property_of (title : string) : json :=
  JDict [("id", JStr "title"); ("type", JStr "title");
         ("title", JList [JDict [("type", JStr "text");
                                 ("text", JDict [("content", JStr title)]);
                                 ("plain_text", JStr title)]])].

Definition page_object (id : string) (parent : option json) (title : string)
    : json :=
  JDict ([("object", JStr "page"); ("id", JStr id)]
         ++ match parent with Some p => [("parent", p)] | None => [] end
         ++ [("properties", JDict [("title", title_property_of title)])])%list.

Definition page_parent (id : string) : json :=
  JDict [("type", JStr "page_id"); ("page_id", JStr id)].

Definition workspace_parent : json :=
  JDict [("type", JStr "workspace"); ("workspace", JBool true)].

(** The only reply of a search that fits in one page of results. *)
Definition search_reply (pages : list json) : json :=
  JDict [("object", JStr "list"); ("results", JList pages);
         ("has_more", JBool false); ("next_cursor", JNull)].

(** A reply that announces more results after [cursor]. *)
Definition search_reply_more (pages : list json) (cursor : string) : json :=
  JDict [("object", JStr "list"); ("results", JList pages);
         ("has_more", JBool true); ("next_cursor", JStr cursor)].

(** A root, its child, and a page whose parent was not fetched. *)
Definition page_A : json := page_object "A" None "A".

Definition page_B : json := page_object "B" (Some (page_parent "A")) "B".

Definition page_C : json :=
  page_object "C" (Some (page_parent "missing-id")) "C".

(** A page that names itself as its parent. *)
Definition self_parented : json :=
  page_object "S" (Some (page_parent "S")) "S".

(** A second record with the identifier of [page_B]. *)
Definition page_B_again : json := page_object "B" None "B, second copy".

(** A page that lies directly in the workspace. *)
Definition page_W : json := page_object "W" (Some workspace_parent) "W".

(** The forest of two pages, [page_B] below [page_A]. *)
Definition tree_A : info := Info page_A [Info page_B [] (JStr "A")] JNull.

(** An oracle for the scenarios: [failing n] tells whether request [n]
    fails. *)
Definition scenario (failing : nat -> bool) (replies : list (outcome json))
    : oracle :=
  Oracle (fun n => if failing n then Some "503 Service Unavailable" else None)
         (fun n => "file-" ++ format_nat n)
         (fun _ => JDict [("object", JStr "list"); ("results", JList [])])
         (fun _ => "20240101")
         (fun _ => "20240101_120000")
         (fun _ => "")
         replies.

Definition quiet (replies : list (outcome json)) : oracle :=
  scenario (fun _ => false) replies.

(** The run of the end-to-end scenario: three records, an empty Drive, no
    failing request. *)
Definition scenario_run : outcome unit * world :=
  run_backup (quiet [Returns (search_reply [page_A; page_B; page_C])])
             "ROOT" (initial_world []).

(** Two folders of one name under one parent, as Drive allows. *)
Definition twin_drive : list file :=
  [folder "twin-1" "X" "P"; folder "twin-2" "X" "P"].

(** *** Vocabulary of the further properties *)

Definition info_children (i : info) : list info :=
  match i with Info _ children _ => children end.

(** The info object of the linked dictionary that [n] became. *)
Definition linked (d : page_dict) (k : key) (n : node) : node :=
  Node (node_page n) (node_children n ++ children_of d k)%list
       (node_parent_id n).

(** The replies to a search answered in pages: every chunk but the last
    announces more results. *)
Definition paged (chunks : list (list json)) (last : list json)
    : list (outcome json) :=
  (map (fun ps => Returns (search_reply_more ps "next")) chunks
   ++ [Returns (search_reply last)])%list.

(** The exception [get_all_pages] raises in place of [e]. *)
Definition fetch_failed (e : exn) : exn :=
  Exn Exception ("Failed to fetch Notion pages: " ++ str_exn e).

(** From [w] to [w'] at most [a] requests were sent and [b] files added. *)
Definition grown (a b : nat) (w w' : world) : Prop :=
  List.length (requests w') <= List.length (requests w) + a /\
  List.length (files w') <= List.length (files w) + b.

(** Every page of the tree has an ['id'] that can be a dictionary key. *)
Fixpoint identified (i : info) : bool :=
  match i with
  | Info page children _ =>
      match id_of page with Returns _ => true | Raises _ => false end
      && forallb identified children
  end.

(** The number of levels of a tree: the number of calls of [backup_page]
    that are open at once when the deepest page is backed up. *)
Fixpoint height (i : info) : nat :=
  match i with
  | Info _ children _ => S (list_max (map height children))
  end.

(** The interpreter allows 1000 nested calls unless told otherwise, and the
    script does not tell it; a tree of at most [max_height] levels leaves
    nine tenths of them to the calls around and below [backup_page]. *)
Definition max_height : nat := 100.

Definition shallow (i : info) : bool := Nat.leb (height i) max_height.

(** The number of content files and of folders on the Drive. *)
Definition uploads (w : world) : nat := List.length (artifacts (files w)).

Definition folders (w : world) : nat :=
  List.length (filter is_folder (files w)).

(** The line [run_backup] prints for an exception it caught. *)
Definition run_failed (e : exn) : string := "Backup failed: " ++ str_exn e.

(** The name of the top-level folder of a run started in [w]. *)
Definition backup_folder_name_of (o : oracle) (w : world) : string :=
  "Notion_Backup_" ++ strftime_datetime o (List.length (requests w)).

(** The world once [run_backup] has printed its first lines. *)
Definition started (w : world) : world :=
  printed "Starting Notion backup..." w.

Definition found (total : nat) (w : world) : world :=
  printed ("Found " ++ format_nat total ++ " root pages") (started w).

(** Two worlds that differ at most in the folder cache. *)
Definition same_drive (w1 w2 : world) : Prop :=
  files w1 = files w2 /\ requests w1 = requests w2 /\ stdout w1 = stdout w2.

(** [c] does not look at the folder cache. *)
Definition cache_blind {A} (c : M A) : Prop :=
  forall w1 w2,
    same_drive w1 w2 ->
    fst (c w1) = fst (c w2) /\ same_drive (snd (c w1)) (snd (c w2)).

(** A second root and a second child of [page_A]. *)
Definition page_R : json := page_object "R" None "R".

Definition page_D : json := page_object "D" (Some (page_parent "A")) "D".

(** [page_A] with its two children, in the order they were fetched. *)
Definition tree_A_two : info :=
  Info page_A [Info page_B [] (JStr "A"); Info page_D [] (JStr "A")] JNull.

(** A page object without ["id"]. *)
Definition page_without_id : json :=
  JDict [("object", JStr "page");
         ("properties", JDict [("title", title_property_of "lost")])].

(** A page whose title is written in two rich-text items. *)
Definition page_two_items : json :=
  JDict
    [("object", JStr "page"); ("id", JStr "T");
     ("properties",
      JDict
        [("title",
          JDict
            [("type", JStr "title");
             ("title",
              JList [JDict [("text", JDict [("content", JStr "Road")])];
                     JDict [("text", JDict [("content", JStr "map")])]])])])].

(** Another page with the title of [page_A]. *)
Definition page_A_twin : json := page_object "A-twin" None "A".

(** *** The loop over the roots, turn by turn *)

(** One turn of the loop of [run_backup]: the root, the world [backup_page]
    was started in, what it gave and the world it left. *)
Record turn : Type := Turn {
  turn_root : info;
  turn_before : world;
  turn_outcome : outcome string;
  turn_after : world
}.

(** The line the loop prints at the end of turn [i]. *)
Definition turn_line (i total : nat) (res : outcome string) : string :=
  match res with
  | Returns folder_name => root_done i total folder_name
  | Raises e => root_failed i e
  end.

(** The turns of a loop that gives every root its turn, whatever the turns
    before it gave: [backup_page] is run on each root in the world the turn
    before left, plus its line. *)
Fixpoint turns (o : oracle) (total : nat) (backup_folder_id : string)
    (i : nat) (root_pages : list info) (w : world) : list turn :=
  match root_pages with
  | [] => []
  | page_info :: rest =>
      let res := backup_page o page_info backup_folder_id w in
      Turn page_info w (fst res) (snd res)
      :: turns o total backup_folder_id (S i) rest
           (printed (turn_line i total (fst res)) (snd res))
  end.

(** The world after the turns [ts], numbered from [i], of a loop started in
    [w]. *)
Fixpoint end_of_turns (total i : nat) (w : world) (ts : list turn) : world :=
  match ts with
  | [] => w
  | t :: ts' =>
      end_of_turns total (S i)
        (printed (turn_line i total (turn_outcome t)) (turn_after t)) ts'
  end.

Definition succeeded (t : turn) : bool :=
  match turn_outcome t with Returns _ => true | Raises _ => false end.

Definition successes (ts : list turn) : nat :=
  List.length (filter succeeded ts).

Definition failures (ts : list turn) : nat :=
  List.length (filter (fun t => negb (succeeded t)) ts).

(** The requests sent during a turn. *)
Definition new_requests (t : turn) : list request :=
  skipn (List.length (requests (turn_before t))) (requests (turn_after t)).

(** The lookup of the folder of a root, the first request of its turn. *)
Definition first_request (o : oracle) (backup_folder_id : string) (t : turn)
    : request :=
  FilesList (title_of o (turn_root t) ++ "_"
             ++ strftime_date o (List.length (requests (turn_before t))))
            backup_folder_id.

(** Three roots, the second with a child, and a Drive that fails the
    seventh request of the run: the lookup of the folder of the second
    root. *)
Definition three_roots : list info :=
  [Info page_R [] JNull; tree_A; Info page_W [] JNull].

Definition one_outage : oracle :=
  scenario (Nat.eqb 6)
           [Returns (search_reply [page_R; page_A; page_B; page_W])].

(** The world of that run once its top-level folder exists. *)
Definition outage_start : world :=
  snd (create_folder one_outage "Notion_Backup_20240101_120000" "ROOT"
                     (found 3 (initial_world []))).

(** The same pages and a Drive that fails every request, and the run on
    it. *)
Definition no_drive : oracle :=
  scenario (fun _ => true)
           [Returns (search_reply [page_R; page_A; page_B; page_W])].

Definition no_drive_run : outcome unit * world :=
  run_backup no_drive "ROOT" (initial_world []).

(** ** Properties *)

(** *** Title extraction *)

Lemma try_except_returns {A} (c : outcome A) (a : A) :
  exists v, try_except c (fun _ => Returns a) = Returns v.
Proof. destruct c; simpl; eauto. Qed.

Lemma get_page_title_returns (page : json) :
  exists v, get_page_title page = Returns v.
Proof. unfold get_page_title. apply try_except_returns. Qed.

Lemma get_page_title_no_field (page : json) :
  title_field page = None -> get_page_title page = Returns Untitled.
Proof.
  unfold get_page_title, get_page_title_try, title_field.
  destruct page as [| b | z | s | items | fields]; simpl; try reflexivity.
  - destruct (is_substring "properties" s); reflexivity.
  - destruct (existsb (is_str "properties") items); reflexivity.
  - destruct (lookup "properties" fields) as [properties |]; simpl;
      [| reflexivity].
    destruct properties as [| b | z | s | items | props]; simpl;
      try reflexivity.
    + destruct (is_substring "title" s); reflexivity.
    + destruct (existsb (is_str "title") items); reflexivity.
    + intros ->. reflexivity.
Qed.

Lemma get_page_title_field (page title_info : json) :
  title_field page = Some title_info ->
  get_page_title page =
  try_except
    (match title_info with
     | JList (_ :: _) =>
         first <- getitem0 title_info ;;
         text <- get first "text" (JDict []) ;;
         get text "content" Untitled
     | _ =>
         title <- get title_info "title" (JList [JDict []]) ;;
         first <- getitem0 title ;;
         text <- get first "text" (JDict []) ;;
         get text "content" Untitled
     end)
    (fun _ => Returns Untitled).
Proof.
  unfold get_page_title, get_page_title_try, title_field.
  destruct page as [| | | | | fields]; try discriminate.
  destruct (lookup "properties" fields) as [properties |] eqn:Hp;
    try discriminate.
  destruct properties as [| | | | | props]; try discriminate.
  intros Ht. simpl. rewrite Hp. simpl. rewrite Ht. reflexivity.
Qed.

Lemma rich_text_content (item : json) :
  rich_text item = true ->
  exists s,
    try_except (text <- get item "text" (JDict []) ;;
                get text "content" Untitled)
               (fun _ => Returns Untitled) = Returns (JStr s).
Proof.
  unfold rich_text. destruct item as [| | | | | fields]; try discriminate.
  simpl. destruct (lookup "text" fields) as [text |]; simpl.
  - destruct text as [| | | | | tf]; try discriminate. simpl.
    destruct (lookup "content" tf) as [content |]; simpl.
    + destruct content; try discriminate. eauto.
    + intros _. exists "Untitled". reflexivity.
  - intros _. exists "Untitled". reflexivity.
Qed.

Lemma rich_text_list_title (items : list json) :
  forallb rich_text items = true ->
  exists s,
    try_except (first <- getitem0 (JList items) ;;
                text <- get first "text" (JDict []) ;;
                get text "content" Untitled)
               (fun _ => Returns Untitled) = Returns (JStr s).
Proof.
  destruct items as [| item items]; simpl.
  - intros _. exists "Untitled". reflexivity.
  - intros H. apply andb_true_iff in H as [H _].
    apply rich_text_content in H. exact H.
Qed.

(** C6.  [get_page_title] never raises: it returns for every page object;
    for a title field that is a list of rich-text items or a title property
    it returns a string; for the empty object, an empty title field and a
    page without a title field it returns the placeholder. *)
Theorem get_page_title_never_raises (page : json) :
  (exists v, get_page_title page = Returns v) /\
  (forall title_info,
      title_field page = Some title_info ->
      rich_text_list title_info = true \/ title_property title_info = true ->
      exists s, get_page_title page = Returns (JStr s)) /\
  (page = JDict [] \/ title_field page = Some (JDict []) \/
   title_field page = None ->
   get_page_title page = Returns Untitled).
Proof.
  split; [| split].
  - apply get_page_title_returns.
  - intros title_info Hf Hshape. rewrite (get_page_title_field _ _ Hf).
    destruct Hshape as [Hl | Hp].
    + destruct title_info as [| | | | items |]; try discriminate.
      simpl in Hl. destruct items as [| item items].
      * exists "Untitled". reflexivity.
      * apply (rich_text_list_title (item :: items)). exact Hl.
    + destruct title_info as [| | | | | fields]; try discriminate.
      simpl in Hp. simpl get.
      destruct (lookup "title" fields) as [title |].
      * destruct title as [| | | | items |]; try discriminate.
        simpl in Hp. apply (rich_text_list_title items). exact Hp.
      * exists "Untitled". reflexivity.
  - intros [-> | [Hf | Hf]].
    + reflexivity.
    + rewrite (get_page_title_field _ _ Hf). reflexivity.
    + apply get_page_title_no_field. exact Hf.
Qed.

(** *** Keys, exceptions and the first pass *)

Lemma key_eqb_eq (a b : key) : key_eqb a b = true <-> a = b.
Proof.
  destruct a, b; simpl; split; intros H; try discriminate; try reflexivity.
  - apply Z.eqb_eq in H. now subst.
  - inversion H. apply Z.eqb_refl.
  - apply String.eqb_eq in H. now subst.
  - inversion H. apply String.eqb_refl.
Qed.

Lemma key_eqb_refl (a : key) : key_eqb a a = true.
Proof. now apply key_eqb_eq. Qed.

Lemma key_eqb_neq (a b : key) : key_eqb a b = false <-> a <> b.
Proof.
  rewrite <- key_eqb_eq. destruct (key_eqb a b); split; congruence.
Qed.

Lemma bind_returns {A B} (c : outcome A) (k : A -> outcome B) (b : B) :
  Py.bind c k = Returns b -> exists a, c = Returns a /\ k a = Returns b.
Proof. destruct c; simpl; [eauto | discriminate]. Qed.

Lemma add_page_record (page : json) (d : page_dict) :
  add_page page d =
  (r <- record_of page ;; Returns (dict_set (fst r) (snd r) d)).
Proof.
  unfold add_page, record_of, parent_id_of, id_of.
  destruct (get page "parent" (JDict [])) as [parent |]; simpl; auto.
  destruct (get parent "page_id" JNull); simpl; auto.
  destruct (getitem page "id") as [id |]; simpl; auto.
  destruct (hash id); reflexivity.
Qed.

Lemma add_pages_records (pages : list json) :
  forall records d,
    records_of pages = Returns records ->
    add_pages pages d =
    Returns (fold_left (fun d r => dict_set (fst r) (snd r) d) records d).
Proof.
  induction pages as [| page pages IH]; simpl; intros records d H.
  - inversion H. reflexivity.
  - rewrite add_page_record.
    destruct (record_of page) as [r |]; simpl in *; try discriminate.
    destruct (records_of pages) as [rs |]; simpl in *; try discriminate.
    inversion H; subst. simpl. apply IH. reflexivity.
Qed.

Lemma add_pages_app (l1 l2 : list json) (d : page_dict) :
  add_pages (l1 ++ l2) d = (d' <- add_pages l1 d ;; add_pages l2 d').
Proof.
  revert d. induction l1 as [| page l1 IH]; simpl; intros d; auto.
  destruct (add_page page d); simpl; auto.
Qed.

Lemma first_pass_unfold (response : json) (script : list (outcome json))
    (d : page_dict) :
  first_pass response script d =
  (results <- getitem response "results" ;;
   pages <- iter results ;;
   d' <- add_pages pages d ;;
   has_more <- get response "has_more" JNull ;;
   if truthy has_more then
     _ <- getitem response "next_cursor" ;;
     match script with
     | [] => Raises (Exn HttpError "search request failed")
     | reply :: script' =>
         response' <- reply ;; first_pass response' script' d'
     end
   else Returns d').
Proof. destruct script; reflexivity. Qed.

Lemma drained_unfold (response : json) (script : list (outcome json)) :
  drained response script =
  (results <- getitem response "results" ;;
   pages <- iter results ;;
   has_more <- get response "has_more" JNull ;;
   if truthy has_more then
     _ <- getitem response "next_cursor" ;;
     match script with
     | [] => Raises (Exn HttpError "search request failed")
     | reply :: script' =>
         response' <- reply ;;
         more <- drained response' script' ;;
         Returns (pages ++ more)%list
     end
   else Returns pages).
Proof. destruct script; reflexivity. Qed.

Lemma first_pass_drained (script : list (outcome json)) :
  forall response pages d,
    drained response script = Returns pages ->
    first_pass response script d = add_pages pages d.
Proof.
  induction script as [| reply script IH]; intros response pages d;
    rewrite drained_unfold, first_pass_unfold; intros H.
  - destruct (getitem response "results") as [results |]; simpl in *;
      try discriminate.
    destruct (iter results) as [ps |]; simpl in *; try discriminate.
    destruct (get response "has_more" JNull) as [has_more |]; simpl in *;
      try discriminate.
    destruct (truthy has_more).
    + destruct (getitem response "next_cursor"); discriminate.
    + inversion H; subst. destruct (add_pages pages d); reflexivity.
  - destruct (getitem response "results") as [results |]; simpl in *;
      try discriminate.
    destruct (iter results) as [ps |]; simpl in *; try discriminate.
    destruct (get response "has_more" JNull) as [has_more |]; simpl in *;
      try discriminate.
    destruct (truthy has_more).
    + destruct (getitem response "next_cursor"); simpl in *;
        try discriminate.
      destruct reply as [response' |]; simpl in *; try discriminate.
      destruct (drained response' script) as [more |] eqn:Hm; simpl in *;
        try discriminate.
      inversion H; subst. rewrite add_pages_app.
      destruct (add_pages ps d) as [d' |]; simpl; auto.
    + inversion H; subst. destruct (add_pages pages d); reflexivity.
Qed.

(** *** The page dictionary *)

Lemma find_append {A} (p : A -> bool) (l1 l2 : list A) :
  find p (l1 ++ l2) =
  match find p l1 with Some a => Some a | None => find p l2 end.
Proof.
  induction l1 as [| a l1 IH]; simpl; [reflexivity |].
  destruct (p a); [reflexivity | exact IH].
Qed.

Lemma dict_get_In (d : page_dict) (k : key) (n : node) :
  dict_get k d = Some n -> In (k, n) d.
Proof.
  induction d as [| [k' n'] d IH]; simpl; try discriminate.
  destruct (key_eqb k k') eqn:E.
  - apply key_eqb_eq in E. intros H. inversion H; subst. now left.
  - intros H. right. now apply IH.
Qed.

Lemma dict_get_None (d : page_dict) (k : key) :
  dict_get k d = None <-> ~ In k (map fst d).
Proof.
  induction d as [| [k' n'] d IH]; simpl.
  - tauto.
  - destruct (key_eqb k k') eqn:E.
    + apply key_eqb_eq in E. subst. split; [discriminate | tauto].
    + apply key_eqb_neq in E. rewrite IH. split; intros H; [| tauto].
      intros [H' | H']; [congruence | tauto].
Qed.

Lemma In_dict_get (d : page_dict) (k : key) (n : node) :
  NoDup (map fst d) -> In (k, n) d -> dict_get k d = Some n.
Proof.
  induction d as [| [k' n'] d IH]; simpl; intros Hnd Hin; [tauto |].
  inversion Hnd as [| ? ? Hk' Hnd']; subst.
  destruct Hin as [Heq | Hin].
  - inversion Heq; subst. now rewrite key_eqb_refl.
  - destruct (key_eqb k k') eqn:E.
    + apply key_eqb_eq in E. subst. exfalso. apply Hk'.
      apply (in_map fst) in Hin. exact Hin.
    + now apply IH.
Qed.

Lemma dict_get_set (k k' : key) (n : node) (d : page_dict) :
  dict_get k (dict_set k' n d) =
  if key_eqb k k' then Some n else dict_get k d.
Proof.
  induction d as [| [k0 n0] d IH]; simpl.
  - reflexivity.
  - destruct (key_eqb k' k0) eqn:E0; simpl.
    + apply key_eqb_eq in E0. subst. destruct (key_eqb k k0); reflexivity.
    + destruct (key_eqb k k0) eqn:E1.
      * apply key_eqb_eq in E1. subst.
        destruct (key_eqb k0 k') eqn:E2; [| reflexivity].
        apply key_eqb_eq in E2. subst.
        rewrite key_eqb_refl in E0. discriminate.
      * exact IH.
Qed.

Lemma dict_set_fresh (k : key) (n : node) (d : page_dict) :
  ~ In k (map fst d) -> dict_set k n d = (d ++ [(k, n)])%list.
Proof.
  induction d as [| [k0 n0] d IH]; simpl; intros H; [reflexivity |].
  destruct (key_eqb k k0) eqn:E.
  - apply key_eqb_eq in E. subst. tauto.
  - rewrite IH; [reflexivity | tauto].
Qed.

Lemma dict_set_keys (k : key) (n : node) (d : page_dict) :
  map fst (dict_set k n d) =
  if dict_mem k d then map fst d else (map fst d ++ [k])%list.
Proof.
  unfold dict_mem. induction d as [| [k0 n0] d IH]; simpl; [reflexivity |].
  destruct (key_eqb k k0) eqn:E; simpl; [reflexivity |].
  rewrite IH. destruct (dict_get k d); reflexivity.
Qed.

Lemma dict_set_NoDup (k : key) (n : node) (d : page_dict) :
  NoDup (map fst d) -> NoDup (map fst (dict_set k n d)).
Proof.
  intros H. rewrite dict_set_keys. unfold dict_mem.
  destruct (dict_get k d) eqn:E; [exact H |].
  apply dict_get_None in E.
  apply NoDup_app; [exact H | repeat constructor; simpl; tauto |].
  intros x Hx [<- | []]. tauto.
Qed.

Lemma fold_set_NoDup (records : list (key * node)) :
  forall d, NoDup (map fst d) ->
  NoDup (map fst (fold_left (fun d r => dict_set (fst r) (snd r) d)
                            records d)).
Proof.
  induction records as [| r records IH]; simpl; intros d H; [exact H |].
  apply IH. now apply dict_set_NoDup.
Qed.

Lemma store_NoDup (records : list (key * node)) :
  NoDup (map fst (store records)).
Proof. apply fold_set_NoDup. constructor. Qed.

Lemma fold_set_get (k : key) (records : list (key * node)) :
  forall d,
    dict_get k (fold_left (fun d r => dict_set (fst r) (snd r) d) records d)
    = match find_last k records with
      | Some n => Some n
      | None => dict_get k d
      end.
Proof.
  unfold find_last.
  induction records as [| r records IH]; simpl; intros d; [reflexivity |].
  rewrite IH, dict_get_set, find_append.
  destruct (find (fun r0 => key_eqb k (fst r0)) (rev records)); simpl;
    [reflexivity |].
  destruct (key_eqb k (fst r)); reflexivity.
Qed.

Lemma store_get (k : key) (records : list (key * node)) :
  dict_get k (store records) = find_last k records.
Proof.
  unfold store. rewrite fold_set_get. simpl.
  destruct (find_last k records); reflexivity.
Qed.

Lemma fold_set_distinct (records : list (key * node)) :
  forall d,
    NoDup (map fst (d ++ records)) ->
    fold_left (fun d r => dict_set (fst r) (snd r) d) records d
    = (d ++ records)%list.
Proof.
  induction records as [| [k n] records IH]; simpl; intros d H.
  - now rewrite app_nil_r.
  - assert (Hk : ~ In k (map fst d)).
    { rewrite map_app in H. simpl in H. apply NoDup_remove_2 in H.
      intros Hin. apply H. apply in_or_app. now left. }
    rewrite (dict_set_fresh _ _ _ Hk), IH, <- app_assoc; [reflexivity |].
    now rewrite <- app_assoc.
Qed.

Lemma store_distinct (records : list (key * node)) :
  NoDup (map fst records) -> store records = records.
Proof. intros H. apply (fold_set_distinct records []). exact H. Qed.

(** *** The second pass *)

Lemma append_child_absent (pk c : key) (d : page_dict) :
  dict_get pk d = None -> append_child pk c d = d.
Proof.
  induction d as [| [k n] d IH]; simpl; [reflexivity |].
  destruct (key_eqb pk k); [discriminate |].
  intros H. now rewrite IH.
Qed.

Lemma append_child_map (pk c : key) (d : page_dict) :
  NoDup (map fst d) -> append_child pk c d = map (add_child_if pk c) d.
Proof.
  induction d as [| [k n] d IH]; simpl; intros H; [reflexivity |].
  inversion H as [| ? ? Hk Hd]; subst.
  unfold add_child_if at 1. simpl.
  destruct (key_eqb pk k) eqn:E.
  - apply key_eqb_eq in E. subst. f_equal.
    rewrite <- (append_child_absent k c d) at 1.
    + now apply IH.
    + now apply dict_get_None.
  - f_equal. now apply IH.
Qed.

Lemma append_child_keys (pk c : key) (d : page_dict) :
  map fst (append_child pk c d) = map fst d.
Proof.
  induction d as [| [k n] d IH]; simpl; [reflexivity |].
  destruct (key_eqb pk k); simpl; [reflexivity | now rewrite IH].
Qed.

Lemma relink_nil (d : page_dict) : relink [] d = d.
Proof.
  unfold relink, children_of. simpl.
  induction d as [| [k [p cs pid]] d IH]; simpl; [reflexivity |].
  now rewrite app_nil_r, IH.
Qed.

Lemma relink_keys (items : list (key * node)) (d : page_dict) :
  map fst (relink items d) = map fst d.
Proof. unfold relink. rewrite map_map. reflexivity. Qed.

Lemma relink_root (c : key) (n : node) (items : list (key * node))
    (d : page_dict) :
  parent_ref n = None -> relink ((c, n) :: items) d = relink items d.
Proof.
  intros H. unfold relink, children_of, child_of. simpl. now rewrite H.
Qed.

Lemma relink_child (c pk : key) (n : node) (items : list (key * node))
    (d : page_dict) :
  parent_ref n = Some pk ->
  relink ((c, n) :: items) d = relink items (map (add_child_if pk c) d).
Proof.
  intros H. unfold relink. rewrite map_map. apply map_ext.
  intros [k m]. unfold children_of, child_of, add_child_if. simpl.
  rewrite H. destruct (key_eqb pk k); simpl; [| reflexivity].
  now rewrite <- app_assoc.
Qed.

Lemma link_pages_spec (items : list (key * node)) :
  forall d root_pages,
    NoDup (map fst d) ->
    forallb (fun item => linkable (snd item)) items = true ->
    link_pages items (d, root_pages) =
    Returns (relink items d, (root_pages ++ roots_of items)%list).
Proof.
  induction items as [| [c n] items IH]; simpl; intros d root_pages Hd Hl.
  - now rewrite relink_nil, app_nil_r.
  - apply andb_true_iff in Hl as [Hn Hl].
    unfold linkable, is_root, parent_ref in Hn. simpl in Hn.
    unfold roots_of. simpl. unfold is_root at 1.
    destruct (truthy (node_parent_id n)) eqn:Et; simpl in *.
    + destruct (hash (node_parent_id n)) as [pk |] eqn:Eh; simpl in *;
        try discriminate.
      assert (Hp : parent_ref n = Some pk).
      { unfold parent_ref. now rewrite Et, Eh. }
      rewrite (relink_child _ _ _ _ _ Hp).
      rewrite <- (append_child_map _ _ _ Hd).
      unfold dict_mem. destruct (dict_get pk d) eqn:Eg; simpl.
      * rewrite IH; [reflexivity | | exact Hl].
        now rewrite append_child_keys.
      * rewrite (append_child_absent _ _ _ Eg). now rewrite IH.
    + assert (Hp : parent_ref n = None).
      { unfold parent_ref. now rewrite Et. }
      rewrite (relink_root _ _ _ _ Hp), IH; [| exact Hd | exact Hl].
      now rewrite <- app_assoc.
Qed.

Lemma link_pages_linkable (items : list (key * node)) :
  forall acc result,
    link_pages items acc = Returns result ->
    forallb (fun item => linkable (snd item)) items = true.
Proof.
  induction items as [| [c n] items IH]; simpl; intros [d rs] result H;
    [reflexivity |].
  apply bind_returns in H as [acc' [H1 H2]].
  apply IH in H2. rewrite H2, andb_true_r.
  unfold linkable, is_root, parent_ref.
  destruct (truthy (node_parent_id n)); simpl in *; [| reflexivity].
  destruct (hash (node_parent_id n)); simpl in *; [reflexivity | discriminate].
Qed.

Lemma second_pass_spec (d : page_dict) :
  NoDup (map fst d) ->
  forallb (fun item => linkable (snd item)) d = true ->
  second_pass d = Returns (relink d d, roots_of d).
Proof.
  intros Hd Hl. unfold second_pass. now rewrite link_pages_spec.
Qed.

Lemma relink_get (items : list (key * node)) (d : page_dict) (k : key) :
  dict_get k (relink items d) =
  option_map (fun n => Node (node_page n)
                            (node_children n ++ children_of items k)%list
                            (node_parent_id n))
             (dict_get k d).
Proof.
  unfold relink. induction d as [| [k' n] d IH]; simpl; [reflexivity |].
  destruct (key_eqb k k') eqn:E; [| exact IH].
  apply key_eqb_eq in E. now subst.
Qed.

(** *** Trees as lists of keys *)

Lemma forest_pages_app (f1 f2 : list info) :
  forest_pages (f1 ++ f2) = (forest_pages f1 ++ forest_pages f2)%list.
Proof. unfold forest_pages. now rewrite flat_map_app, map_app. Qed.

Lemma forest_pages_cons (page pid : json) (children rest : list info) :
  forest_pages (Info page children pid :: rest) =
  page :: (forest_pages children ++ forest_pages rest)%list.
Proof.
  unfold forest_pages. simpl. now rewrite map_app.
Qed.

Lemma walk_cons (fuel : nat) (d : page_dict) (k : key) (ks : list key) :
  walk (S fuel) d (k :: ks) =
  (k :: walk fuel d (kids d k) ++ walk (S fuel) d ks)%list.
Proof. reflexivity. Qed.

Lemma deref_cons (d : page_dict) (k : key) (ks : list key) :
  deref d (k :: ks) =
  (match dict_get k d with Some n => [n] | None => [] end ++ deref d ks)%list.
Proof. reflexivity. Qed.

Lemma snapshot_unfold (fuel : nat) (d : page_dict) (n : node) :
  snapshot fuel d n =
  Info (node_page n)
       (match fuel with
        | O => []
        | S fuel' => map (snapshot fuel' d) (deref d (node_children n))
        end)
       (node_parent_id n).
Proof. destruct fuel; reflexivity. Qed.

Lemma forest_pages_walk (fuel : nat) (d : page_dict) :
  forall ks,
    forest_pages (map (snapshot fuel d) (deref d ks)) =
    flat_map (page_at d) (walk (S fuel) d ks).
Proof.
  induction fuel as [| fuel IH]; intros ks.
  - induction ks as [| k ks IHks]; [reflexivity |].
    rewrite walk_cons, deref_cons, map_app, forest_pages_app, IHks.
    simpl. unfold page_at at 2.
    destruct (dict_get k d) as [n |]; reflexivity.
  - induction ks as [| k ks IHks]; [reflexivity |].
    rewrite walk_cons, deref_cons, map_app, forest_pages_app, IHks.
    cbn [flat_map]. rewrite flat_map_app. unfold page_at at 2, kids.
    destruct (dict_get k d) as [n |]; [| reflexivity].
    cbn [map]. rewrite snapshot_unfold, forest_pages_cons, IH.
    unfold forest_pages. simpl. now rewrite app_nil_r.
Qed.

Lemma walk_app (fuel : nat) (d : page_dict) (l1 l2 : list key) :
  walk fuel d (l1 ++ l2) = (walk fuel d l1 ++ walk fuel d l2)%list.
Proof. destruct fuel; simpl; [reflexivity | apply flat_map_app]. Qed.

Lemma walk_levels (fuel : nat) (d : page_dict) (ks : list key) :
  Permutation (walk (S fuel) d ks)
              (ks ++ walk fuel d (flat_map (kids d) ks)).
Proof.
  induction ks as [| k ks IH].
  - destruct fuel; constructor.
  - change (walk (S fuel) d (k :: ks))
      with (k :: walk fuel d (kids d k) ++ walk (S fuel) d ks)%list.
    simpl. constructor. rewrite walk_app.
    rewrite IH. apply Permutation_app_swap_app.
Qed.

(** *** Counting occurrences of a key *)

Lemma count_filter_keys (f : key * node -> bool) (d : page_dict) (x : key) :
  NoDup (map fst d) ->
  count (map fst (filter f d)) x =
  match dict_get x d with
  | Some n => Nat.b2n (f (x, n))
  | None => 0
  end.
Proof.
  induction d as [| [k n] d IH]; simpl; intros H; [reflexivity |].
  inversion H as [| ? ? Hk Hd]; subst. specialize (IH Hd).
  destruct (key_eqb x k) eqn:E.
  - apply key_eqb_eq in E. subst.
    assert (H0 : count (map fst (filter f d)) k = 0).
    { apply count_occ_not_In. intros Hin. apply Hk.
      apply in_map_iff in Hin as [[k' n'] [<- Hin]].
      apply filter_In in Hin as [Hin _]. now apply (in_map fst) in Hin. }
    destruct (f (k, n)); simpl.
    + destruct (key_eq_dec k k); [| congruence]. now rewrite H0.
    + exact H0.
  - apply key_eqb_neq in E. rewrite <- IH.
    destruct (f (k, n)); simpl; [| reflexivity].
    destruct (key_eq_dec k x); [congruence | reflexivity].
Qed.

Lemma count_roots (d : page_dict) (x : key) :
  NoDup (map fst d) ->
  count (roots_of d) x = Nat.b2n (at_depth d 0 x).
Proof.
  intros H. unfold roots_of. rewrite count_filter_keys by exact H.
  simpl. destruct (dict_get x d); reflexivity.
Qed.

Lemma count_children (d : page_dict) (p x : key) :
  NoDup (map fst d) ->
  count (children_of d p) x =
  match parent_of d x with
  | Some q => Nat.b2n (key_eqb q p)
  | None => 0
  end.
Proof.
  intros H. unfold children_of, parent_of.
  rewrite count_filter_keys by exact H.
  destruct (dict_get x d) as [n |]; [| reflexivity].
  unfold child_of. simpl. destruct (parent_ref n); reflexivity.
Qed.

Lemma kids_relink (d : page_dict) (k : key) :
  fresh d ->
  kids (relink d d) k =
  match dict_get k d with Some _ => children_of d k | None => [] end.
Proof.
  intros Hf. unfold kids. rewrite relink_get.
  destruct (dict_get k d) as [n |] eqn:E; simpl; [| reflexivity].
  apply dict_get_In in E. apply Hf in E. simpl in E. now rewrite E.
Qed.

Lemma at_depth_present (d : page_dict) (n : nat) (k : key) :
  at_depth d n k = true -> In k (map fst d).
Proof.
  intros H. destruct (dict_get k d) eqn:E.
  - apply dict_get_In in E. now apply (in_map fst) in E.
  - destruct n; simpl in H; rewrite E in H; discriminate.
Qed.

Lemma at_depth_S (d : page_dict) (n : nat) (k : key) :
  at_depth d (S n) k =
  match parent_of d k with Some p => at_depth d n p | None => false end.
Proof. unfold parent_of. simpl. destruct (dict_get k d); reflexivity. Qed.

Lemma at_depth_0 (d : page_dict) (k : key) :
  at_depth d 0 k = true -> parent_of d k = None.
Proof.
  unfold parent_of, is_root, parent_ref. simpl.
  destruct (dict_get k d) as [n |]; intros H; [| reflexivity].
  unfold is_root in H.
  destruct (truthy (node_parent_id n)); [discriminate | reflexivity].
Qed.

Lemma count_next (d : page_dict) (x : key) (L : list key) :
  NoDup (map fst d) -> fresh d -> incl L (map fst d) ->
  count (flat_map (kids (relink d d)) L) x =
  match parent_of d x with Some p => count L p | None => 0 end.
Proof.
  intros Hd Hf. induction L as [| a L IH]; intros HL; simpl.
  - destruct (parent_of d x); reflexivity.
  - rewrite count_occ_app, IH by (intros y Hy; apply HL; now right).
    rewrite kids_relink by exact Hf.
    destruct (dict_get a d) eqn:Ea.
    + rewrite count_children by exact Hd.
      destruct (parent_of d x) as [q |]; [| reflexivity].
      destruct (key_eq_dec a q) as [-> | Hne].
      * now rewrite key_eqb_refl.
      * assert (E : key_eqb q a = false) by (apply key_eqb_neq; congruence).
        now rewrite E.
    + exfalso. apply dict_get_None in Ea. apply Ea, HL. now left.
Qed.

Lemma count_walk (d : page_dict) (x : key) :
  NoDup (map fst d) -> fresh d ->
  forall fuel n L,
    (forall y, count L y = Nat.b2n (at_depth d n y)) ->
    count (walk fuel (relink d d) L) x = depth_sum d x n fuel.
Proof.
  intros Hd Hf. induction fuel as [| fuel IH]; intros n L HL;
    [reflexivity |].
  assert (Hin : incl L (map fst d)).
  { intros y Hy. apply (count_occ_In key_eq_dec) in Hy. rewrite HL in Hy.
    destruct (at_depth d n y) eqn:E; simpl in Hy; [| lia].
    now apply at_depth_present in E. }
  pose proof (walk_levels fuel (relink d d) L) as HP.
  apply (Permutation_count_occ key_eq_dec) with (x := x) in HP.
  rewrite HP, count_occ_app, HL. simpl. f_equal.
  apply IH. intros y. rewrite count_next by assumption.
  rewrite at_depth_S. destruct (parent_of d y); [apply HL | reflexivity].
Qed.

(** *** Depths *)

Lemma at_depth_unique (d : page_dict) :
  forall n m k,
    at_depth d n k = true -> at_depth d m k = true -> n = m.
Proof.
  induction n as [| n IH]; intros [| m] k Hn Hm; try reflexivity.
  - apply at_depth_0 in Hn. rewrite at_depth_S, Hn in Hm. discriminate.
  - apply at_depth_0 in Hm. rewrite at_depth_S, Hm in Hn. discriminate.
  - rewrite at_depth_S in Hn, Hm. destruct (parent_of d k); [| discriminate].
    f_equal. now apply (IH m k0).
Qed.

(** The chain of ancestors of a page at depth [n] has [S n] distinct keys. *)
Lemma at_depth_chain (d : page_dict) :
  forall n k,
    at_depth d n k = true ->
    exists chain,
      List.length chain = S n /\ NoDup chain /\
      forall y, In y chain ->
                In y (map fst d) /\
                exists m, m <= n /\ at_depth d m y = true.
Proof.
  induction n as [| n IH]; intros k H.
  - exists [k]. split; [reflexivity |]. split.
    + repeat constructor. simpl. tauto.
    + intros y [<- | []]. split; [now apply at_depth_present in H |].
      exists 0. split; [lia | exact H].
  - pose proof H as H'. rewrite at_depth_S in H'.
    destruct (parent_of d k) as [p |]; [| discriminate].
    destruct (IH p H') as [chain [Hlen [Hnd Hall]]].
    exists (k :: chain). split; [simpl; now rewrite Hlen |]. split.
    + constructor; [| exact Hnd]. intros Hin.
      destruct (Hall k Hin) as [_ [m [Hm Hk]]].
      pose proof (at_depth_unique d _ _ _ H Hk). lia.
    + intros y [<- | Hy].
      * split; [now apply at_depth_present in H |]. exists (S n).
        split; [lia | exact H].
      * destruct (Hall y Hy) as [Hy1 [m [Hm Hy2]]].
        split; [exact Hy1 |]. exists m. split; [lia | exact Hy2].
Qed.

Lemma at_depth_bound (d : page_dict) (n : nat) (k : key) :
  at_depth d n k = true -> n < List.length d.
Proof.
  intros H. destruct (at_depth_chain d n k H) as [chain [Hlen [Hnd Hall]]].
  assert (Hle : List.length chain <= List.length (map fst d)).
  { apply NoDup_incl_length; [exact Hnd |]. intros y Hy. now apply Hall. }
  rewrite length_map in Hle. lia.
Qed.

Lemma depth_sum_none (d : page_dict) (x : key) :
  (forall m, at_depth d m x = false) ->
  forall fuel n, depth_sum d x n fuel = 0.
Proof.
  intros H. induction fuel as [| fuel IH]; intros n; simpl; [reflexivity |].
  now rewrite H, IH.
Qed.

Lemma depth_sum_below (d : page_dict) (x : key) (m : nat) :
  at_depth d m x = true ->
  forall fuel n, m < n -> depth_sum d x n fuel = 0.
Proof.
  intros H. induction fuel as [| fuel IH]; intros n Hn; simpl;
    [reflexivity |].
  rewrite IH by lia.
  destruct (at_depth d n x) eqn:E; [| reflexivity].
  pose proof (at_depth_unique d _ _ _ H E). lia.
Qed.

Lemma depth_sum_one (d : page_dict) (x : key) (m : nat) :
  at_depth d m x = true ->
  forall fuel n, n <= m < n + fuel -> depth_sum d x n fuel = 1.
Proof.
  intros H. induction fuel as [| fuel IH]; intros n Hn; [lia |].
  simpl. destruct (Nat.eq_dec n m) as [-> | Hne].
  - rewrite H. simpl. f_equal. apply (depth_sum_below d x m H). lia.
  - rewrite IH by lia.
    destruct (at_depth d n x) eqn:E; [| reflexivity].
    pose proof (at_depth_unique d _ _ _ H E). lia.
Qed.

(** The keys a walk from the roots visits, counted: the pages whose parent
    chain ends at a page without parent once each, no other page at all. *)
Lemma count_walk_roots (d : page_dict) (x : key) (fuel : nat) :
  NoDup (map fst d) -> fresh d -> List.length d <= fuel ->
  count (walk fuel (relink d d) (roots_of d)) x =
  if existsb (fun m => at_depth d m x) (seq 0 (List.length d))
  then 1 else 0.
Proof.
  intros Hd Hf Hfuel.
  rewrite (count_walk d x Hd Hf fuel 0)
    by (intros y; now apply count_roots).
  destruct (existsb _ _) eqn:E.
  - apply existsb_exists in E as [m [Hm E]]. apply in_seq in Hm.
    apply (depth_sum_one d x m E). lia.
  - apply depth_sum_none. intros m.
    destruct (at_depth d m x) eqn:E'; [| reflexivity].
    pose proof (at_depth_bound d m x E') as Hb.
    assert (Hex : existsb (fun m => at_depth d m x) (seq 0 (List.length d))
                  = true).
    { apply existsb_exists. exists m. split; [apply in_seq; lia | exact E']. }
    congruence.
Qed.

(** *** Records and the dictionary built from them *)

Lemma record_of_fields (page : json) (k : key) (n : node) :
  record_of page = Returns (k, n) ->
  id_of page = Returns k /\ n = Node page [] (node_parent_id n) /\
  parent_id_of page = Returns (node_parent_id n).
Proof.
  unfold record_of. intros H.
  apply bind_returns in H as [pid [H1 H]].
  apply bind_returns in H as [k' [H2 H]].
  inversion H; subst. simpl. auto.
Qed.

Lemma records_of_In (pages : list json) :
  forall records r,
    records_of pages = Returns records ->
    In r records ->
    exists page, In page pages /\ record_of page = Returns r.
Proof.
  induction pages as [| page pages IH]; simpl; intros records r H Hin.
  - inversion H; subst. destruct Hin.
  - apply bind_returns in H as [r0 [H0 H]].
    apply bind_returns in H as [rs [Hrs H]].
    inversion H; subst. destruct Hin as [<- | Hin].
    + exists page. auto.
    + destruct (IH rs r Hrs Hin) as [p [Hp Hr]]. exists p. auto.
Qed.

Lemma records_of_pages (pages : list json) :
  forall records,
    records_of pages = Returns records ->
    map (fun r => node_page (snd r)) records = pages.
Proof.
  induction pages as [| page pages IH]; simpl; intros records H.
  - inversion H. reflexivity.
  - apply bind_returns in H as [[k n] [H0 H]].
    apply bind_returns in H as [rs [Hrs H]].
    inversion H; subst. simpl. rewrite (IH rs Hrs).
    apply record_of_fields in H0 as [_ [-> _]]. reflexivity.
Qed.

Lemma records_of_mem (pages : list json) :
  forall records page,
    records_of pages = Returns records ->
    In page pages ->
    exists r, In r records /\ record_of page = Returns r.
Proof.
  induction pages as [| p pages IH]; simpl; intros records page H Hin;
    [destruct Hin |].
  apply bind_returns in H as [r0 [H0 H]].
  apply bind_returns in H as [rs [Hrs H]].
  inversion H; subst. destruct Hin as [<- | Hin].
  - exists r0. simpl. auto.
  - destruct (IH rs page Hrs Hin) as [r [Hr Hp]]. exists r. simpl. auto.
Qed.

Lemma find_last_In (k : key) (records : list (key * node)) (n : node) :
  find_last k records = Some n -> In (k, n) records.
Proof.
  unfold find_last. intros H.
  destruct (find _ (rev records)) as [[k' n'] |] eqn:E; [| discriminate].
  simpl in H. inversion H; subst.
  apply find_some in E as [Hin Hk]. simpl in Hk.
  apply key_eqb_eq in Hk. subst. now apply in_rev.
Qed.

Lemma store_In (records : list (key * node)) (item : key * node) :
  In item (store records) -> In item records.
Proof.
  intros H. destruct item as [k n].
  apply (In_dict_get _ _ _ (store_NoDup records)) in H.
  rewrite store_get in H. now apply find_last_In.
Qed.

Lemma store_fresh (pages : list json) (records : list (key * node)) :
  records_of pages = Returns records -> fresh (store records).
Proof.
  intros H [k n] Hin. apply store_In in Hin.
  destruct (records_of_In _ _ _ H Hin) as [page [_ Hr]].
  apply record_of_fields in Hr as [_ [-> _]]. reflexivity.
Qed.

(** *** What [get_all_pages] returns *)

Lemma get_all_pages_records (script : list (outcome json))
    (pages : list json) (records : list (key * node)) :
  fetched script = Returns pages ->
  records_of pages = Returns records ->
  get_all_pages script =
  try_except
    (linked <- second_pass (store records) ;;
     Returns (objects (fst linked) (snd linked)))
    (fun e => Raises (Exn Exception
                        ("Failed to fetch Notion pages: " ++ str_exn e))).
Proof.
  intros Hf Hr. unfold get_all_pages, fetched in *.
  destruct script as [| reply script]; [discriminate |].
  destruct reply as [response |]; simpl in *; [| discriminate].
  rewrite (first_pass_drained _ _ _ _ Hf).
  rewrite (add_pages_records _ _ _ Hr). reflexivity.
Qed.

Lemma get_all_pages_linkable (script : list (outcome json))
    (pages : list json) (records : list (key * node)) :
  fetched script = Returns pages ->
  records_of pages = Returns records ->
  forallb (fun item => linkable (snd item)) (store records) = true ->
  get_all_pages script = Returns (built records).
Proof.
  intros Hf Hr Hl. rewrite (get_all_pages_records _ _ _ Hf Hr).
  rewrite second_pass_spec; [reflexivity | apply store_NoDup | exact Hl].
Qed.

Lemma get_all_pages_returned (script : list (outcome json))
    (pages : list json) (records : list (key * node)) (forest : list info) :
  fetched script = Returns pages ->
  records_of pages = Returns records ->
  get_all_pages script = Returns forest ->
  forest = built records.
Proof.
  intros Hf Hr H. rewrite (get_all_pages_records _ _ _ Hf Hr) in H.
  destruct (second_pass (store records)) as [linked |] eqn:E; simpl in H;
    [| discriminate].
  pose proof E as El. apply link_pages_linkable in El.
  rewrite second_pass_spec in E; [| apply store_NoDup | exact El].
  inversion E; subst. simpl in H. inversion H. reflexivity.
Qed.

(** *** Induction on trees *)

Lemma info_induction (P : info -> Prop) :
  (forall page children parent_id,
      Forall P children -> P (Info page children parent_id)) ->
  forall i, P i.
Proof.
  intros step. fix IH 1. intros [page children parent_id].
  apply step. induction children as [| c cs IHcs]; constructor.
  - apply IH.
  - exact IHcs.
Qed.

Lemma count_nodes_length (i : info) : count_nodes i = List.length (nodes i).
Proof.
  induction i as [page children pid IH] using info_induction.
  simpl. f_equal. induction IH as [| c cs Hc _ IHcs]; simpl; [reflexivity |].
  now rewrite length_app, Hc, IHcs.
Qed.

Lemma forest_size_length (forest : list info) :
  forest_size forest = List.length (forest_pages forest).
Proof.
  unfold forest_size, forest_pages. rewrite length_map.
  induction forest as [| i forest IH]; simpl; [reflexivity |].
  now rewrite length_app, count_nodes_length, IH.
Qed.

(** *** The pages of the forest *)

Lemma relink_length (items : list (key * node)) (d : page_dict) :
  List.length (relink items d) = List.length d.
Proof. unfold relink. apply length_map. Qed.

Lemma built_pages (records : list (key * node)) :
  forest_pages (built records) =
  flat_map (page_at (relink (store records) (store records)))
           (walk (S (List.length (store records)))
                 (relink (store records) (store records))
                 (roots_of (store records))).
Proof.
  unfold built, objects. rewrite relink_length. apply forest_pages_walk.
Qed.

Lemma page_at_relink (items : list (key * node)) (d : page_dict) (k : key) :
  page_at (relink items d) k = page_at d k.
Proof.
  unfold page_at. rewrite relink_get. destruct (dict_get k d); reflexivity.
Qed.

Lemma pages_at_keys (d : page_dict) :
  NoDup (map fst d) ->
  forall l, incl l d ->
  flat_map (page_at d) (map fst l) = map (fun r => node_page (snd r)) l.
Proof.
  intros Hd. induction l as [| [k n] l IH]; intros Hl; [reflexivity |].
  simpl. rewrite IH by (intros y Hy; apply Hl; now right).
  unfold page_at. rewrite (In_dict_get d k n Hd); [reflexivity |].
  apply Hl. now left.
Qed.

Lemma rooted_depth (d : page_dict) (x : key) :
  (exists n, at_depth d n x = true) ->
  existsb (fun m => at_depth d m x) (seq 0 (List.length d)) = true.
Proof.
  intros [n H]. apply existsb_exists. exists n. split; [| exact H].
  apply in_seq. pose proof (at_depth_bound d n x H). lia.
Qed.

Lemma unrooted_depth (d : page_dict) (x : key) :
  (forall n, at_depth d n x = false) ->
  existsb (fun m => at_depth d m x) (seq 0 (List.length d)) = false.
Proof.
  intros H. destruct (existsb _ _) eqn:E; [| reflexivity].
  apply existsb_exists in E as [m [_ E]]. now rewrite H in E.
Qed.

Lemma walk_all (d : page_dict) (fuel : nat) :
  NoDup (map fst d) -> fresh d -> List.length d <= fuel ->
  (forall k, In k (map fst d) -> exists n, at_depth d n k = true) ->
  Permutation (walk fuel (relink d d) (roots_of d)) (map fst d).
Proof.
  intros Hd Hf Hfuel Hrooted.
  apply (Permutation_count_occ key_eq_dec). intros x.
  rewrite count_walk_roots by assumption.
  destruct (in_dec key_eq_dec x (map fst d)) as [Hin | Hout].
  - rewrite (rooted_depth d x (Hrooted x Hin)).
    symmetry. now apply NoDup_count_occ'.
  - rewrite unrooted_depth.
    + symmetry. now apply count_occ_not_In.
    + intros n. destruct (at_depth d n x) eqn:E; [| reflexivity].
      apply at_depth_present in E. contradiction.
Qed.

Lemma rooted_linkable (d : page_dict) :
  NoDup (map fst d) ->
  (forall k, In k (map fst d) -> exists n, at_depth d n k = true) ->
  forallb (fun item => linkable (snd item)) d = true.
Proof.
  intros Hd Hrooted. apply forallb_forall. intros [k n] Hin.
  destruct (Hrooted k) as [m Hm]; [now apply (in_map fst) in Hin |].
  apply (In_dict_get d k n Hd) in Hin. unfold linkable. simpl.
  destruct m; simpl in Hm; rewrite Hin in Hm.
  - now rewrite Hm.
  - destruct (parent_ref n); [apply orb_true_r | discriminate].
Qed.

Lemma built_partition (pages : list json) (records : list (key * node)) :
  records_of pages = Returns records ->
  NoDup (map fst records) ->
  (forall k, In k (map fst records) -> exists n, at_depth records n k = true) ->
  Permutation (forest_pages (built records)) pages.
Proof.
  intros Hr Hnd Hrooted. rewrite built_pages.
  pose proof (store_fresh _ _ Hr) as Hf.
  rewrite (store_distinct _ Hnd) in *.
  rewrite (walk_all records (S (List.length records)) Hnd Hf) by auto.
  rewrite (flat_map_ext _ _ (page_at_relink records records)).
  rewrite (pages_at_keys records Hnd) by apply incl_refl.
  now rewrite (records_of_pages _ _ Hr).
Qed.

Lemma records_of_NoDup (pages : list json) :
  forall records,
    records_of pages = Returns records ->
    NoDup (map fst records) -> NoDup pages.
Proof.
  induction pages as [| page pages IH]; simpl; intros records H Hnd;
    [constructor |].
  apply bind_returns in H as [r [Hr H]].
  apply bind_returns in H as [rs [Hrs H]].
  inversion H; subst. simpl in Hnd.
  inversion Hnd as [| ? ? Hk Hnd']; subst.
  constructor; [| now apply (IH rs)].
  intros Hin. destruct (records_of_mem _ _ _ Hrs Hin) as [r' [Hr' Hp]].
  rewrite Hr in Hp. inversion Hp; subst. apply Hk. now apply in_map.
Qed.

(** C2, as amended.  Take records with pairwise distinct identifiers in
    which every chain of parent identifiers ends, inside the input, at a
    record without parent.  Then [get_all_pages] returns a forest whose
    nodes carry exactly the input pages, each once, and the number of nodes
    is the number of records. *)
Theorem forest_partition (script : list (outcome json)) (pages : list json)
    (records : list (key * node)) :
  fetched script = Returns pages ->
  records_of pages = Returns records ->
  NoDup (map fst records) ->
  (forall k, In k (map fst records) ->
             exists n, at_depth records n k = true) ->
  exists forest,
    get_all_pages script = Returns forest /\
    Permutation (forest_pages forest) pages /\
    NoDup (forest_pages forest) /\
    forest_size forest = List.length pages.
Proof.
  intros Hf Hr Hnd Hrooted. exists (built records).
  pose proof (built_partition pages records Hr Hnd Hrooted) as HP.
  split; [| split; [exact HP | split]].
  - apply (get_all_pages_linkable _ _ _ Hf Hr).
    rewrite (store_distinct _ Hnd). now apply rooted_linkable.
  - apply (Permutation_NoDup (Permutation_sym HP)).
    now apply (records_of_NoDup pages records).
  - rewrite forest_size_length. now apply Permutation_length.
Qed.

(** [forest_partition] on a search answered in two replies, the child
    before its parent. *)
Lemma forest_partition_witness :
  exists forest,
    get_all_pages [Returns (search_reply_more [page_B] "cursor-1");
                   Returns (search_reply [page_A])]
    = Returns forest /\
    Permutation (forest_pages forest) [page_B; page_A] /\
    NoDup (forest_pages forest) /\
    forest_size forest = 2.
Proof.
  apply (forest_partition
           [Returns (search_reply_more [page_B] "cursor-1");
            Returns (search_reply [page_A])]
           [page_B; page_A]
           [(KStr "B", Node page_B [] (JStr "A"));
            (KStr "A", Node page_A [] JNull)]).
  - reflexivity.
  - reflexivity.
  - repeat constructor; simpl; intuition discriminate.
  - intros k [<- | [<- | []]]; [exists 1 | exists 0]; reflexivity.
Defined.

(** A record that is its own parent has an identifier like no other, and
    the forest built from it alone is empty. *)
Lemma forest_partition_counterexample :
  fetched [Returns (search_reply [self_parented])] = Returns [self_parented] /\
  records_of [self_parented] =
    Returns [(KStr "S", Node self_parented [] (JStr "S"))] /\
  NoDup (map fst [(KStr "S", Node self_parented [] (JStr "S"))]) /\
  get_all_pages [Returns (search_reply [self_parented])] = Returns [] /\
  forest_size [] <> List.length [self_parented] /\
  ~ In self_parented (forest_pages []).
Proof.
  repeat split; try reflexivity.
  - repeat constructor. simpl. tauto.
  - simpl. discriminate.
  - simpl. tauto.
Qed.

(** *** The nodes of the forest *)

Lemma deref_In (d : page_dict) (ks : list key) (n : node) :
  In n (deref d ks) <-> exists k, In k ks /\ dict_get k d = Some n.
Proof.
  unfold deref. rewrite in_flat_map. split.
  - intros [k [Hk Hn]]. exists k. split; [exact Hk |].
    destruct (dict_get k d); [| destruct Hn].
    destruct Hn as [<- | []]. reflexivity.
  - intros [k [Hk Hn]]. exists k. split; [exact Hk |].
    rewrite Hn. now left.
Qed.

Lemma nodes_snapshot (d : page_dict) :
  forall fuel ks i,
    In i (flat_map nodes (map (snapshot fuel d) (deref d ks))) ->
    exists k n,
      dict_get k d = Some n /\ info_page i = node_page n /\
      info_parent_id i = node_parent_id n.
Proof.
  induction fuel as [| fuel IH]; intros ks i Hi;
    apply in_flat_map in Hi as [t [Ht Hi]];
    apply in_map_iff in Ht as [n [<- Hn]];
    apply deref_In in Hn as [k [_ Hk]];
    rewrite snapshot_unfold in Hi; simpl in Hi;
    destruct Hi as [<- | Hi]; try (exists k, n; auto; fail).
  - destruct Hi.
  - now apply IH in Hi.
Qed.

Lemma built_node (pages : list json) (records : list (key * node))
    (i : info) :
  records_of pages = Returns records ->
  In i (flat_map nodes (built records)) ->
  exists k,
    id_of (info_page i) = Returns k /\
    find_last k records = Some (Node (info_page i) [] (info_parent_id i)).
Proof.
  intros Hr Hi. unfold built, objects in Hi.
  apply nodes_snapshot in Hi as [k [n' [Hk [Hp Hq]]]].
  rewrite relink_get, store_get in Hk.
  destruct (find_last k records) as [n |] eqn:E; [| discriminate].
  simpl in Hk. inversion Hk; subst n'. simpl in Hp, Hq.
  pose proof (find_last_In _ _ _ E) as Hin.
  destruct (records_of_In _ _ _ Hr Hin) as [page [_ Hrec]].
  apply record_of_fields in Hrec as [Hid [Hn _]].
  exists k. rewrite Hp, Hq. destruct n as [p cs q]. simpl in *.
  inversion Hn; subst. split; [exact Hid | exact E].
Qed.

Lemma built_root (records : list (key * node)) (k : key) (n : node) :
  find_last k records = Some n ->
  is_root n = true ->
  exists children,
    In (Info (node_page n) children (node_parent_id n)) (built records).
Proof.
  intros Hk Hroot. unfold built, objects.
  set (d := store records).
  assert (Hd : dict_get k d = Some n) by (unfold d; now rewrite store_get).
  pose (n' := Node (node_page n)
                   (node_children n ++ children_of d k)%list
                   (node_parent_id n)).
  assert (Hin : In n' (deref (relink d d) (roots_of d))).
  { apply deref_In. exists k. split.
    - unfold roots_of. apply in_map_iff. exists (k, n). split; [reflexivity |].
      apply filter_In. split; [now apply dict_get_In | exact Hroot].
    - rewrite relink_get, Hd. reflexivity. }
  apply (in_map (snapshot (List.length (relink d d)) (relink d d))) in Hin.
  rewrite snapshot_unfold in Hin. simpl in Hin. eauto.
Qed.

(** C10.  A page whose ["parent"] object has no ["page_id"] gets the parent
    identifier [None], the same as a page without ["parent"], and (being
    the record its identifier ends up with) is one of the roots of the
    forest. *)
Theorem parent_without_page_id_is_root (script : list (outcome json))
    (pages : list json) (records : list (key * node)) (forest : list info)
    (page : json) (fields : list (string * json)) (k : key) :
  fetched script = Returns pages ->
  records_of pages = Returns records ->
  get_all_pages script = Returns forest ->
  getitem page "parent" = Returns (JDict fields) ->
  lookup "page_id" fields = None ->
  id_of page = Returns k ->
  find_last k records = Some (Node page [] JNull) ->
  parent_id_of page = Returns JNull /\
  (forall fields',
      lookup "parent" fields' = None ->
      parent_id_of (JDict fields') = Returns JNull) /\
  exists children, In (Info page children JNull) forest.
Proof.
  intros Hf Hr Hg Hparent Hno Hid Hlast. split; [| split].
  - unfold parent_id_of. destruct page; simpl in *; try discriminate.
    destruct (lookup "parent" fields0); [| discriminate].
    inversion Hparent; subst. simpl. now rewrite Hno.
  - intros fields' Hnone. unfold parent_id_of. simpl. now rewrite Hnone.
  - rewrite (get_all_pages_returned _ _ _ _ Hf Hr Hg).
    apply (built_root records k (Node page [] JNull) Hlast). reflexivity.
Qed.

(** [parent_without_page_id_is_root] on a page of the workspace. *)
Lemma parent_without_page_id_is_root_witness :
  parent_id_of page_W = Returns JNull /\
  exists children,
    In (Info page_W children JNull)
       [Info page_W [] JNull;
        Info page_A [Info page_B [] (JStr "A")] JNull].
Proof.
  destruct (parent_without_page_id_is_root
              [Returns (search_reply [page_W; page_A; page_B])]
              [page_W; page_A; page_B]
              [(KStr "W", Node page_W [] JNull);
               (KStr "A", Node page_A [] JNull);
               (KStr "B", Node page_B [] (JStr "A"))]
              [Info page_W [] JNull;
               Info page_A [Info page_B [] (JStr "A")] JNull]
              page_W
              [("type", JStr "workspace"); ("workspace", JBool true)]
              (KStr "W")
              eq_refl eq_refl eq_refl eq_refl eq_refl eq_refl eq_refl)
    as [H1 [_ H2]].
  split; [exact H1 | exact H2].
Defined.

(** C1, on the input where the code departs from it.  [page_C] names a
    parent that was not fetched: the forest built from [page_A], [page_B]
    and [page_C] has the single root [page_A], and the forest built from
    [page_C] alone is empty, so [page_C] is no root. *)
Theorem unknown_parent_record_is_dropped :
  get_all_pages [Returns (search_reply [page_A; page_B; page_C])]
  = Returns [Info page_A [Info page_B [] (JStr "A")] JNull] /\
  get_all_pages [Returns (search_reply [page_C])] = Returns [].
Proof. split; reflexivity. Qed.

(** *** Records outside every tree *)

Lemma In_children_of (d : page_dict) (k c : key) :
  NoDup (map fst d) ->
  In c (children_of d k) -> parent_of d c = Some k.
Proof.
  intros Hd Hc. unfold children_of in Hc.
  apply in_map_iff in Hc as [[c' nc] [<- Hc]].
  apply filter_In in Hc as [Hin Hch]. simpl.
  unfold parent_of. rewrite (In_dict_get d c' nc Hd Hin).
  unfold child_of in Hch. simpl in Hch.
  destruct (parent_ref nc) as [q |]; [| discriminate].
  apply key_eqb_eq in Hch. now subst.
Qed.

Lemma In_roots_of (d : page_dict) (k : key) :
  NoDup (map fst d) -> In k (roots_of d) -> at_depth d 0 k = true.
Proof.
  intros Hd Hk. unfold roots_of in Hk.
  apply in_map_iff in Hk as [[k' n] [<- Hk]].
  apply filter_In in Hk as [Hin Hroot]. simpl in *.
  now rewrite (In_dict_get d k' n Hd Hin).
Qed.

(** Below a page at depth [n], [length d - n] levels show everything. *)
Lemma snapshot_stable_at (d : page_dict) :
  NoDup (map fst d) -> fresh d ->
  forall j n k nd fuel,
    at_depth d n k = true ->
    dict_get k (relink d d) = Some nd ->
    List.length d <= n + j -> j <= fuel ->
    snapshot fuel (relink d d) nd = snapshot j (relink d d) nd.
Proof.
  intros Hd Hf. induction j as [| j IH]; intros n k nd fuel Hk Hnd Hlen Hj.
  - pose proof (at_depth_bound d n k Hk). lia.
  - destruct fuel as [| fuel]; [lia |].
    rewrite (snapshot_unfold (S fuel)), (snapshot_unfold (S j)).
    f_equal. apply map_ext_in. intros m Hm.
    apply deref_In in Hm as [c [Hc Hm]].
    assert (Hkids : node_children nd = kids (relink d d) k).
    { unfold kids. now rewrite Hnd. }
    rewrite Hkids, kids_relink in Hc by exact Hf.
    destruct (dict_get k d) eqn:Ek; [| destruct Hc].
    apply (In_children_of d k c Hd) in Hc.
    apply (IH (S n) c); [| exact Hm | lia | lia].
    rewrite at_depth_S, Hc. exact Hk.
Qed.

(** The depth [get_all_pages] follows the object graph to is enough: a
    deeper look shows the same trees. *)
Lemma snapshot_stable (records : list (key * node)) (pages : list json)
    (fuel : nat) :
  records_of pages = Returns records ->
  List.length (store records) <= fuel ->
  map (snapshot fuel (relink (store records) (store records)))
      (deref (relink (store records) (store records))
             (roots_of (store records)))
  = built records.
Proof.
  intros Hr Hfuel. unfold built, objects. rewrite relink_length.
  set (d := store records) in *.
  assert (Hd : NoDup (map fst d)) by apply store_NoDup.
  assert (Hf : fresh d) by now apply (store_fresh pages).
  apply map_ext_in. intros nd Hnd.
  apply deref_In in Hnd as [k [Hk Hnd]].
  apply (In_roots_of d k Hd) in Hk.
  rewrite (snapshot_stable_at d Hd Hf (List.length d) 0 k nd fuel);
    auto.
Qed.

(** A page whose parent identifier names no fetched page is in no tree. *)
Lemma unknown_parent_not_in_forest (script : list (outcome json))
    (pages : list json) (records : list (key * node)) (forest : list info)
    (k pk : key) (n : node) :
  fetched script = Returns pages ->
  records_of pages = Returns records ->
  get_all_pages script = Returns forest ->
  find_last k records = Some n ->
  parent_ref n = Some pk ->
  find_last pk records = None ->
  ~ In (node_page n) (forest_pages forest).
Proof.
  intros Hf Hr Hg Hk Hp Hpk Hin.
  rewrite (get_all_pages_returned _ _ _ _ Hf Hr Hg), built_pages in Hin.
  set (d := store records) in *.
  assert (Hd : NoDup (map fst d)) by apply store_NoDup.
  assert (Hfr : fresh d) by now apply (store_fresh pages).
  assert (Hkey : forall y m, find_last y records = Some m ->
                             id_of (node_page m) = Returns y).
  { intros y m Hy. apply find_last_In in Hy.
    destruct (records_of_In _ _ _ Hr Hy) as [page [_ Hrec]].
    apply record_of_fields in Hrec as [Hid [-> _]]. exact Hid. }
  apply in_flat_map in Hin as [y [Hy Hin]].
  rewrite page_at_relink in Hin. unfold page_at, d in Hin.
  rewrite store_get in Hin.
  destruct (find_last y records) as [m |] eqn:Ey; [| destruct Hin].
  destruct Hin as [Hm | []].
  pose proof (Hkey y m Ey) as Hidy. pose proof (Hkey k n Hk) as Hidk.
  rewrite Hm, Hidk in Hidy. inversion Hidy; subst y.
  assert (Hnone : forall j, at_depth d j k = false).
  { intros j. destruct j; simpl; unfold d; rewrite store_get, Hk.
    - unfold is_root. unfold parent_ref in Hp.
      destruct (truthy (node_parent_id n)); [reflexivity | discriminate].
    - rewrite Hp. destruct j; simpl; now rewrite store_get, Hpk. }
  apply (count_occ_In key_eq_dec) in Hy.
  rewrite count_walk_roots in Hy by auto.
  rewrite unrooted_depth in Hy by exact Hnone. lia.
Qed.

(** *** [backup_page], unfolded once *)

Lemma backup_page_unfold (o : oracle) (page parent_id : json)
    (children : list info) (parent_folder_id : string) :
  backup_page o (Info page children parent_id) parent_folder_id =
  (page_id <~ lift (getitem page "id") ;;
   page_title <~ lift (get_page_title page) ;;
   try_
     (date <~ now_date o ;;
      let folder_name := format o page_title ++ "_" ++ date in
      folder_id <~ create_folder o folder_name parent_folder_id ;;
      k <~ lift (hash page_id) ;;
      _ <~ set_folder_cache k folder_id ;;
      _ <~ backup_content o page_id page_title folder_id ;;
      _ <~ backup_children o folder_id children ;;
      ret folder_name)
     (fun e => raise (backup_failed o page_title e))).
Proof. reflexivity. Qed.

(** *** Worlds only grow *)

Lemma extends_refl (w : world) : extends w w.
Proof. repeat split; exists []; now rewrite app_nil_r. Qed.

Lemma extends_trans (w1 w2 w3 : world) :
  extends w1 w2 -> extends w2 w3 -> extends w1 w3.
Proof.
  intros [[f1 Hf1] [[r1 Hr1] [o1 Ho1]]] [[f2 Hf2] [[r2 Hr2] [o2 Ho2]]].
  repeat split.
  - exists (f1 ++ f2)%list. now rewrite Hf2, Hf1, app_assoc.
  - exists (r1 ++ r2)%list. now rewrite Hr2, Hr1, app_assoc.
  - exists (o1 ++ o2)%list. now rewrite Ho2, Ho1, app_assoc.
Qed.

Lemma monotone_ret {A} (a : A) : monotone (ret a).
Proof. intros w. apply extends_refl. Qed.

Lemma monotone_raise {A} (e : exn) : monotone (@raise A e).
Proof. intros w. apply extends_refl. Qed.

Lemma monotone_lift {A} (c : outcome A) : monotone (lift c).
Proof. intros w. apply extends_refl. Qed.

Lemma monotone_bind {A B} (c : M A) (k : A -> M B) :
  monotone c -> (forall a, monotone (k a)) -> monotone (mbind c k).
Proof.
  intros Hc Hk w. unfold mbind. specialize (Hc w).
  destruct (c w) as [[a | e] w']; simpl in *; [| exact Hc].
  apply (extends_trans _ _ _ Hc). apply Hk.
Qed.

Lemma monotone_try {A} (c : M A) (h : exn -> M A) :
  monotone c -> (forall e, monotone (h e)) -> monotone (try_ c h).
Proof.
  intros Hc Hh w. unfold try_. specialize (Hc w).
  destruct (c w) as [[a | e] w']; simpl in *; [exact Hc |].
  apply (extends_trans _ _ _ Hc). apply Hh.
Qed.

Lemma monotone_print (line : string) : monotone (print line).
Proof.
  intros w. repeat split; simpl.
  - exists []. now rewrite app_nil_r.
  - exists []. now rewrite app_nil_r.
  - now exists [line].
Qed.

Lemma monotone_send (o : oracle) (r : request) : monotone (send o r).
Proof.
  intros w. unfold send.
  destruct (fails o (List.length (requests w))); repeat split; simpl;
    try (exists []; now rewrite app_nil_r); now exists [r].
Qed.

Lemma monotone_add_file (f : file) : monotone (add_file f).
Proof.
  intros w. repeat split; simpl; try (exists []; now rewrite app_nil_r).
  now exists [f].
Qed.

Lemma monotone_list_files (p : file -> bool) : monotone (list_files p).
Proof. intros w. apply extends_refl. Qed.

Lemma monotone_set_folder_cache (k : key) (v : string) :
  monotone (set_folder_cache k v).
Proof.
  intros w. repeat split; simpl; exists []; now rewrite app_nil_r.
Qed.

Lemma monotone_now_date (o : oracle) : monotone (now_date o).
Proof. intros w. apply extends_refl. Qed.

Lemma monotone_now_datetime (o : oracle) : monotone (now_datetime o).
Proof. intros w. apply extends_refl. Qed.

Create HintDb mono.
#[local] Hint Resolve monotone_ret monotone_raise monotone_lift
  monotone_print monotone_send monotone_add_file monotone_list_files
  monotone_set_folder_cache monotone_now_date monotone_now_datetime : mono.

Ltac mono :=
  repeat first
    [ solve [auto with mono]
    | apply monotone_bind; [| intros ?]
    | apply monotone_try; [| intros ?] ].

Lemma monotone_create_folder (o : oracle) (folder_name parent_id : string) :
  monotone (create_folder o folder_name parent_id).
Proof.
  unfold create_folder. mono.
  match goal with |- monotone (match ?l with _ => _ end) => destruct l end;
    mono.
Qed.

Lemma monotone_backup_content (o : oracle) (page_id page_title : json)
    (folder_id : string) :
  monotone (backup_content o page_id page_title folder_id).
Proof. unfold backup_content. mono. Qed.

#[local] Hint Resolve monotone_create_folder monotone_backup_content : mono.

Lemma monotone_backup_children (o : oracle) (folder_id : string)
    (children : list info) :
  Forall (fun c => forall parent, monotone (backup_page o c parent)) children ->
  monotone (backup_children o folder_id children).
Proof.
  induction 1 as [| c cs Hc _ IH]; simpl; mono; auto.
Qed.

Lemma monotone_backup_page (o : oracle) (page_info : info) :
  forall parent_folder_id,
    monotone (backup_page o page_info parent_folder_id).
Proof.
  induction page_info as [page children pid IH] using info_induction.
  intros parent. rewrite backup_page_unfold. mono.
  now apply monotone_backup_children.
Qed.

Lemma monotone_backup_roots (o : oracle) (total : nat) (folder_id : string)
    (roots : list info) :
  forall i counts, monotone (backup_roots o total folder_id i roots counts).
Proof.
  induction roots as [| r roots IH]; intros i counts; simpl; mono;
    auto using monotone_backup_page.
Qed.

(** *** [create_folder], case by case *)

Lemma create_folder_cases (o : oracle) (name parent : string) (w : world) :
  let n := List.length (requests w) in
  let w1 := sent (FilesList name parent) w in
  create_folder o name parent w =
  match fails o n with
  | Some msg => (Raises (create_folder_failed name msg), w1)
  | None =>
      match filter (matches name parent) (files w) with
      | f :: _ => (Returns (file_id f), w1)
      | [] =>
          let w2 := sent (FilesCreateFolder name parent) w1 in
          match fails o (S n) with
          | Some msg => (Raises (create_folder_failed name msg), w2)
          | None =>
              (Returns (new_id o (S n)),
               stored (folder (new_id o (S n)) name parent) w2)
          end
      end
  end.
Proof.
  unfold create_folder, try_, mbind, send, list_files, add_file, ret, raise.
  simpl. destruct (fails o (List.length (requests w))); [reflexivity |].
  simpl. destruct (filter (matches name parent) (files w)); [| reflexivity].
  simpl. rewrite length_app, Nat.add_1_r.
  destruct (fails o (S (List.length (requests w)))); reflexivity.
Qed.

Lemma create_folder_first_request (o : oracle) (name parent : string)
    (w : world) :
  exists rest,
    requests (snd (create_folder o name parent w))
    = (requests w ++ FilesList name parent :: rest)%list.
Proof.
  rewrite create_folder_cases.
  destruct (fails o (List.length (requests w))); simpl; [now exists [] |].
  destruct (filter (matches name parent) (files w)); simpl;
    [| now exists []].
  destruct (fails o (S (List.length (requests w)))); simpl;
    exists [FilesCreateFolder name parent]; now rewrite <- app_assoc.
Qed.

(** *** The steps of [backup_page] that never raise *)

Lemma backup_content_returns (o : oracle) (page_id page_title : json)
    (folder_id : string) (w : world) :
  fst (backup_content o page_id page_title folder_id w) = Returns tt.
Proof.
  unfold backup_content, try_, mbind, send, now_datetime, print, add_file.
  destruct (fails o (List.length (requests w))); simpl; [reflexivity |].
  match goal with |- context [fails o ?n] => destruct (fails o n) end;
    reflexivity.
Qed.

Lemma backup_children_returns (o : oracle) (folder_id : string)
    (children : list info) :
  forall w, fst (backup_children o folder_id children w) = Returns tt.
Proof.
  induction children as [| c cs IH]; intros w; [reflexivity |].
  simpl. unfold mbind at 1. unfold try_, mbind, ret, print.
  destruct (backup_page o c folder_id w) as [[name | e] w']; simpl;
    apply IH.
Qed.

Lemma backup_children_cons (o : oracle) (folder_id : string) (c : info)
    (cs : list info) (w : world) :
  backup_children o folder_id (c :: cs) w =
  match backup_page o c folder_id w with
  | (Returns _, w') => backup_children o folder_id cs w'
  | (Raises e, w') =>
      backup_children o folder_id cs
        (printed ("Error backing up child page: " ++ str_exn e) w')
  end.
Proof.
  simpl. unfold mbind at 1. unfold try_, mbind, ret, print.
  destruct (backup_page o c folder_id w) as [[name | e] w']; reflexivity.
Qed.

Lemma backup_page_cases (o : oracle) (page pid : json) (children : list info)
    (parent : string) (w : world) :
  backup_page o (Info page children pid) parent w =
  match getitem page "id" with
  | Raises e => (Raises e, w)
  | Returns page_id =>
      match get_page_title page with
      | Raises e => (Raises e, w)
      | Returns page_title =>
          let folder_name := folder_name_of o page_title w in
          match create_folder o folder_name parent w with
          | (Raises e, w1) => (Raises (backup_failed o page_title e), w1)
          | (Returns folder_id, w1) =>
              match hash page_id with
              | Raises e => (Raises (backup_failed o page_title e), w1)
              | Returns k =>
                  (Returns folder_name,
                   after_folder o page_id page_title k folder_id children w1)
              end
          end
      end
  end.
Proof.
  rewrite backup_page_unfold. unfold mbind at 1, lift at 1.
  destruct (getitem page "id") as [page_id |]; [| reflexivity].
  unfold mbind at 1, lift at 1.
  destruct (get_page_title page) as [page_title |]; [| reflexivity].
  unfold try_. unfold mbind at 1, now_date at 1. cbv zeta.
  unfold mbind at 1. unfold folder_name_of.
  destruct (create_folder o _ parent w) as [[folder_id | e] w1];
    [| reflexivity].
  unfold mbind at 1, lift at 1.
  destruct (hash page_id) as [k |]; [| reflexivity].
  unfold mbind at 1. unfold after_folder.
  destruct (set_folder_cache k folder_id w1) as [[[] | e] w2] eqn:E2;
    [| discriminate].
  unfold mbind at 1. simpl snd.
  pose proof (backup_content_returns o page_id page_title folder_id w2) as H3.
  destruct (backup_content o page_id page_title folder_id w2) as [r3 w3].
  simpl in H3. subst r3. unfold mbind at 1. simpl snd.
  pose proof (backup_children_returns o folder_id children w3) as H4.
  destruct (backup_children o folder_id children w3) as [r4 w4].
  simpl in H4. subst r4. reflexivity.
Qed.

(** *** Attempts are visible in the requests *)

Lemma attempted_extends (o : oracle) (i : info) (parent : string)
    (w w' : world) :
  extends w w' -> attempted o i parent w -> attempted o i parent w'.
Proof.
  intros [_ [[rs Hrs] _]] [date H]. exists date. rewrite Hrs.
  apply in_or_app. now left.
Qed.

Lemma extends_printed (line : string) (w : world) : extends w (printed line w).
Proof. apply (monotone_print line w). Qed.

Lemma after_folder_extends (o : oracle) (page_id page_title : json)
    (k : key) (folder_id : string) (children : list info) (w : world) :
  extends w (after_folder o page_id page_title k folder_id children w).
Proof.
  unfold after_folder.
  eapply extends_trans; [apply monotone_set_folder_cache |].
  eapply extends_trans; [apply monotone_backup_content |].
  apply monotone_backup_children. apply Forall_forall.
  intros c _. apply monotone_backup_page.
Qed.

Lemma backup_page_attempted (o : oracle) (i : info) (parent : string)
    (w : world) :
  has_id i -> attempted o i parent (snd (backup_page o i parent w)).
Proof.
  destruct i as [page children pid]. intros [page_id Hid]. simpl in Hid.
  unfold attempted, title_of. cbn [info_page].
  rewrite backup_page_cases, Hid.
  destruct (get_page_title_returns page) as [t Ht]. rewrite Ht.
  exists (strftime_date o (List.length (requests w))).
  fold (folder_name_of o t w). cbv zeta.
  destruct (create_folder_first_request o (folder_name_of o t w) parent w)
    as [rest Hreq].
  destruct (create_folder o (folder_name_of o t w) parent w)
    as [[folder_id | e] w1]; cbn [snd] in Hreq.
  - destruct (hash page_id) as [k |]; cbn [snd].
    + destruct (after_folder_extends o page_id t k folder_id children w1)
        as [_ [[rs Hrs] _]].
      rewrite Hrs, Hreq.
      apply in_or_app. left. apply in_or_app. right. now left.
    + rewrite Hreq. apply in_or_app. right. now left.
  - cbn [snd]. rewrite Hreq. apply in_or_app. right. now left.
Qed.

Lemma backup_children_attempted (o : oracle) (folder_id : string)
    (children : list info) :
  forall w c,
    In c children -> has_id c ->
    attempted o c folder_id (snd (backup_children o folder_id children w)).
Proof.
  assert (Hmono : forall cs, monotone (backup_children o folder_id cs)).
  { intros cs. apply monotone_backup_children. apply Forall_forall.
    intros c _. apply monotone_backup_page. }
  induction children as [| c0 cs IH]; intros w c Hin Hid; [destruct Hin |].
  rewrite backup_children_cons. destruct Hin as [<- | Hin].
  - pose proof (backup_page_attempted o c0 folder_id w Hid) as Ha.
    destruct (backup_page o c0 folder_id w) as [[name | e] w']; simpl in Ha.
    + apply (attempted_extends _ _ _ w'); [apply Hmono | exact Ha].
    + apply (attempted_extends _ _ _ w'); [| exact Ha].
      eapply extends_trans; [apply extends_printed | apply Hmono].
  - destruct (backup_page o c0 folder_id w) as [[name | e] w'];
      now apply IH.
Qed.

Lemma backup_content_cases (o : oracle) (page_id page_title : json)
    (folder_id : string) (w : world) :
  let n := List.length (requests w) in
  let w1 := sent (BlocksChildrenList page_id) w in
  let name := format o page_title ++ "_content_"
              ++ strftime_datetime o (S n) ++ ".json" in
  let w2 := sent (FilesCreateMedia name folder_id (blocks o page_id))
                 (printed ("Uploading content for page '"
                           ++ format o page_title ++ "'...") w1) in
  backup_content o page_id page_title folder_id w =
  match fails o n with
  | Some msg => (Returns tt, printed (content_failed o page_title msg) w1)
  | None =>
      match fails o (S n) with
      | Some msg => (Returns tt, printed (content_failed o page_title msg) w2)
      | None =>
          (Returns tt,
           stored (File (new_id o (S n)) name "application/json" [folder_id]
                        false (Some (blocks o page_id))) w2)
      end
  end.
Proof.
  unfold backup_content, try_, mbind, send, now_datetime, print, add_file.
  simpl. destruct (fails o (List.length (requests w))); [reflexivity |].
  simpl. rewrite length_app, Nat.add_1_r.
  destruct (fails o (S (List.length (requests w)))); reflexivity.
Qed.

(** C4.  In [backup_page], an exception of [create_folder] for the node's
    own folder is raised again to the caller, and the world is left as that
    call left it: nothing of the subtree was tried.  Once the folder exists,
    the content step and the loop over the children return whatever fails
    in them: a failed content request leaves its message in the output, a
    child that raises leaves its message and the loop goes on, every child
    is attempted, and [backup_page] returns the folder name. *)
Theorem backup_page_failure_isolation (o : oracle) (page pid : json)
    (children : list info) (parent : string) (w : world)
    (page_id page_title : json) :
  getitem page "id" = Returns page_id ->
  get_page_title page = Returns page_title ->
  let folder_name := folder_name_of o page_title w in
  (forall e w1,
      create_folder o folder_name parent w = (Raises e, w1) ->
      backup_page o (Info page children pid) parent w
      = (Raises (backup_failed o page_title e), w1)) /\
  (forall folder_id w1 k,
      create_folder o folder_name parent w = (Returns folder_id, w1) ->
      hash page_id = Returns k ->
      let w2 := snd (set_folder_cache k folder_id w1) in
      exists w3 w4,
        backup_content o page_id page_title folder_id w2 = (Returns tt, w3) /\
        (forall msg,
            fails o (List.length (requests w2)) = Some msg \/
            (fails o (List.length (requests w2)) = None /\
             fails o (S (List.length (requests w2))) = Some msg) ->
            In (content_failed o page_title msg) (stdout w3)) /\
        backup_children o folder_id children w3 = (Returns tt, w4) /\
        backup_page o (Info page children pid) parent w
        = (Returns folder_name, w4) /\
        (forall c, In c children -> has_id c ->
                   attempted o c folder_id w4)) /\
  (forall folder_id c rest e w0 w',
      backup_page o c folder_id w0 = (Raises e, w') ->
      backup_children o folder_id (c :: rest) w0
      = backup_children o folder_id rest (printed (child_failed e) w') /\
      forall c', In c' rest -> has_id c' ->
                 attempted o c' folder_id
                   (snd (backup_children o folder_id (c :: rest) w0))).
Proof.
  intros Hid Ht folder_name. split; [| split].
  - intros e w1 Hc. rewrite backup_page_cases, Hid, Ht. cbv zeta.
    fold folder_name. now rewrite Hc.
  - intros folder_id w1 k Hc Hk w2.
    pose proof (backup_content_returns o page_id page_title folder_id w2)
      as H3.
    destruct (backup_content o page_id page_title folder_id w2) as [r3 w3]
      eqn:E3.
    simpl in H3. subst r3.
    pose proof (backup_children_returns o folder_id children w3) as H4.
    destruct (backup_children o folder_id children w3) as [r4 w4] eqn:E4.
    simpl in H4. subst r4. exists w3, w4.
    split; [reflexivity |]. split; [| split; [exact E4 | split]].
    + intros msg Hfail. rewrite backup_content_cases in E3.
      destruct Hfail as [Hf | [Hf1 Hf2]].
      * rewrite Hf in E3. inversion E3. simpl.
        apply in_or_app. right. now left.
      * rewrite Hf1, Hf2 in E3. inversion E3. simpl.
        apply in_or_app. right. now left.
    + rewrite backup_page_cases, Hid, Ht. cbv zeta. fold folder_name.
      rewrite Hc, Hk. unfold after_folder. fold w2.
      rewrite E3. cbn [snd]. now rewrite E4.
    + intros c Hin Hc'.
      pose proof (backup_children_attempted o folder_id children w3 c
                    Hin Hc') as Ha.
      now rewrite E4 in Ha.
  - intros folder_id c rest e w0 w' Hraise. split.
    + now rewrite backup_children_cons, Hraise.
    + intros c' Hin Hc'. apply backup_children_attempted; [now right | exact Hc'].
Qed.

(** *** The loop over the roots *)

Lemma backup_roots_cons (o : oracle) (total : nat) (folder_id : string)
    (i : nat) (r : info) (rest : list info) (counts : nat * nat)
    (w : world) :
  backup_roots o total folder_id i (r :: rest) counts w =
  match backup_page o r folder_id w with
  | (Returns folder_name, w') =>
      backup_roots o total folder_id (S i) rest
        (S (fst counts), snd counts) (printed (root_done i total folder_name) w')
  | (Raises e, w') =>
      backup_roots o total folder_id (S i) rest
        (fst counts, S (snd counts)) (printed (root_failed i e) w')
  end.
Proof.
  simpl. unfold mbind at 1. unfold try_, mbind, ret, print.
  destruct (backup_page o r folder_id w) as [[name | e] w']; reflexivity.
Qed.

Lemma backup_roots_all (o : oracle) (total : nat) (folder_id : string)
    (roots : list info) :
  forall i counts w,
  exists successful failed w',
    backup_roots o total folder_id i roots counts w
    = (Returns (successful, failed), w') /\
    successful + failed = fst counts + snd counts + List.length roots /\
    fst counts <= successful /\ snd counts <= failed /\
    forall r, In r roots -> has_id r -> attempted o r folder_id w'.
Proof.
  induction roots as [| r roots IH]; intros i [s f] w.
  - exists s, f, w. simpl. repeat split; try lia.
  - rewrite backup_roots_cons.
    pose proof (backup_page_attempted o r folder_id w) as Ha.
    destruct (backup_page o r folder_id w) as [[name | e] w'];
      cbn [fst snd] in *.
    + destruct (IH (S i) (S s, f) (printed (root_done i total name) w'))
        as [s' [f' [w'' [Heq [Hsum [Hs [Hf Hall]]]]]]].
      exists s', f', w''. cbn [fst snd List.length] in *.
      repeat split; try lia; [exact Heq |].
      intros r' [<- | Hin] Hid; [| now apply Hall].
      apply (attempted_extends _ _ _ w'); [| now apply Ha].
      eapply extends_trans; [apply extends_printed |].
      pose proof (monotone_backup_roots o total folder_id roots (S i)
                    (S s, f) (printed (root_done i total name) w')) as Hm.
      rewrite Heq in Hm. exact Hm.
    + destruct (IH (S i) (s, S f) (printed (root_failed i e) w'))
        as [s' [f' [w'' [Heq [Hsum [Hs [Hf Hall]]]]]]].
      exists s', f', w''. cbn [fst snd List.length] in *.
      repeat split; try lia; [exact Heq |].
      intros r' [<- | Hin] Hid; [| now apply Hall].
      apply (attempted_extends _ _ _ w'); [| now apply Ha].
      eapply extends_trans; [apply extends_printed |].
      pose proof (monotone_backup_roots o total folder_id roots (S i)
                    (s, S f) (printed (root_failed i e) w')) as Hm.
      rewrite Heq in Hm. exact Hm.
Qed.

Lemma print_all_lines (lines : list string) :
  forall w,
    print_all lines w =
    (Returns tt,
     World (files w) (requests w) (stdout w ++ lines)%list (folder_cache w)).
Proof.
  induction lines as [| line lines IH]; intros w; simpl.
  - unfold ret. rewrite app_nil_r. now destruct w.
  - unfold mbind, print. rewrite IH. simpl. now rewrite <- app_assoc.
Qed.

(** *** What a successful [get_all_pages] was given *)

Lemma add_pages_records_inv (pages : list json) :
  forall d d',
    add_pages pages d = Returns d' ->
    exists records, records_of pages = Returns records.
Proof.
  induction pages as [| page pages IH]; simpl; intros d d' H.
  - now exists [].
  - apply bind_returns in H as [d1 [H1 H]].
    rewrite add_page_record in H1.
    apply bind_returns in H1 as [r [Hr _]].
    destruct (IH _ _ H) as [rs Hrs]. exists (r :: rs).
    now rewrite Hr, Hrs.
Qed.

Lemma first_pass_drained_inv (script : list (outcome json)) :
  forall response d d',
    first_pass response script d = Returns d' ->
    exists pages, drained response script = Returns pages.
Proof.
  induction script as [| reply script IH]; intros response d d';
    rewrite drained_unfold, first_pass_unfold; intros H;
    apply bind_returns in H as [results [-> H]]; cbn [Py.bind];
    apply bind_returns in H as [ps [-> H]]; cbn [Py.bind];
    apply bind_returns in H as [d1 [_ H]];
    apply bind_returns in H as [has_more [-> H]]; cbn [Py.bind];
    destruct (truthy has_more); try (now exists ps);
    apply bind_returns in H as [cursor [-> H]]; cbn [Py.bind];
    try discriminate.
  apply bind_returns in H as [response' [-> H]]. cbn [Py.bind].
  destruct (IH _ _ _ H) as [more ->]. cbn [Py.bind].
  now exists (ps ++ more)%list.
Qed.

Lemma get_all_pages_inv (script : list (outcome json)) (forest : list info) :
  get_all_pages script = Returns forest ->
  exists pages records,
    fetched script = Returns pages /\ records_of pages = Returns records.
Proof.
  unfold get_all_pages, fetched. intros H.
  destruct script as [| [response | e] script]; try discriminate.
  simpl in *.
  destruct (first_pass response script []) as [d |] eqn:E;
    [| discriminate].
  destruct (first_pass_drained_inv _ _ _ _ E) as [pages Hp].
  rewrite (first_pass_drained _ _ _ _ Hp) in E.
  destruct (add_pages_records_inv _ _ _ E) as [records Hr].
  now exists pages, records.
Qed.

Lemma forest_has_ids (script : list (outcome json)) (forest : list info)
    (i : info) :
  get_all_pages script = Returns forest ->
  In i (flat_map nodes forest) ->
  exists page_id k,
    getitem (info_page i) "id" = Returns page_id /\ hash page_id = Returns k.
Proof.
  intros Hg Hi. destruct (get_all_pages_inv _ _ Hg) as [pages [records [Hf Hr]]].
  rewrite (get_all_pages_returned _ _ _ _ Hf Hr Hg) in Hi.
  destruct (built_node pages records i Hr Hi) as [k [Hid _]].
  unfold id_of in Hid. apply bind_returns in Hid as [page_id [H1 H2]].
  now exists page_id, k.
Qed.

Lemma In_nodes_root (forest : list info) (r : info) :
  In r forest -> In r (flat_map nodes forest).
Proof.
  intros H. apply in_flat_map. exists r. split; [exact H |].
  destruct r. now left.
Qed.

(** C9.  Whatever the oracle makes of the later requests (the content
    upload, the descendants), when [create_folder] succeeds for the node's
    own folder [backup_page] returns the folder name and the loop of
    [run_backup] counts that root as a success; when it raises, [backup_page]
    raises and the root is counted as a failure.  The counts follow the
    creation of the root folders and nothing else. *)
Theorem folder_creation_alone_counts_as_success (o : oracle)
    (page pid : json) (children : list info) (parent : string) (w : world)
    (page_id page_title : json) (k : key) :
  getitem page "id" = Returns page_id ->
  get_page_title page = Returns page_title ->
  hash page_id = Returns k ->
  let page_info := Info page children pid in
  let folder_name := folder_name_of o page_title w in
  match create_folder o folder_name parent w with
  | (Returns folder_id, w1) =>
      exists w',
        backup_page o page_info parent w = (Returns folder_name, w') /\
        forall total i rest successful failed,
          backup_roots o total parent i (page_info :: rest)
                       (successful, failed) w
          = backup_roots o total parent (S i) rest (S successful, failed)
              (printed (root_done i total folder_name) w')
  | (Raises e, w1) =>
      backup_page o page_info parent w
      = (Raises (backup_failed o page_title e), w1) /\
      forall total i rest successful failed,
        backup_roots o total parent i (page_info :: rest)
                     (successful, failed) w
        = backup_roots o total parent (S i) rest (successful, S failed)
            (printed (root_failed i (backup_failed o page_title e)) w1)
  end.
Proof.
  intros Hid Ht Hk page_info folder_name.
  pose proof (backup_page_cases o page pid children parent w) as Hb.
  rewrite Hid, Ht in Hb. cbv zeta in Hb. fold folder_name page_info in Hb.
  destruct (create_folder o folder_name parent w) as [[folder_id | e] w1].
  - rewrite Hk in Hb.
    exists (after_folder o page_id page_title k folder_id children w1).
    split; [exact Hb |]. intros. now rewrite backup_roots_cons, Hb.
  - split; [exact Hb |]. intros. now rewrite backup_roots_cons, Hb.
Qed.

Lemma matches_folder (id name parent : string) :
  matches name parent (folder id name parent) = true.
Proof.
  unfold matches, folder. simpl. now rewrite !String.eqb_refl.
Qed.

Lemma create_folder_quiet (o : oracle) (name parent : string) (w : world) :
  (forall n, fails o n = None) ->
  let n := List.length (requests w) in
  let w1 := sent (FilesList name parent) w in
  create_folder o name parent w =
  match filter (matches name parent) (files w) with
  | f :: _ => (Returns (file_id f), w1)
  | [] =>
      (Returns (new_id o (S n)),
       stored (folder (new_id o (S n)) name parent)
              (sent (FilesCreateFolder name parent) w1))
  end.
Proof.
  intros H. rewrite create_folder_cases. cbv zeta. rewrite !H. reflexivity.
Qed.

(** After [create_folder] returned, the folder it returned is the first
    match of its query, and stays so whatever is added later. *)
Lemma create_folder_found (o : oracle) (name parent : string)
    (w w1 : world) (id : string) :
  create_folder o name parent w = (Returns id, w1) ->
  exists f rest,
    filter (matches name parent) (files w1) = f :: rest /\ file_id f = id.
Proof.
  rewrite create_folder_cases. cbv zeta.
  destruct (fails o (List.length (requests w))); [discriminate |].
  destruct (filter (matches name parent) (files w)) as [| f rest] eqn:E.
  - destruct (fails o (S (List.length (requests w)))); [discriminate |].
    intros H. inversion H; subst. simpl.
    rewrite filter_app, E. simpl. rewrite matches_folder.
    now exists (folder (new_id o (S (List.length (requests w)))) name parent),
               [].
  - intros H. inversion H; subst. simpl. rewrite E. now exists f, rest.
Qed.

(** C8, as amended.  When no request fails, two calls of [create_folder]
    with one name and parent return the same identifier and the second adds
    no file; afterwards the matching folders are those that matched before,
    or the one new folder when none did.  [backup_page] names its folder by
    the title, ["_"] and the date, so a later run on the same date finds the
    folder of the first run and creates none for the node. *)
Theorem create_folder_idempotent (o : oracle) :
  (forall n, fails o n = None) ->
  (forall name parent w,
      exists id w1 w2,
        create_folder o name parent w = (Returns id, w1) /\
        create_folder o name parent w1 = (Returns id, w2) /\
        files w2 = files w1 /\
        filter (matches name parent) (files w2)
        = match filter (matches name parent) (files w) with
          | [] => [folder id name parent]
          | existing => existing
          end /\
        option_map file_id (hd_error (filter (matches name parent) (files w2)))
        = Some id) /\
  (forall page pid children parent w page_id page_title k,
      getitem page "id" = Returns page_id ->
      get_page_title page = Returns page_title ->
      hash page_id = Returns k ->
      exists folder_id w1,
        backup_page o (Info page children pid) parent w
        = (Returns (format o page_title ++ "_"
                    ++ strftime_date o (List.length (requests w))), w1) /\
        forall w',
          extends w1 w' ->
          strftime_date o (List.length (requests w'))
          = strftime_date o (List.length (requests w)) ->
          exists w'',
            create_folder o (folder_name_of o page_title w') parent w'
            = (Returns folder_id, w'') /\
            files w'' = files w' /\
            backup_page o (Info page children pid) parent w'
            = (Returns (folder_name_of o page_title w),
               after_folder o page_id page_title k folder_id children w'')).
Proof.
  intros Hquiet. split.
  - intros name parent w. rewrite (create_folder_quiet o name parent w Hquiet).
    cbv zeta.
    destruct (filter (matches name parent) (files w)) as [| f rest] eqn:E.
    + set (id := new_id o (S (List.length (requests w)))).
      set (w1 := stored (folder id name parent)
                        (sent (FilesCreateFolder name parent)
                              (sent (FilesList name parent) w))).
      assert (Hfil : filter (matches name parent) (files w1)
                     = [folder id name parent]).
      { unfold w1. simpl. rewrite filter_app, E. simpl.
        now rewrite matches_folder. }
      exists id, w1, (sent (FilesList name parent) w1).
      split; [reflexivity |].
      rewrite (create_folder_quiet _ _ _ _ Hquiet). cbv zeta.
      rewrite Hfil. cbn [files sent]. rewrite Hfil.
      repeat split; reflexivity.
    + exists (file_id f), (sent (FilesList name parent) w),
        (sent (FilesList name parent) (sent (FilesList name parent) w)).
      split; [reflexivity |].
      rewrite (create_folder_quiet _ _ _ _ Hquiet). cbv zeta.
      cbn [files sent]. rewrite E. repeat split; reflexivity.
  - intros page pid children parent w page_id page_title k Hid Ht Hk.
    pose proof (create_folder_quiet o (folder_name_of o page_title w) parent w
                  Hquiet) as Hc.
    cbv zeta in Hc.
    assert (Hret : exists folder_id wa,
               create_folder o (folder_name_of o page_title w) parent w
               = (Returns folder_id, wa)).
    { rewrite Hc. destruct (filter _ (files w)); eauto. }
    clear Hc. destruct Hret as [folder_id [wa Hc]].
    exists folder_id,
      (after_folder o page_id page_title k folder_id children wa).
    split.
    + rewrite backup_page_cases, Hid, Ht. cbv zeta. rewrite Hc, Hk.
      reflexivity.
    + intros w' Hext Hdate.
      assert (Hname : folder_name_of o page_title w'
                      = folder_name_of o page_title w).
      { unfold folder_name_of. now rewrite Hdate. }
      destruct (create_folder_found _ _ _ _ _ _ Hc) as [f [rest [Hf Hfid]]].
      assert (Hext' : extends wa w').
      { eapply extends_trans; [apply after_folder_extends | exact Hext]. }
      destruct Hext' as [[more Hfiles] _].
      exists (sent (FilesList (folder_name_of o page_title w) parent) w').
      assert (Hc' : create_folder o (folder_name_of o page_title w) parent w'
                    = (Returns folder_id,
                       sent (FilesList (folder_name_of o page_title w) parent)
                            w')).
      { rewrite (create_folder_quiet _ _ _ _ Hquiet). cbv zeta.
        rewrite Hfiles, filter_app, Hf. simpl. now rewrite Hfid. }
      rewrite Hname. split; [exact Hc' |]. split; [reflexivity |].
      rewrite backup_page_cases, Hid, Ht. cbv zeta.
      now rewrite Hname, Hc', Hk.
Qed.

(** *** The theorems at work on concrete runs *)

(** [get_page_title_never_raises] on a page with a title property and on
    the empty object. *)
Lemma get_page_title_never_raises_witness :
  (exists s, get_page_title page_A = Returns (JStr s)) /\
  get_page_title (JDict []) = Returns Untitled.
Proof.
  destruct (get_page_title_never_raises page_A) as [_ [H _]].
  destruct (get_page_title_never_raises (JDict [])) as [_ [_ H']].
  split.
  - apply (H (title_property_of "A")); [reflexivity | right; reflexivity].
  - apply H'. left. reflexivity.
Defined.

(** C3, on the scenario it describes.  From the records [page_A], [page_B]
    (child of [page_A]) and [page_C] (child of a page that was not fetched)
    the forest has the single root [page_A] with child [page_B], and the
    run creates one top-level folder, one first-level folder (for [page_A]),
    one second-level folder (for [page_B]) and two content files: nothing
    for [page_C]. *)
Theorem three_record_scenario :
  get_all_pages [Returns (search_reply [page_A; page_B; page_C])]
  = Returns [tree_A] /\
  fst scenario_run = Returns tt /\
  let drive := files (snd scenario_run) in
  let top := containers_in ["ROOT"] drive in
  let first := containers_in (ids top) drive in
  let second := containers_in (ids first) drive in
  map file_name top = ["Notion_Backup_20240101_120000"] /\
  map file_name first = ["A_20240101"] /\
  map file_name second = ["B_20240101"] /\
  map file_name (artifacts drive)
  = ["A_content_20240101_120000.json"; "B_content_20240101_120000.json"] /\
  List.length drive = 5.
Proof. vm_compute. repeat split; reflexivity. Qed.

(** [backup_page_failure_isolation] on a run where the upload for [page_A]
    and every later request fail. *)
Lemma backup_page_failure_isolation_witness :
  fst (backup_page (scenario (Nat.leb 3) []) tree_A "top"
                   (initial_world []))
  = Returns "A_20240101".
Proof.
  destruct (backup_page_failure_isolation
              (scenario (Nat.leb 3) []) page_A JNull
              [Info page_B [] (JStr "A")] "top" (initial_world [])
              (JStr "A") (JStr "A") eq_refl eq_refl) as [_ [H _]].
  destruct (H "file-1"
              (snd (create_folder (scenario (Nat.leb 3) [])
                                  "A_20240101" "top" (initial_world [])))
              (KStr "A") eq_refl eq_refl)
    as [w3 [w4 [_ [_ [_ [Hb _]]]]]].
  unfold tree_A. rewrite Hb. reflexivity.
Defined.

(** [folder_creation_alone_counts_as_success] on a run where every request
    after the creation of the folder of [page_A] fails. *)
Lemma folder_creation_alone_counts_as_success_witness :
  fst (backup_page (scenario (Nat.leb 2) []) tree_A "top"
                   (initial_world []))
  = Returns "A_20240101" /\
  fst (backup_roots (scenario (Nat.leb 2) []) 1 "top" 1 [tree_A]
                    (0, 0) (initial_world []))
  = Returns (1, 0).
Proof.
  pose proof (folder_creation_alone_counts_as_success
                (scenario (Nat.leb 2) []) page_A JNull
                [Info page_B [] (JStr "A")] "top" (initial_world [])
                (JStr "A") (JStr "A") (KStr "A")
                eq_refl eq_refl eq_refl) as H.
  cbv zeta in H.
  change (create_folder (scenario (Nat.leb 2) [])
            (folder_name_of (scenario (Nat.leb 2) []) (JStr "A")
                            (initial_world []))
            "top" (initial_world []))
    with (@Returns string "file-1",
          snd (create_folder (scenario (Nat.leb 2) []) "A_20240101" "top"
                             (initial_world []))) in H.
  destruct H as [w' [Hb Hr]]. unfold tree_A. split.
  - rewrite Hb. reflexivity.
  - rewrite Hr. reflexivity.
Defined.

(** [create_folder_idempotent] on an empty Drive. *)
Lemma create_folder_idempotent_witness :
  (exists id w1 w2,
      create_folder (quiet []) "X" "P" (initial_world []) = (Returns id, w1) /\
      create_folder (quiet []) "X" "P" w1 = (Returns id, w2) /\
      files w2 = files w1) /\
  exists folder_id w1 w2,
    backup_page (quiet []) tree_A "top" (initial_world [])
    = (Returns "A_20240101", w1) /\
    create_folder (quiet []) "A_20240101" "top" w1 = (Returns folder_id, w2) /\
    files w2 = files w1.
Proof.
  destruct (create_folder_idempotent (quiet []) (fun n => eq_refl))
    as [H1 H2].
  split.
  - destruct (H1 "X" "P" (initial_world [])) as [id [w1 [w2 [Ha [Hb [Hc _]]]]]].
    exists id, w1, w2. auto.
  - destruct (H2 page_A JNull [Info page_B [] (JStr "A")] "top"
                 (initial_world []) (JStr "A") (JStr "A") (KStr "A")
                 eq_refl eq_refl eq_refl)
      as [folder_id [w1 [Ha Hb]]].
    destruct (Hb w1 (extends_refl w1) eq_refl) as [w2 [Hc [Hd _]]].
    exists folder_id, w1, w2. auto.
Defined.

(** On a Drive with two folders ["X"] under ["P"], two calls of
    [create_folder] return the first of them and both remain. *)
Lemma create_folder_twins_counterexample :
  let w := initial_world twin_drive in
  let w1 := snd (create_folder (quiet []) "X" "P" w) in
  let w2 := snd (create_folder (quiet []) "X" "P" w1) in
  fst (create_folder (quiet []) "X" "P" w) = Returns "twin-1" /\
  fst (create_folder (quiet []) "X" "P" w1) = Returns "twin-1" /\
  List.length (filter (matches "X" "P") (files w2)) = 2 /\
  List.length (filter (matches "X" "P") (files w2)) <> 1.
Proof. vm_compute. repeat split; try reflexivity. discriminate. Qed.

(** ** Further properties *)

(** *** The shape of the forest *)

Lemma children_of_present (d : page_dict) (k c : key) :
  In c (children_of d k) -> In c (map fst d).
Proof.
  unfold children_of. intros H. apply in_map_iff in H as [item [<- H]].
  apply filter_In in H as [H _]. now apply in_map.
Qed.

(** Every node of the trees below keys of depth [depth] is the snapshot,
    with some fuel [j] left, of a page of the dictionary, [fuel - j] levels
    further down. *)
Lemma snapshot_nodes (d : page_dict) :
  NoDup (map fst d) -> fresh d ->
  forall fuel depth ks i,
    (forall k, In k ks -> at_depth d depth k = true) ->
    In i (flat_map nodes (map (snapshot fuel (relink d d))
                              (deref (relink d d) ks))) ->
    exists k n j,
      j <= fuel /\ dict_get k d = Some n /\
      at_depth d (depth + (fuel - j)) k = true /\
      i = snapshot j (relink d d) (linked d k n).
Proof.
  intros Hd Hf. induction fuel as [| fuel IH]; intros depth ks i Hks Hi;
    apply in_flat_map in Hi as [t [Ht Hi]];
    apply in_map_iff in Ht as [n' [<- Hn']];
    apply deref_In in Hn' as [k [Hk Hn']];
    rewrite relink_get in Hn';
    destruct (dict_get k d) as [n |] eqn:Ek; try discriminate;
    simpl in Hn'; inversion Hn'; subst n'; clear Hn';
    fold (linked d k n) in Hi |- *;
    rewrite snapshot_unfold in Hi; cbn [nodes] in Hi.
  - destruct Hi as [<- | []].
    exists k, n, 0. rewrite Nat.sub_0_r, Nat.add_0_r.
    repeat split; auto; try now rewrite snapshot_unfold.
  - destruct Hi as [<- | Hi].
    + exists k, n, (S fuel). rewrite Nat.sub_diag, Nat.add_0_r.
      repeat split; auto; try now rewrite snapshot_unfold.
    + apply (IH (S depth)) in Hi.
      * destruct Hi as [k' [m [j [Hj [Hk' [Hdepth ->]]]]]].
        exists k', m, j. repeat split; auto.
        replace (depth + (S fuel - j)) with (S depth + (fuel - j)) by lia.
        exact Hdepth.
      * intros c Hc. cbn [linked node_children] in Hc.
        pose proof (Hf (k, n) (dict_get_In _ _ _ Ek)) as Hfresh.
        simpl in Hfresh. rewrite Hfresh in Hc. simpl in Hc.
        apply (In_children_of d k c Hd) in Hc.
        rewrite at_depth_S, Hc. now apply Hks.
Qed.

Lemma built_nodes (pages : list json) (records : list (key * node))
    (i : info) :
  records_of pages = Returns records ->
  In i (flat_map nodes (built records)) ->
  exists k n j,
    dict_get k (store records) = Some n /\
    i = snapshot (S j) (relink (store records) (store records))
                 (linked (store records) k n).
Proof.
  intros Hr Hi. set (d := store records) in *.
  assert (Hd : NoDup (map fst d)) by apply store_NoDup.
  assert (Hf : fresh d) by now apply (store_fresh pages).
  unfold built, objects in Hi. fold d in Hi. rewrite relink_length in Hi.
  apply (snapshot_nodes d Hd Hf (List.length d) 0) in Hi.
  - destruct Hi as [k [n [j [Hj [Hk [Hdepth ->]]]]]].
    pose proof (at_depth_bound d _ _ Hdepth) as Hb. simpl in Hb.
    destruct j as [| j]; [lia |]. now exists k, n, j.
  - intros k Hk. now apply In_roots_of.
Qed.

Lemma deref_present (d : page_dict) (ks : list key) :
  incl ks (map fst d) ->
  map node_page (deref d ks) = flat_map (page_at d) ks.
Proof.
  intros _. induction ks as [| k ks IH]; [reflexivity |].
  rewrite deref_cons, map_app, IH. simpl. unfold page_at at 2.
  destruct (dict_get k d); reflexivity.
Qed.

Lemma snapshot_page (fuel : nat) (d : page_dict) (n : node) :
  info_page (snapshot fuel d n) = node_page n.
Proof. now rewrite snapshot_unfold. Qed.

Lemma snapshot_parent_id (fuel : nat) (d : page_dict) (n : node) :
  info_parent_id (snapshot fuel d n) = node_parent_id n.
Proof. now rewrite snapshot_unfold. Qed.

Lemma map_snapshot_pages (fuel : nat) (d : page_dict) (ns : list node) :
  map info_page (map (snapshot fuel d) ns) = map node_page ns.
Proof.
  rewrite map_map. apply map_ext. intros n. apply snapshot_page.
Qed.

(** The pages of the dictionary filed under keys a filter selects, read
    through the linked dictionary. *)
Lemma filter_pages (d : page_dict) (f : key * node -> bool) :
  NoDup (map fst d) ->
  map node_page (deref (relink d d) (map fst (filter f d)))
  = map (fun r => node_page (snd r)) (filter f d).
Proof.
  intros Hd. rewrite deref_present.
  - rewrite (flat_map_ext _ _ (page_at_relink d d)).
    apply (pages_at_keys d Hd). intros x Hx.
    now apply filter_In in Hx as [Hx _].
  - rewrite relink_keys. intros x Hx.
    apply in_map_iff in Hx as [item [<- Hx]].
    apply filter_In in Hx as [Hx _]. now apply in_map.
Qed.

(** X3.  The roots of the forest are the pages without parent in the order
    the dictionary holds them, which is the order they were first fetched
    in; and the children of every node are the pages that name it as
    parent, in that order too. *)
Theorem forest_keeps_fetch_order (script : list (outcome json))
    (pages : list json) (records : list (key * node)) (forest : list info) :
  fetched script = Returns pages ->
  records_of pages = Returns records ->
  get_all_pages script = Returns forest ->
  map info_page forest
  = map (fun r => node_page (snd r))
        (filter (fun r => is_root (snd r)) (store records)) /\
  forall i k,
    In i (flat_map nodes forest) ->
    id_of (info_page i) = Returns k ->
    map info_page (info_children i)
    = map (fun r => node_page (snd r))
          (filter (child_of k) (store records)).
Proof.
  intros Hf Hr Hg. rewrite (get_all_pages_returned _ _ _ _ Hf Hr Hg).
  set (d := store records).
  assert (Hd : NoDup (map fst d)) by apply store_NoDup.
  assert (Hfr : fresh d) by now apply (store_fresh pages).
  split.
  - unfold built, objects. fold d. rewrite map_snapshot_pages.
    apply (filter_pages d _ Hd).
  - intros i k Hi Hid.
    destruct (built_nodes pages records i Hr Hi) as [k' [n [j [Hk' ->]]]].
    fold d in Hk' |- *.
    assert (k' = k).
    { rewrite snapshot_page in Hid. cbn [linked node_page] in Hid.
      unfold d in Hk'. rewrite store_get in Hk'.
      apply find_last_In in Hk'.
      destruct (records_of_In _ _ _ Hr Hk') as [page [_ Hrec]].
      apply record_of_fields in Hrec as [Hid' [Hn _]].
      rewrite Hn in Hid. simpl in Hid. congruence. }
    subst k'. rewrite snapshot_unfold. cbn [info_children linked node_children].
    pose proof (Hfr (k, n) (dict_get_In _ _ _ Hk')) as Hnil.
    simpl in Hnil. rewrite Hnil. simpl app.
    rewrite map_snapshot_pages. apply (filter_pages d _ Hd).
Qed.

Lemma store_key (pages : list json) (records : list (key * node))
    (k : key) (n : node) :
  records_of pages = Returns records ->
  dict_get k (store records) = Some n ->
  id_of (node_page n) = Returns k /\ In (node_page n) pages /\
  parent_id_of (node_page n) = Returns (node_parent_id n).
Proof.
  intros Hr Hk. rewrite store_get in Hk. apply find_last_In in Hk.
  destruct (records_of_In _ _ _ Hr Hk) as [page [Hin Hrec]].
  apply record_of_fields in Hrec as [Hid [Hn Hp]].
  rewrite Hn. simpl. auto.
Qed.

Lemma walk_roots_In (d : page_dict) (x : key) :
  NoDup (map fst d) -> fresh d ->
  In x (walk (S (List.length d)) (relink d d) (roots_of d)) <->
  exists depth, at_depth d depth x = true.
Proof.
  intros Hd Hf. rewrite (count_occ_In key_eq_dec).
  rewrite count_walk_roots by auto. split.
  - destruct (existsb _ _) eqn:E; [| lia]. intros _.
    apply existsb_exists in E as [m [_ E]]. now exists m.
  - intros H. rewrite (rooted_depth d x H). lia.
Qed.

Lemma walk_roots_NoDup (d : page_dict) :
  NoDup (map fst d) -> fresh d ->
  NoDup (walk (S (List.length d)) (relink d d) (roots_of d)).
Proof.
  intros Hd Hf. apply (NoDup_count_occ key_eq_dec). intros x.
  rewrite count_walk_roots by auto. destruct (existsb _ _); lia.
Qed.

Lemma pages_at_NoDup (d : page_dict) (ks : list key) :
  (forall k n, dict_get k d = Some n -> id_of (node_page n) = Returns k) ->
  NoDup ks -> NoDup (flat_map (page_at d) ks).
Proof.
  intros Hkey. induction 1 as [| k ks Hk _ IH]; simpl; [constructor |].
  unfold page_at at 1. destruct (dict_get k d) as [n |] eqn:E; [| exact IH].
  simpl. constructor; [| exact IH]. intros Hin.
  apply in_flat_map in Hin as [y [Hy Hin]]. unfold page_at in Hin.
  destruct (dict_get y d) as [m |] eqn:Ey; [| destruct Hin].
  destruct Hin as [Hm | []].
  pose proof (Hkey _ _ E) as H1. pose proof (Hkey _ _ Ey) as H2.
  rewrite Hm in H2. congruence.
Qed.

(** X1.  A page is in the forest exactly when it is the last record fetched
    with its identifier and its chain of parent identifiers ends, among the
    fetched pages, at a page without parent.  Pages below a parent that was
    not fetched, and pages on or below a cycle, are in no tree. *)
Theorem forest_contents (script : list (outcome json)) (pages : list json)
    (records : list (key * node)) (forest : list info) (page : json) :
  fetched script = Returns pages ->
  records_of pages = Returns records ->
  get_all_pages script = Returns forest ->
  In page (forest_pages forest) <->
  exists k n depth,
    find_last k records = Some n /\ node_page n = page /\
    at_depth (store records) depth k = true.
Proof.
  intros Hf Hr Hg.
  rewrite (get_all_pages_returned _ _ _ _ Hf Hr Hg), built_pages.
  set (d := store records).
  assert (Hd : NoDup (map fst d)) by apply store_NoDup.
  assert (Hfr : fresh d) by now apply (store_fresh pages).
  rewrite in_flat_map. split.
  - intros [k [Hk Hin]]. apply (walk_roots_In d k Hd Hfr) in Hk as [depth Hk].
    rewrite page_at_relink in Hin. unfold page_at in Hin.
    destruct (dict_get k d) as [n |] eqn:E; [| destruct Hin].
    destruct Hin as [Hn | []]. exists k, n, depth.
    unfold d in E. rewrite store_get in E. auto.
  - intros [k [n [depth [Hk [Hn Hdepth]]]]]. exists k. split.
    + apply (walk_roots_In d k Hd Hfr). now exists depth.
    + rewrite page_at_relink. unfold page_at, d. rewrite store_get, Hk.
      now left.
Qed.

(** X2.  Whatever was fetched, the forest holds no page twice and no page
    that was not fetched, so it never has more nodes than pages were
    fetched. *)
Theorem forest_never_repeats (script : list (outcome json))
    (pages : list json) (forest : list info) :
  fetched script = Returns pages ->
  get_all_pages script = Returns forest ->
  NoDup (forest_pages forest) /\
  incl (forest_pages forest) pages /\
  forest_size forest <= List.length pages.
Proof.
  intros Hf Hg.
  destruct (get_all_pages_inv _ _ Hg) as [pages' [records [Hf' Hr]]].
  rewrite Hf in Hf'. inversion Hf'; subst pages'. clear Hf'.
  rewrite (get_all_pages_returned _ _ _ _ Hf Hr Hg).
  set (d := store records).
  assert (Hd : NoDup (map fst d)) by apply store_NoDup.
  assert (Hfr : fresh d) by now apply (store_fresh pages).
  assert (Hnd : NoDup (forest_pages (built records))).
  { rewrite built_pages. fold d. apply pages_at_NoDup.
    - intros k n Hk. rewrite relink_get in Hk.
      destruct (dict_get k d) as [m |] eqn:E; [| discriminate].
      simpl in Hk. inversion Hk. simpl.
      now apply (store_key pages records k m Hr).
    - now apply walk_roots_NoDup. }
  assert (Hincl : incl (forest_pages (built records)) pages).
  { intros p Hp. rewrite built_pages in Hp. fold d in Hp.
    apply in_flat_map in Hp as [k [_ Hp]].
    rewrite page_at_relink in Hp. unfold page_at in Hp.
    destruct (dict_get k d) as [n |] eqn:E; [| destruct Hp].
    destruct Hp as [<- | []]. now apply (store_key pages records k n Hr). }
  split; [exact Hnd |]. split; [exact Hincl |].
  rewrite forest_size_length. now apply NoDup_incl_length.
Qed.

(** X4.  In the forest every root has an absent or empty parent
    identifier, and every child carries a non-empty parent identifier that
    is the identifier of the node it hangs under. *)
Theorem forest_parent_links (script : list (outcome json))
    (forest : list info) :
  get_all_pages script = Returns forest ->
  (forall r, In r forest -> truthy (info_parent_id r) = false) /\
  (forall i c,
      In i (flat_map nodes forest) -> In c (info_children i) ->
      truthy (info_parent_id c) = true /\
      exists k,
        id_of (info_page i) = Returns k /\
        hash (info_parent_id c) = Returns k).
Proof.
  intros Hg.
  destruct (get_all_pages_inv _ _ Hg) as [pages [records [Hf Hr]]].
  rewrite (get_all_pages_returned _ _ _ _ Hf Hr Hg).
  set (d := store records).
  assert (Hd : NoDup (map fst d)) by apply store_NoDup.
  assert (Hfr : fresh d) by now apply (store_fresh pages).
  split.
  - intros r Hin. unfold built, objects in Hin. fold d in Hin.
    apply in_map_iff in Hin as [n' [<- Hn']].
    apply deref_In in Hn' as [k [Hk Hn']].
    rewrite snapshot_parent_id. rewrite relink_get in Hn'.
    destruct (dict_get k d) as [n |] eqn:E; [| discriminate].
    simpl in Hn'. inversion Hn'. simpl.
    apply (In_roots_of d k Hd) in Hk. simpl in Hk. rewrite E in Hk.
    unfold is_root in Hk. now destruct (truthy (node_parent_id n)).
  - intros i c Hi Hc.
    destruct (built_nodes pages records i Hr Hi) as [k [n [j [Hk ->]]]].
    fold d in Hk, Hc. rewrite snapshot_unfold in Hc.
    cbn [info_children linked node_children] in Hc.
    pose proof (Hfr (k, n) (dict_get_In _ _ _ Hk)) as Hnil.
    simpl in Hnil. rewrite Hnil in Hc. simpl app in Hc.
    apply in_map_iff in Hc as [m' [<- Hm']].
    apply deref_In in Hm' as [ck [Hck Hm']].
    apply (In_children_of d k ck Hd) in Hck.
    rewrite relink_get in Hm'. unfold parent_of in Hck.
    destruct (dict_get ck d) as [m |] eqn:E; [| discriminate].
    simpl in Hm'. inversion Hm'. rewrite snapshot_parent_id. simpl.
    unfold parent_ref in Hck.
    destruct (truthy (node_parent_id m)); [| discriminate].
    split; [reflexivity |]. exists k. split.
    + simpl. now apply (store_key pages records k n Hr).
    + destruct (hash (node_parent_id m)); congruence.
Qed.

(** *** Pagination *)

Lemma get_all_pages_of_pages (script : list (outcome json))
    (pages : list json) :
  fetched script = Returns pages ->
  get_all_pages script =
  try_except
    (d <- add_pages pages [] ;;
     linked <- second_pass d ;;
     Returns (objects (fst linked) (snd linked)))
    (fun e => Raises (fetch_failed e)).
Proof.
  intros Hf. unfold get_all_pages, fetched in *.
  destruct script as [| [response | e] script]; try discriminate.
  simpl in *. now rewrite (first_pass_drained _ _ _ _ Hf).
Qed.

Lemma drained_last (last : list json) (rest : list (outcome json)) :
  drained (search_reply last) rest = Returns last.
Proof. rewrite drained_unfold. reflexivity. Qed.

Lemma drained_more (ps : list json) (cursor : string) (response : json)
    (script : list (outcome json)) :
  drained (search_reply_more ps cursor) (Returns response :: script)
  = (more <- drained response script ;; Returns (ps ++ more)%list).
Proof. rewrite drained_unfold. reflexivity. Qed.

Lemma drained_paged (chunks : list (list json)) (last : list json)
    (rest : list (outcome json)) :
  forall ps,
    drained (search_reply_more ps "next") (paged chunks last ++ rest)
    = Returns (ps ++ List.concat chunks ++ last)%list.
Proof.
  induction chunks as [| ps' chunks IH]; intros ps.
  - unfold paged. cbn [map app List.concat].
    now rewrite drained_more, drained_last.
  - unfold paged in *. cbn [map app List.concat].
    rewrite drained_more, IH. cbn [Py.bind]. now rewrite <- app_assoc.
Qed.

Lemma fetched_paged (chunks : list (list json)) (last : list json)
    (rest : list (outcome json)) :
  fetched (paged chunks last ++ rest)
  = Returns (List.concat chunks ++ last)%list.
Proof.
  destruct chunks as [| ps chunks].
  - unfold fetched, paged. cbn [map app List.concat Py.bind].
    apply drained_last.
  - unfold fetched. unfold paged at 1. cbn [map app List.concat Py.bind].
    fold (paged chunks last). rewrite drained_paged.
    now rewrite <- app_assoc.
Qed.

(** X5.  A search answered in several replies builds the forest of the one
    reply that holds all their pages in order; replies that follow one
    without [has_more] are not asked for. *)
Theorem paging_is_transparent (chunks : list (list json)) (last : list json)
    (rest : list (outcome json)) :
  get_all_pages (paged chunks last ++ rest)
  = get_all_pages [Returns (search_reply (List.concat chunks ++ last))].
Proof.
  rewrite (get_all_pages_of_pages _ _ (fetched_paged chunks last rest)).
  symmetry. apply get_all_pages_of_pages. reflexivity.
Qed.

(** *** Malformed pages *)

Lemma add_pages_raises (pages : list json) (page : json) :
  In page pages ->
  (exists e, record_of page = Raises e) ->
  forall d, exists e, add_pages pages d = Raises e.
Proof.
  intros Hin [e0 He0]. induction pages as [| p pages IH]; [destruct Hin |].
  intros d. simpl. rewrite add_page_record.
  destruct Hin as [-> | Hin].
  - rewrite He0. simpl. now exists e0.
  - destruct (record_of p) as [r |]; simpl; [| eauto].
    apply (IH Hin).
Qed.

(** X6.  One fetched page without ["id"], or whose ["parent"] is not an
    object, makes [get_all_pages] raise for the whole fetch, with the
    message that starts ["Failed to fetch Notion pages: "]. *)
Theorem malformed_page_aborts_fetch (script : list (outcome json))
    (pages : list json) (page : json) :
  fetched script = Returns pages ->
  In page pages ->
  (exists e, getitem page "id" = Raises e) \/
  (exists e, parent_id_of page = Raises e) ->
  exists e, get_all_pages script = Raises (fetch_failed e).
Proof.
  intros Hf Hin Hbad.
  assert (Hrec : exists e, record_of page = Raises e).
  { unfold record_of, id_of. destruct Hbad as [[e He] | [e He]].
    - rewrite He. destruct (parent_id_of page); simpl; eauto.
    - rewrite He. simpl. eauto. }
  destruct (add_pages_raises pages page Hin Hrec []) as [e He].
  exists e. rewrite (get_all_pages_of_pages _ _ Hf), He. reflexivity.
Qed.

(** *** The title is the first rich-text item *)

(** X7.  The title is the ["content"] of the first rich-text item, as it
    is and whatever its type; the items after the first are not read. *)
Theorem get_page_title_reads_first_item (page title_info : json)
    (fields text : list (string * json)) (rest : list json) (content : json) :
  title_field page = Some title_info ->
  title_info = JList (JDict fields :: rest) \/
  (exists property,
      title_info = JDict property /\
      lookup "title" property = Some (JList (JDict fields :: rest))) ->
  lookup "text" fields = Some (JDict text) ->
  lookup "content" text = Some content ->
  get_page_title page = Returns content.
Proof.
  intros Hf Hshape Htext Hcontent. rewrite (get_page_title_field _ _ Hf).
  destruct Hshape as [-> | [property [-> Htitle]]]; simpl.
  - now rewrite Htext; simpl; rewrite Hcontent.
  - rewrite Htitle. simpl. now rewrite Htext; simpl; rewrite Hcontent.
Qed.

(** *** What [create_folder] does to the Drive *)

(** X8.  When [create_folder] returns, the identifier is that of a folder
    of the Drive that its query selects; the Drive is unchanged and the
    identifier is the first match when there was one, and has one more
    file, the new folder, when there was none.  Nothing is printed. *)
Theorem create_folder_result (o : oracle) (name parent : string)
    (w w' : world) (id : string) :
  create_folder o name parent w = (Returns id, w') ->
  (exists f, In f (files w') /\ file_id f = id /\
             matches name parent f = true) /\
  match filter (matches name parent) (files w) with
  | [] => files w' = (files w ++ [folder id name parent])%list
  | f :: _ => files w' = files w /\ file_id f = id
  end /\
  stdout w' = stdout w /\ folder_cache w' = folder_cache w.
Proof.
  intros H. split.
  - destruct (create_folder_found _ _ _ _ _ _ H) as [f [rest [Hf Hid]]].
    exists f. assert (Hin : In f (filter (matches name parent) (files w')))
      by (rewrite Hf; now left).
    apply filter_In in Hin as [Hin Hm]. auto.
  - rewrite create_folder_cases in H. cbv zeta in H.
    destruct (fails o (List.length (requests w))); [discriminate |].
    destruct (filter (matches name parent) (files w)) as [| f rest].
    + destruct (fails o (S (List.length (requests w)))); [discriminate |].
      inversion H; subst. simpl. auto.
    + inversion H; subst. simpl. auto.
Qed.

(** X9.  When [create_folder] raises, the Drive holds the files it held,
    the exception carries the message of the request that failed, and a
    failed lookup is not followed by a creation. *)
Theorem create_folder_failure (o : oracle) (name parent : string)
    (w w' : world) (e : exn) :
  create_folder o name parent w = (Raises e, w') ->
  files w' = files w /\
  (exists msg,
      e = create_folder_failed name msg /\
      (fails o (List.length (requests w)) = Some msg \/
       fails o (S (List.length (requests w))) = Some msg)) /\
  (fails o (List.length (requests w)) <> None ->
   requests w' = (requests w ++ [FilesList name parent])%list).
Proof.
  intros H. rewrite create_folder_cases in H. cbv zeta in H.
  destruct (fails o (List.length (requests w))) as [msg |] eqn:E1.
  - inversion H; subst. simpl. repeat split; eauto.
  - destruct (filter (matches name parent) (files w)); [| discriminate].
    destruct (fails o (S (List.length (requests w)))) as [msg |] eqn:E2;
      [| discriminate].
    inversion H; subst. simpl. repeat split; eauto. congruence.
Qed.

(** *** A node that fails leaves nothing behind *)

(** X10.  When [backup_page] raises for a page with a hashable ['id'], it
    was its folder that could not be made: the Drive, the output and the
    folder cache are as before, and at most two requests were sent. *)
Theorem backup_page_failure_leaves_drive (o : oracle) (page pid : json)
    (children : list info) (parent : string) (w w' : world)
    (page_id page_title : json) (k : key) (e : exn) :
  getitem page "id" = Returns page_id ->
  hash page_id = Returns k ->
  get_page_title page = Returns page_title ->
  backup_page o (Info page children pid) parent w = (Raises e, w') ->
  files w' = files w /\ stdout w' = stdout w /\
  folder_cache w' = folder_cache w /\
  List.length (requests w') <= List.length (requests w) + 2 /\
  exists msg,
    e = backup_failed o page_title
          (create_folder_failed (folder_name_of o page_title w) msg).
Proof.
  intros Hid Hk Ht H. rewrite backup_page_cases, Hid, Ht in H.
  cbv zeta in H. rewrite create_folder_cases in H. cbv zeta in H.
  destruct (fails o (List.length (requests w))) as [msg |].
  - inversion H; subst. simpl. rewrite length_app. simpl.
    repeat split; eauto; lia.
  - destruct (filter _ (files w)).
    + destruct (fails o (S (List.length (requests w)))) as [msg |].
      * inversion H; subst. simpl. rewrite !length_app. simpl.
        repeat split; eauto; lia.
      * rewrite Hk in H. discriminate.
    + rewrite Hk in H. discriminate.
Qed.

(** *** Bounds on the requests and the files *)

Lemma grown_refl (w : world) : grown 0 0 w w.
Proof. unfold grown. lia. Qed.

Lemma grown_trans (a b a' b' : nat) (w1 w2 w3 : world) :
  grown a b w1 w2 -> grown a' b' w2 w3 -> grown (a + a') (b + b') w1 w3.
Proof. unfold grown. lia. Qed.

Lemma grown_weaken (a b a' b' : nat) (w w' : world) :
  grown a b w w' -> a <= a' -> b <= b' -> grown a' b' w w'.
Proof. unfold grown. lia. Qed.

Lemma grown_printed (line : string) (w : world) :
  grown 0 0 w (printed line w).
Proof. unfold grown. simpl. lia. Qed.

Lemma grown_create_folder (o : oracle) (name parent : string) (w : world) :
  grown 2 1 w (snd (create_folder o name parent w)).
Proof.
  rewrite create_folder_cases. cbv zeta. unfold grown.
  destruct (fails o (List.length (requests w))); simpl.
  - rewrite length_app. simpl. lia.
  - destruct (filter _ (files w)); simpl.
    + destruct (fails o (S (List.length (requests w)))); simpl;
        rewrite !length_app; simpl; lia.
    + rewrite length_app. simpl. lia.
Qed.

Lemma grown_backup_content (o : oracle) (page_id page_title : json)
    (folder_id : string) (w : world) :
  grown 2 1 w (snd (backup_content o page_id page_title folder_id w)).
Proof.
  rewrite backup_content_cases. cbv zeta. unfold grown.
  destruct (fails o (List.length (requests w))); simpl.
  - rewrite length_app. simpl. lia.
  - destruct (fails o (S (List.length (requests w)))); simpl;
      rewrite !length_app; simpl; lia.
Qed.

Lemma grown_backup_children (o : oracle) (folder_id : string)
    (children : list info) :
  Forall (fun c => forall parent w,
              grown (4 * count_nodes c) (2 * count_nodes c) w
                    (snd (backup_page o c parent w)))
         children ->
  forall w,
    grown (4 * list_sum (map count_nodes children))
          (2 * list_sum (map count_nodes children))
          w (snd (backup_children o folder_id children w)).
Proof.
  induction 1 as [| c cs Hc _ IH]; intros w.
  - apply grown_refl.
  - rewrite backup_children_cons. specialize (Hc folder_id w).
    change (list_sum (map count_nodes (c :: cs)))
      with (count_nodes c + list_sum (map count_nodes cs)).
    destruct (backup_page o c folder_id w) as [[name | e] w']; simpl in Hc.
    + eapply grown_weaken; [exact (grown_trans _ _ _ _ _ _ _ Hc (IH w')) | |];
        lia.
    + pose proof (grown_trans _ _ _ _ _ _ _ Hc
                    (grown_trans _ _ _ _ _ _ _
                       (grown_printed (child_failed e) w')
                       (IH (printed (child_failed e) w')))) as Hg.
      eapply grown_weaken; [exact Hg | |]; lia.
Qed.

Lemma grown_backup_page (o : oracle) (page_info : info) :
  forall parent w,
    grown (4 * count_nodes page_info) (2 * count_nodes page_info) w
          (snd (backup_page o page_info parent w)).
Proof.
  induction page_info as [page children pid IH] using info_induction.
  intros parent w. rewrite backup_page_cases. cbn [count_nodes].
  destruct (getitem page "id") as [page_id |];
    [| eapply grown_weaken; [apply grown_refl | |]; lia].
  destruct (get_page_title page) as [page_title |];
    [| eapply grown_weaken; [apply grown_refl | |]; lia].
  cbv zeta.
  pose proof (grown_create_folder o (folder_name_of o page_title w) parent w)
    as Hc.
  destruct (create_folder o (folder_name_of o page_title w) parent w)
    as [[folder_id | e] w1]; cbn [snd] in *;
    [| eapply grown_weaken; [exact Hc | |]; lia].
  destruct (hash page_id) as [k |]; cbn [snd];
    [| eapply grown_weaken; [exact Hc | |]; lia].
  unfold after_folder.
  set (w2 := snd (set_folder_cache k folder_id w1)).
  assert (H2 : grown 0 0 w1 w2) by (unfold grown, w2; simpl; lia).
  pose proof (grown_backup_content o page_id page_title folder_id w2) as H3.
  pose proof (grown_backup_children o folder_id children IH
                (snd (backup_content o page_id page_title folder_id w2)))
    as H4.
  pose proof (grown_trans _ _ _ _ _ _ _ Hc
                (grown_trans _ _ _ _ _ _ _ H2
                   (grown_trans _ _ _ _ _ _ _ H3 H4))) as Hg.
  eapply grown_weaken; [exact Hg | |]; lia.
Qed.

(** X11.  [backup_page] sends at most four requests and adds at most two
    files for each page of the tree, whatever fails. *)
Theorem backup_page_bounds (o : oracle) (page_info : info) (parent : string)
    (w : world) :
  let w' := snd (backup_page o page_info parent w) in
  List.length (requests w')
  <= List.length (requests w) + 4 * count_nodes page_info /\
  List.length (files w')
  <= List.length (files w) + 2 * count_nodes page_info.
Proof. apply grown_backup_page. Qed.

(** *** One content file per page *)

Lemma uploads_set_folder_cache (k : key) (v : string) (w : world) :
  uploads (snd (set_folder_cache k v w)) = uploads w /\
  folders (snd (set_folder_cache k v w)) = folders w.
Proof. split; reflexivity. Qed.

Lemma uploads_printed (line : string) (w : world) :
  uploads (printed line w) = uploads w /\
  folders (printed line w) = folders w.
Proof. split; reflexivity. Qed.

Lemma uploads_create_folder (o : oracle) (name parent : string) (w : world) :
  (forall n, fails o n = None) ->
  exists id w',
    create_folder o name parent w = (Returns id, w') /\
    uploads w' = uploads w /\ folders w' <= folders w + 1.
Proof.
  intros Hq. rewrite (create_folder_quiet o name parent w Hq). cbv zeta.
  destruct (filter (matches name parent) (files w)).
  - eexists _, _. split; [reflexivity |]. unfold uploads, folders, artifacts.
    simpl. rewrite !filter_app, !length_app. simpl. lia.
  - eexists _, _. split; [reflexivity |]. unfold uploads, folders. simpl. lia.
Qed.

Lemma uploads_backup_content (o : oracle) (page_id page_title : json)
    (folder_id : string) (w : world) :
  (forall n, fails o n = None) ->
  uploads (snd (backup_content o page_id page_title folder_id w))
  = uploads w + 1 /\
  folders (snd (backup_content o page_id page_title folder_id w))
  = folders w.
Proof.
  intros Hq. rewrite backup_content_cases. cbv zeta. rewrite !Hq.
  unfold uploads, folders, artifacts. simpl.
  rewrite !filter_app, !length_app. simpl. lia.
Qed.

Lemma uploads_backup_children (o : oracle) (folder_id : string)
    (children : list info) :
  Forall (fun c => forall parent w,
              exists name w',
                backup_page o c parent w = (Returns name, w') /\
                uploads w' = uploads w + count_nodes c /\
                folders w' <= folders w + count_nodes c)
         children ->
  forall w,
    uploads (snd (backup_children o folder_id children w))
    = uploads w + list_sum (map count_nodes children) /\
    folders (snd (backup_children o folder_id children w))
    <= folders w + list_sum (map count_nodes children).
Proof.
  induction 1 as [| c cs Hc _ IH]; intros w.
  - simpl. lia.
  - rewrite backup_children_cons.
    destruct (Hc folder_id w) as [name [w' [Hb [Hu Hf]]]]. rewrite Hb.
    destruct (IH w') as [Hu' Hf'].
    change (list_sum (map count_nodes (c :: cs)))
      with (count_nodes c + list_sum (map count_nodes cs)).
    lia.
Qed.

Lemma identified_children (page pid : json) (children : list info) :
  identified (Info page children pid) = true ->
  (exists k, id_of page = Returns k) /\
  Forall (fun c => identified c = true) children.
Proof.
  simpl. intros H. apply andb_true_iff in H as [H1 H2]. split.
  - destruct (id_of page); [eauto | discriminate].
  - apply Forall_forall. now apply forallb_forall.
Qed.

Lemma uploads_backup_page (o : oracle) (page_info : info) :
  (forall n, fails o n = None) ->
  identified page_info = true ->
  forall parent w,
  exists name w',
    backup_page o page_info parent w = (Returns name, w') /\
    uploads w' = uploads w + count_nodes page_info /\
    folders w' <= folders w + count_nodes page_info.
Proof.
  intros Hq.
  induction page_info as [page children pid IH] using info_induction.
  intros Hid parent w.
  apply identified_children in Hid as [[k Hk] Hcs].
  unfold id_of in Hk. apply bind_returns in Hk as [page_id [Hpid Hk]].
  destruct (get_page_title_returns page) as [page_title Ht].
  rewrite backup_page_cases, Hpid, Ht. cbv zeta.
  destruct (uploads_create_folder o (folder_name_of o page_title w) parent w
              Hq) as [folder_id [w1 [Hc [Hu1 Hf1]]]].
  rewrite Hc, Hk. eexists _, _. split; [reflexivity |].
  unfold after_folder.
  set (w2 := snd (set_folder_cache k folder_id w1)).
  destruct (uploads_set_folder_cache k folder_id w1) as [Hu2 Hf2].
  fold w2 in Hu2, Hf2.
  destruct (uploads_backup_content o page_id page_title folder_id w2 Hq)
    as [Hu3 Hf3].
  assert (Hall : Forall (fun c => forall parent w,
              exists name w',
                backup_page o c parent w = (Returns name, w') /\
                uploads w' = uploads w + count_nodes c /\
                folders w' <= folders w + count_nodes c) children).
  { apply Forall_forall. intros c Hc'.
    rewrite Forall_forall in IH, Hcs. now apply IH; [| apply Hcs]. }
  destruct (uploads_backup_children o folder_id children Hall
              (snd (backup_content o page_id page_title folder_id w2)))
    as [Hu4 Hf4].
  cbn [count_nodes]. lia.
Qed.

(** X12.  When no request fails, on a tree of at most [max_height] levels
    (so that the nested calls stay within what the interpreter allows)
    [backup_page] returns and leaves exactly one more content file on the
    Drive for each page of the tree, and at most one more folder for
    each. *)
Theorem backup_page_uploads_every_page (o : oracle) (page_info : info)
    (parent : string) (w : world) :
  (forall n, fails o n = None) ->
  identified page_info = true ->
  shallow page_info = true ->
  exists name w',
    backup_page o page_info parent w = (Returns name, w') /\
    uploads w' = uploads w + count_nodes page_info /\
    folders w' <= folders w + count_nodes page_info.
Proof. intros Hq Hid _. now apply uploads_backup_page. Qed.

(** *** Pages of one title share a folder *)

(** X13.  Two pages of one title backed up under one parent on one date
    get the same folder: the second finds the folder of the first and
    creates none. *)
Theorem same_title_pages_share_folder (o : oracle) (page1 page2 : json)
    (pid1 pid2 : json) (children1 children2 : list info) (parent : string)
    (w : world) (id1 id2 title : json) (k1 k2 : key) :
  (forall n, fails o n = None) ->
  getitem page1 "id" = Returns id1 -> hash id1 = Returns k1 ->
  getitem page2 "id" = Returns id2 -> hash id2 = Returns k2 ->
  get_page_title page1 = Returns title ->
  get_page_title page2 = Returns title ->
  exists folder_id w1,
    backup_page o (Info page1 children1 pid1) parent w
    = (Returns (folder_name_of o title w),
       after_folder o id1 title k1 folder_id children1 w1) /\
    forall w',
      extends (after_folder o id1 title k1 folder_id children1 w1) w' ->
      strftime_date o (List.length (requests w'))
      = strftime_date o (List.length (requests w)) ->
      exists w2,
        files w2 = files w' /\
        backup_page o (Info page2 children2 pid2) parent w'
        = (Returns (folder_name_of o title w),
           after_folder o id2 title k2 folder_id children2 w2).
Proof.
  intros Hq Hid1 Hk1 Hid2 Hk2 Ht1 Ht2.
  destruct (uploads_create_folder o (folder_name_of o title w) parent w Hq)
    as [folder_id [w1 [Hc _]]].
  exists folder_id, w1. split.
  - rewrite backup_page_cases, Hid1, Ht1. cbv zeta. now rewrite Hc, Hk1.
  - intros w' Hext Hdate.
    assert (Hname : folder_name_of o title w' = folder_name_of o title w).
    { unfold folder_name_of. now rewrite Hdate. }
    destruct (create_folder_found _ _ _ _ _ _ Hc) as [f [rest [Hf Hfid]]].
    assert (Hext' : extends w1 w').
    { eapply extends_trans; [apply after_folder_extends | exact Hext]. }
    destruct Hext' as [[more Hfiles] _].
    exists (sent (FilesList (folder_name_of o title w) parent) w').
    split; [reflexivity |].
    rewrite backup_page_cases, Hid2, Ht2. cbv zeta. rewrite Hname.
    rewrite (create_folder_quiet _ _ _ _ Hq). cbv zeta.
    rewrite Hfiles, filter_app, Hf. simpl. now rewrite Hfid, Hk2.
Qed.

(** *** [run_backup], case by case *)

Lemma run_backup_cases (o : oracle) (root_folder_id : string) (w : world) :
  run_backup o root_folder_id w =
  match get_all_pages (search o) with
  | Raises e => (Returns tt, printed (run_failed e) (started w))
  | Returns forest =>
      let total := List.length forest in
      let name := backup_folder_name_of o w in
      match create_folder o name root_folder_id (found total w) with
      | (Raises e, w2) => (Returns tt, printed (run_failed e) w2)
      | (Returns backup_folder_id, w2) =>
          match backup_roots o total backup_folder_id 1 forest (0, 0) w2 with
          | (Raises e, w3) => (Returns tt, printed (run_failed e) w3)
          | (Returns counts, w3) =>
              (Returns tt,
               World (files w3) (requests w3)
                     (stdout w3 ++ summary counts name) (folder_cache w3))
          end
      end
  end.
Proof.
  unfold run_backup, try_. unfold mbind at 1, print at 1.
  unfold mbind at 1, lift at 1.
  destruct (get_all_pages (search o)) as [forest | e]; [| reflexivity].
  unfold mbind at 1, print at 1.
  unfold mbind at 1, now_datetime at 1. cbn [requests].
  unfold mbind at 1. cbv zeta. fold (backup_folder_name_of o w).
  change (World (files w) (requests w)
                (stdout w ++ ["Starting Notion backup..."])%list
                (folder_cache w))
    with (started w).
  match goal with
  | |- context [create_folder o _ root_folder_id ?x] =>
      change x with (found (List.length forest) w)
  end.
  destruct (create_folder o (backup_folder_name_of o w) root_folder_id
              (found (List.length forest) w)) as [[fid | e] w2];
    [| reflexivity].
  unfold mbind at 1.
  destruct (backup_roots o (List.length forest) fid 1 forest (0, 0) w2)
    as [[counts | e] w3]; [| reflexivity].
  now rewrite print_all_lines.
Qed.

Lemma run_backup_returns_extends (o : oracle) (root_folder_id : string)
    (w : world) :
  fst (run_backup o root_folder_id w) = Returns tt /\
  extends w (snd (run_backup o root_folder_id w)).
Proof.
  rewrite run_backup_cases.
  assert (Hs : extends w (started w)) by apply extends_printed.
  destruct (get_all_pages (search o)) as [forest | e].
  - cbv zeta.
    assert (Hf : extends w (found (List.length forest) w)).
    { eapply extends_trans; [exact Hs | apply extends_printed]. }
    pose proof (monotone_create_folder o (backup_folder_name_of o w)
                  root_folder_id (found (List.length forest) w)) as Hc.
    destruct (create_folder o _ root_folder_id _) as [[fid | e] w2];
      cbn [snd] in Hc.
    + pose proof (monotone_backup_roots o (List.length forest) fid forest 1
                    (0, 0) w2) as Hr.
      destruct (backup_roots o _ fid 1 forest (0, 0) w2)
        as [[counts | e] w3]; cbn [snd fst] in *; split; try reflexivity.
      * eapply extends_trans; [exact Hf |].
        eapply extends_trans; [exact Hc |].
        eapply extends_trans; [exact Hr |].
        repeat split; simpl; try (exists []; now rewrite app_nil_r).
        now eexists.
      * eapply extends_trans; [exact Hf |].
        eapply extends_trans; [exact Hc |].
        eapply extends_trans; [exact Hr | apply extends_printed].
    + cbn [fst snd]. split; [reflexivity |].
      eapply extends_trans; [exact Hf |].
      eapply extends_trans; [exact Hc | apply extends_printed].
  - cbn [fst snd]. split; [reflexivity |].
    eapply extends_trans; [exact Hs | apply extends_printed].
Qed.

Lemma run_backup_returns (o : oracle) (root_folder_id : string)
    (w : world) :
  fst (run_backup o root_folder_id w) = Returns tt.
Proof. apply run_backup_returns_extends. Qed.

(** X14.  [run_backup] never raises, and it only adds to the Drive, to the
    requests and to the output. *)
Theorem run_backup_never_raises (o : oracle) (root_folder_id : string)
    (w : world) :
  fst (run_backup o root_folder_id w) = Returns tt /\
  extends w (snd (run_backup o root_folder_id w)).
Proof. apply run_backup_returns_extends. Qed.

(** X15.  When the fetch fails, [run_backup] sends no request to the Drive
    and prints ["Backup failed: ..."]; when the top-level folder cannot be
    made it prints that line too, the Drive is as before, and no root is
    tried. *)
Theorem run_backup_failed_start (o : oracle) (root_folder_id : string)
    (w : world) :
  (forall e,
      get_all_pages (search o) = Raises e ->
      run_backup o root_folder_id w
      = (Returns tt, printed (run_failed e) (started w))) /\
  (forall forest e w2,
      get_all_pages (search o) = Returns forest ->
      create_folder o (backup_folder_name_of o w) root_folder_id
                    (found (List.length forest) w)
      = (Raises e, w2) ->
      run_backup o root_folder_id w = (Returns tt, printed (run_failed e) w2) /\
      files w2 = files w /\
      stdout w2 = stdout (found (List.length forest) w) /\
      List.length (requests w2) <= List.length (requests w) + 2).
Proof.
  split.
  - intros e He. now rewrite run_backup_cases, He.
  - intros forest e w2 Hg Hc. split.
    + rewrite run_backup_cases, Hg. cbv zeta. now rewrite Hc.
    + rewrite create_folder_cases in Hc. cbv zeta in Hc.
      destruct (fails o _); [inversion Hc; subst; simpl |].
      * rewrite length_app. simpl. repeat split; lia.
      * destruct (filter _ _); [| discriminate].
        destruct (fails o _); [| discriminate].
        inversion Hc; subst; simpl. rewrite !length_app. simpl.
        repeat split; lia.
Qed.

(** *** Bounds for a whole run *)

Lemma grown_backup_roots (o : oracle) (total : nat) (folder_id : string)
    (roots : list info) :
  forall i counts w,
    grown (4 * forest_size roots) (2 * forest_size roots) w
          (snd (backup_roots o total folder_id i roots counts w)).
Proof.
  unfold forest_size.
  induction roots as [| r roots IH]; intros i counts w.
  - apply grown_refl.
  - rewrite backup_roots_cons.
    pose proof (grown_backup_page o r folder_id w) as Hr.
    change (list_sum (map count_nodes (r :: roots)))
      with (count_nodes r + list_sum (map count_nodes roots)).
    destruct (backup_page o r folder_id w) as [[name | e] w'];
      cbn [snd] in Hr.
    + pose proof (grown_trans _ _ _ _ _ _ _ Hr
                    (grown_trans _ _ _ _ _ _ _
                       (grown_printed (root_done i total name) w')
                       (IH (S i) (S (fst counts), snd counts)
                           (printed (root_done i total name) w')))) as Hg.
      eapply grown_weaken; [exact Hg | |]; lia.
    + pose proof (grown_trans _ _ _ _ _ _ _ Hr
                    (grown_trans _ _ _ _ _ _ _
                       (grown_printed (root_failed i e) w')
                       (IH (S i) (fst counts, S (snd counts))
                           (printed (root_failed i e) w')))) as Hg.
      eapply grown_weaken; [exact Hg | |]; lia.
Qed.

(** X16.  A run sends at most two requests and four for each page of the
    forest, and adds at most one file and two for each page. *)
Theorem run_backup_bounds (o : oracle) (root_folder_id : string)
    (w : world) (forest : list info) :
  get_all_pages (search o) = Returns forest ->
  let w' := snd (run_backup o root_folder_id w) in
  List.length (requests w')
  <= List.length (requests w) + 2 + 4 * forest_size forest /\
  List.length (files w')
  <= List.length (files w) + 1 + 2 * forest_size forest.
Proof.
  intros Hg. rewrite run_backup_cases, Hg. cbv zeta.
  pose proof (grown_create_folder o (backup_folder_name_of o w)
                root_folder_id (found (List.length forest) w)) as Hc.
  destruct (create_folder o _ root_folder_id _) as [[fid | e] w2];
    cbn [snd] in Hc; unfold grown in Hc; simpl in Hc.
  - pose proof (grown_backup_roots o (List.length forest) fid forest 1
                  (0, 0) w2) as Hr.
    destruct (backup_roots o _ fid 1 forest (0, 0) w2)
      as [[counts | e] w3]; unfold grown in Hr; simpl in *; lia.
  - simpl. lia.
Qed.

(** *** A run without failures *)

Lemma identified_nodes (i : info) :
  (forall n, In n (nodes i) -> exists k, id_of (info_page n) = Returns k) ->
  identified i = true.
Proof.
  induction i as [page children pid IH] using info_induction.
  intros H. simpl. apply andb_true_iff. split.
  - destruct (H (Info page children pid)) as [k Hk]; [now left |].
    simpl in Hk. now rewrite Hk.
  - apply forallb_forall. intros c Hc. rewrite Forall_forall in IH.
    apply (IH c Hc). intros n Hn. apply H. right.
    apply in_flat_map. now exists c.
Qed.

Lemma forest_identified (script : list (outcome json)) (forest : list info) :
  get_all_pages script = Returns forest ->
  Forall (fun r => identified r = true) forest.
Proof.
  intros Hg. apply Forall_forall. intros r Hr. apply identified_nodes.
  intros n Hn.
  destruct (forest_has_ids script forest n Hg) as [page_id [k [H1 H2]]].
  - apply in_flat_map. now exists r.
  - exists k. unfold id_of. now rewrite H1.
Qed.

Lemma backup_roots_quiet (o : oracle) (total : nat) (folder_id : string)
    (roots : list info) :
  (forall n, fails o n = None) ->
  Forall (fun r => identified r = true) roots ->
  forall i successful failed w,
  exists w',
    backup_roots o total folder_id i roots (successful, failed) w
    = (Returns (successful + List.length roots, failed), w') /\
    uploads w' = uploads w + forest_size roots /\
    folders w' <= folders w + forest_size roots.
Proof.
  intros Hq. unfold forest_size.
  induction 1 as [| r roots Hr _ IH]; intros i s f w.
  - exists w. simpl. rewrite Nat.add_0_r.
    repeat split; try reflexivity; lia.
  - rewrite backup_roots_cons.
    destruct (uploads_backup_page o r Hq Hr folder_id w)
      as [name [w1 [Hb [Hu Hf]]]].
    rewrite Hb. cbn [fst snd].
    destruct (IH (S i) (S s) f (printed (root_done i total name) w1))
      as [w' [Heq [Hu' Hf']]].
    exists w'. rewrite Heq.
    change (list_sum (map count_nodes (r :: roots)))
      with (count_nodes r + list_sum (map count_nodes roots)).
    destruct (uploads_printed (root_done i total name) w1) as [Hp1 Hp2].
    cbn [List.length].
    replace (s + S (List.length roots)) with (S s + List.length roots)
      by lia.
    split; [reflexivity | split; lia].
Qed.

(** X17.  When no request fails and no tree of the forest has more than
    [max_height] levels (so that the nested calls of [backup_page] stay
    within what the interpreter allows), a run ends with the summary that
    counts every root as a success and none as a failure, and leaves one
    more content file on the Drive for each page of the forest. *)
Theorem run_backup_without_failures (o : oracle) (root_folder_id : string)
    (w : world) (forest : list info) :
  (forall n, fails o n = None) ->
  get_all_pages (search o) = Returns forest ->
  forallb shallow forest = true ->
  exists w',
    run_backup o root_folder_id w = (Returns tt, w') /\
    (exists out,
        stdout w'
        = (out ++ summary (List.length forest, 0)
                          (backup_folder_name_of o w))%list) /\
    uploads w' = uploads w + forest_size forest /\
    folders w' <= folders w + 1 + forest_size forest.
Proof.
  intros Hq Hg _. rewrite run_backup_cases, Hg. cbv zeta.
  destruct (uploads_create_folder o (backup_folder_name_of o w)
              root_folder_id (found (List.length forest) w) Hq)
    as [fid [w2 [Hc [Hu2 Hf2]]]].
  rewrite Hc.
  destruct (backup_roots_quiet o (List.length forest) fid forest Hq
              (forest_identified _ _ Hg) 1 0 0 w2) as [w3 [Hr [Hu3 Hf3]]].
  rewrite Hr. eexists. split; [reflexivity |]. cbn [stdout].
  split; [now eexists |].
  unfold uploads, folders in *. simpl in *. lia.
Qed.

(** *** The folder cache is written and never read *)

Lemma same_drive_refl (w : world) : same_drive w w.
Proof. repeat split. Qed.

Lemma blind_ret {A} (a : A) : cache_blind (ret a).
Proof. intros w1 w2 H. auto. Qed.

Lemma blind_raise {A} (e : exn) : cache_blind (@raise A e).
Proof. intros w1 w2 H. auto. Qed.

Lemma blind_lift {A} (c : outcome A) : cache_blind (lift c).
Proof. intros w1 w2 H. auto. Qed.

Lemma blind_bind {A B} (c : M A) (k : A -> M B) :
  cache_blind c -> (forall a, cache_blind (k a)) -> cache_blind (mbind c k).
Proof.
  intros Hc Hk w1 w2 H. unfold mbind. destruct (Hc w1 w2 H) as [H1 H2].
  destruct (c w1) as [[a1 | e1] w1'], (c w2) as [[a2 | e2] w2'];
    simpl in *; try discriminate.
  - inversion H1; subst. now apply Hk.
  - inversion H1; subst. auto.
Qed.

Lemma blind_try {A} (c : M A) (h : exn -> M A) :
  cache_blind c -> (forall e, cache_blind (h e)) -> cache_blind (try_ c h).
Proof.
  intros Hc Hh w1 w2 H. unfold try_. destruct (Hc w1 w2 H) as [H1 H2].
  destruct (c w1) as [[a1 | e1] w1'], (c w2) as [[a2 | e2] w2'];
    simpl in *; try discriminate.
  - inversion H1; subst. auto.
  - inversion H1; subst. now apply Hh.
Qed.

Lemma blind_print (line : string) : cache_blind (print line).
Proof.
  intros [f1 r1 o1 c1] [f2 r2 o2 c2] [Hf [Hr Ho]]. simpl in *. subst.
  unfold same_drive. simpl. auto.
Qed.

Lemma blind_send (o : oracle) (r : request) : cache_blind (send o r).
Proof.
  intros [f1 r1 o1 c1] [f2 r2 o2 c2] [Hf [Hr Ho]]. simpl in *. subst.
  unfold send, same_drive. simpl.
  destruct (fails o (List.length r2)); simpl; auto.
Qed.

Lemma blind_add_file (f : file) : cache_blind (add_file f).
Proof.
  intros [f1 r1 o1 c1] [f2 r2 o2 c2] [Hf [Hr Ho]]. simpl in *. subst.
  unfold same_drive. simpl. auto.
Qed.

Lemma blind_list_files (p : file -> bool) : cache_blind (list_files p).
Proof.
  intros [f1 r1 o1 c1] [f2 r2 o2 c2] [Hf [Hr Ho]]. simpl in *. subst.
  unfold same_drive. simpl. auto.
Qed.

Lemma blind_set_folder_cache (k : key) (v : string) :
  cache_blind (set_folder_cache k v).
Proof.
  intros [f1 r1 o1 c1] [f2 r2 o2 c2] [Hf [Hr Ho]]. simpl in *. subst.
  unfold same_drive. simpl. auto.
Qed.

Lemma blind_now_date (o : oracle) : cache_blind (now_date o).
Proof.
  intros [f1 r1 o1 c1] [f2 r2 o2 c2] [Hf [Hr Ho]]. simpl in *. subst.
  unfold same_drive. simpl. auto.
Qed.

Lemma blind_now_datetime (o : oracle) : cache_blind (now_datetime o).
Proof.
  intros [f1 r1 o1 c1] [f2 r2 o2 c2] [Hf [Hr Ho]]. simpl in *. subst.
  unfold same_drive. simpl. auto.
Qed.

Ltac blind :=
  repeat first
    [ apply blind_ret | apply blind_raise | apply blind_lift
    | apply blind_print | apply blind_send | apply blind_add_file
    | apply blind_list_files | apply blind_set_folder_cache
    | apply blind_now_date | apply blind_now_datetime
    | assumption
    | apply blind_bind; [| intros ?]
    | apply blind_try; [| intros ?] ].

Lemma blind_create_folder (o : oracle) (name parent : string) :
  cache_blind (create_folder o name parent).
Proof.
  unfold create_folder. blind.
  match goal with |- cache_blind (match ?l with _ => _ end) => destruct l end;
    blind.
Qed.

Lemma blind_backup_content (o : oracle) (page_id page_title : json)
    (folder_id : string) :
  cache_blind (backup_content o page_id page_title folder_id).
Proof. unfold backup_content. blind. Qed.

Lemma blind_backup_children (o : oracle) (folder_id : string)
    (children : list info) :
  Forall (fun c => forall parent, cache_blind (backup_page o c parent))
         children ->
  cache_blind (backup_children o folder_id children).
Proof.
  induction 1 as [| c cs Hc _ IH]; simpl; [apply blind_ret |].
  apply blind_bind; [| intros ?; exact IH].
  apply blind_try; [| intros ?; apply blind_print].
  apply blind_bind; [apply Hc | intros ?; apply blind_ret].
Qed.

Lemma blind_backup_page (o : oracle) (page_info : info) :
  forall parent, cache_blind (backup_page o page_info parent).
Proof.
  induction page_info as [page children pid IH] using info_induction.
  intros parent. rewrite backup_page_unfold.
  apply blind_bind; [apply blind_lift | intros page_id].
  apply blind_bind; [apply blind_lift | intros page_title].
  apply blind_try; [| intros ?; apply blind_raise].
  apply blind_bind; [apply blind_now_date | intros date]. cbv zeta.
  apply blind_bind; [apply blind_create_folder | intros folder_id].
  apply blind_bind; [apply blind_lift | intros k].
  apply blind_bind; [apply blind_set_folder_cache | intros ?].
  apply blind_bind; [apply blind_backup_content | intros ?].
  apply blind_bind; [now apply blind_backup_children | intros ?].
  apply blind_ret.
Qed.

Lemma blind_backup_roots (o : oracle) (total : nat) (folder_id : string)
    (roots : list info) :
  forall i counts, cache_blind (backup_roots o total folder_id i roots counts).
Proof.
  induction roots as [| r roots IH]; intros i counts; simpl;
    [apply blind_ret |].
  apply blind_bind; [| intros ?; apply IH].
  apply blind_try.
  - apply blind_bind; [apply blind_backup_page | intros ?].
    apply blind_bind; [apply blind_print | intros ?; apply blind_ret].
  - intros e. apply blind_bind; [apply blind_print | intros ?; apply blind_ret].
Qed.

Lemma blind_print_all (lines : list string) : cache_blind (print_all lines).
Proof.
  induction lines as [| line lines IH]; simpl; [apply blind_ret |].
  apply blind_bind; [apply blind_print | intros ?; exact IH].
Qed.

Lemma blind_run_backup (o : oracle) (root_folder_id : string) :
  cache_blind (run_backup o root_folder_id).
Proof.
  unfold run_backup.
  apply blind_try; [| intros ?; apply blind_print].
  apply blind_bind; [apply blind_print | intros ?].
  apply blind_bind; [apply blind_lift | intros root_pages].
  apply blind_bind; [apply blind_print | intros ?].
  apply blind_bind; [apply blind_now_datetime | intros stamp]. cbv zeta.
  apply blind_bind; [apply blind_create_folder | intros fid].
  apply blind_bind; [apply blind_backup_roots | intros counts].
  apply blind_print_all.
Qed.

(** X18.  The folder cache is never read: started with any other cache,
    [backup_page] gives the same outcome and [backup_page] and [run_backup]
    leave the same files, requests and output. *)
Theorem folder_cache_is_never_read (o : oracle) (w : world)
    (cache : list (key * string)) :
  let w' := World (files w) (requests w) (stdout w) cache in
  (forall page_info parent,
      fst (backup_page o page_info parent w')
      = fst (backup_page o page_info parent w) /\
      same_drive (snd (backup_page o page_info parent w'))
                 (snd (backup_page o page_info parent w))) /\
  (forall root_folder_id,
      same_drive (snd (run_backup o root_folder_id w'))
                 (snd (run_backup o root_folder_id w))).
Proof.
  intros w'. assert (H : same_drive w' w) by (repeat split).
  split.
  - intros page_info parent. now apply blind_backup_page.
  - intros root. now apply blind_run_backup.
Qed.

(** *** The second pass links the last record of each identifier *)

Lemma second_pass_returned (script : list (outcome json))
    (pages : list json) (records : list (key * node)) (forest : list info) :
  fetched script = Returns pages ->
  records_of pages = Returns records ->
  get_all_pages script = Returns forest ->
  second_pass (store records)
  = Returns (relink (store records) (store records),
             roots_of (store records)).
Proof.
  intros Hf Hr H. rewrite (get_all_pages_records _ _ _ Hf Hr) in H.
  destruct (second_pass (store records)) as [linked |] eqn:E; simpl in H;
    [| discriminate].
  pose proof E as El. apply link_pages_linkable in El.
  rewrite <- E. apply second_pass_spec; [apply store_NoDup | exact El].
Qed.

Lemma roots_of_last (records : list (key * node)) (k : key) :
  In k (roots_of (store records)) <->
  exists n, find_last k records = Some n /\ is_root n = true.
Proof.
  pose proof (store_NoDup records) as Hd. unfold roots_of. split.
  - intros H. apply in_map_iff in H as [[k' n] [<- H]].
    apply filter_In in H as [Hin Hroot]. exists n. split; [| exact Hroot].
    rewrite <- store_get. now apply In_dict_get.
  - intros [n [Hk Hroot]]. apply in_map_iff. exists (k, n).
    split; [reflexivity |]. apply filter_In. split; [| exact Hroot].
    apply dict_get_In. now rewrite store_get.
Qed.

Lemma children_of_last (records : list (key * node)) (p c : key) :
  In c (children_of (store records) p) <->
  exists n, find_last c records = Some n /\ parent_ref n = Some p.
Proof.
  pose proof (store_NoDup records) as Hd. unfold children_of. split.
  - intros H. apply in_map_iff in H as [[c' n] [<- H]].
    apply filter_In in H as [Hin Hch]. exists n. split.
    + rewrite <- store_get. now apply In_dict_get.
    + unfold child_of in Hch. simpl in Hch.
      destruct (parent_ref n) as [q |]; [| discriminate].
      apply key_eqb_eq in Hch. now subst.
  - intros [n [Hc Hp]]. apply in_map_iff. exists (c, n).
    split; [reflexivity |]. apply filter_In. split.
    + apply dict_get_In. now rewrite store_get.
    + unfold child_of. simpl. rewrite Hp. apply key_eqb_refl.
Qed.

Lemma NoDup_filter_keys (d : page_dict) (f : key * node -> bool) :
  NoDup (map fst d) -> NoDup (map fst (filter f d)).
Proof.
  induction d as [| item d IH]; simpl; intros H; [constructor |].
  inversion H as [| ? ? Hnot Hd]; subst.
  destruct (f item); [| now apply IH]. simpl. constructor; [| now apply IH].
  intros Hin. apply Hnot. apply in_map_iff in Hin as [x [Hx Hin]].
  apply filter_In in Hin as [Hin _]. rewrite <- Hx. now apply in_map.
Qed.

(** The children of a node of the forest include the last record of every
    identifier that names the node as parent. *)
Lemma built_child (pages : list json) (records : list (key * node))
    (i : info) (p k : key) (n : node) :
  records_of pages = Returns records ->
  In i (flat_map nodes (built records)) ->
  id_of (info_page i) = Returns p ->
  find_last k records = Some n ->
  parent_ref n = Some p ->
  exists children,
    In (Info (node_page n) children (node_parent_id n)) (info_children i).
Proof.
  intros Hr Hi Hid Hk Hp. set (d := store records).
  assert (Hfr : fresh d) by now apply (store_fresh pages).
  destruct (built_nodes pages records i Hr Hi) as [p' [m [j [Hp' ->]]]].
  fold d in Hp' |- *.
  assert (p' = p).
  { rewrite snapshot_page in Hid. cbn [linked node_page] in Hid.
    destruct (store_key pages records p' m Hr Hp') as [Hid' _]. congruence. }
  subst p'. rewrite snapshot_unfold. cbn [info_children linked node_children].
  pose proof (Hfr (p, m) (dict_get_In _ _ _ Hp')) as Hnil.
  simpl in Hnil. rewrite Hnil. simpl app.
  assert (Hin : In (linked d k n) (deref (relink d d) (children_of d p))).
  { apply deref_In. exists k. split.
    - apply children_of_last. now exists n.
    - rewrite relink_get. unfold d at 2. rewrite store_get, Hk. reflexivity. }
  apply (in_map (snapshot j (relink d d))) in Hin.
  rewrite snapshot_unfold in Hin. cbn [linked node_page node_parent_id] in Hin.
  eauto.
Qed.

(** C7.  With duplicate identifiers, the dictionary the first pass builds
    holds, under each identifier, the last record fetched with it, and the
    second pass links that record and no other: it lists an identifier as
    a root, once, exactly when its last record has no parent, and as a
    child of a page exactly when its last record names that page; so in
    the forest the last record without parent is a root, the last record
    with a parent is a child of every node with the identifier it names,
    and every node carries the page and the parent identifier of the last
    record with its identifier. *)
Theorem duplicate_ids_last_wins (script : list (outcome json))
    (pages : list json) (records : list (key * node)) (forest : list info) :
  fetched script = Returns pages ->
  records_of pages = Returns records ->
  get_all_pages script = Returns forest ->
  (exists response rest,
      script = Returns response :: rest /\
      first_pass response rest [] = Returns (store records)) /\
  (forall k, dict_get k (store records) = find_last k records) /\
  (exists d roots,
      second_pass (store records) = Returns (d, roots) /\
      forest = objects d roots /\
      NoDup roots /\
      (forall k,
          In k roots <->
          exists n, find_last k records = Some n /\ is_root n = true) /\
      (forall p c,
          dict_mem p d = true ->
          (In c (kids d p) <->
           exists n, find_last c records = Some n /\ parent_ref n = Some p))) /\
  (forall k n,
      find_last k records = Some n ->
      is_root n = true ->
      exists children,
        In (Info (node_page n) children (node_parent_id n)) forest) /\
  (forall i p k n,
      In i (flat_map nodes forest) ->
      id_of (info_page i) = Returns p ->
      find_last k records = Some n ->
      parent_ref n = Some p ->
      exists children,
        In (Info (node_page n) children (node_parent_id n))
           (info_children i)) /\
  (forall i,
      In i (flat_map nodes forest) ->
      exists k,
        id_of (info_page i) = Returns k /\
        find_last k records
        = Some (Node (info_page i) [] (info_parent_id i))).
Proof.
  intros Hf Hr Hg.
  pose proof (get_all_pages_returned _ _ _ _ Hf Hr Hg) as Hb.
  pose proof (second_pass_returned _ _ _ _ Hf Hr Hg) as Hs.
  split; [| split; [| split; [| split; [| split]]]].
  - unfold fetched in Hf. destruct script as [| reply rest]; [discriminate |].
    destruct reply as [response |]; [| discriminate]. simpl in Hf.
    exists response, rest. split; [reflexivity |].
    rewrite (first_pass_drained _ _ _ _ Hf).
    now rewrite (add_pages_records _ _ _ Hr).
  - intros k. apply store_get.
  - exists (relink (store records) (store records)), (roots_of (store records)).
    split; [exact Hs |]. split; [exact Hb |]. split; [| split].
    + apply NoDup_filter_keys, store_NoDup.
    + intros k. apply roots_of_last.
    + intros p c Hmem.
      rewrite (kids_relink _ _ (store_fresh _ _ Hr)).
      unfold dict_mem in Hmem. rewrite relink_get in Hmem.
      destruct (dict_get p (store records)); [| discriminate].
      apply children_of_last.
  - intros k n Hk Hroot. rewrite Hb. now apply (built_root records k).
  - intros i p k n Hi Hid Hk Hp. rewrite Hb in Hi.
    now apply (built_child pages records i p k n).
  - intros i Hi. rewrite Hb in Hi. now apply (built_node pages).
Qed.

(** [duplicate_ids_last_wins] on two fetches of three records, two of them
    filed under ["B"].  When the last of the two has no parent, ["B"] is a
    root and not a child of [page_A], whatever the first said; when the
    last of the two names [page_A], it is the child of [page_A]. *)
Lemma duplicate_ids_last_wins_witness :
  (get_all_pages [Returns (search_reply [page_A; page_B; page_B_again])]
   = Returns [Info page_A [] JNull; Info page_B_again [] JNull] /\
   exists d roots,
     second_pass (store [(KStr "A", Node page_A [] JNull);
                         (KStr "B", Node page_B [] (JStr "A"));
                         (KStr "B", Node page_B_again [] JNull)])
     = Returns (d, roots) /\
     In (KStr "B") roots /\ ~ In (KStr "B") (kids d (KStr "A"))) /\
  (get_all_pages [Returns (search_reply [page_A; page_B_again; page_B])]
   = Returns [tree_A] /\
   exists children,
     In (Info page_B children (JStr "A")) (info_children tree_A)).
Proof.
  split.
  - split; [reflexivity |].
    destruct (duplicate_ids_last_wins
                [Returns (search_reply [page_A; page_B; page_B_again])]
                [page_A; page_B; page_B_again]
                [(KStr "A", Node page_A [] JNull);
                 (KStr "B", Node page_B [] (JStr "A"));
                 (KStr "B", Node page_B_again [] JNull)]
                [Info page_A [] JNull; Info page_B_again [] JNull]
                eq_refl eq_refl eq_refl)
      as [_ [_ [[d [roots [Hs [_ [_ [Hroots Hkids]]]]]] _]]].
    exists d, roots. split; [exact Hs |]. split.
    + apply Hroots. exists (Node page_B_again [] JNull).
      split; reflexivity.
    + intros Hin. apply Hkids in Hin.
      * destruct Hin as [n [Hn Hp]]. vm_compute in Hn.
        inversion Hn; subst. discriminate.
      * vm_compute in Hs. inversion Hs; subst. reflexivity.
  - split; [reflexivity |].
    destruct (duplicate_ids_last_wins
                [Returns (search_reply [page_A; page_B_again; page_B])]
                [page_A; page_B_again; page_B]
                [(KStr "A", Node page_A [] JNull);
                 (KStr "B", Node page_B_again [] JNull);
                 (KStr "B", Node page_B [] (JStr "A"))]
                [tree_A]
                eq_refl eq_refl eq_refl)
      as [_ [_ [_ [_ [H _]]]]].
    apply (H tree_A (KStr "A") (KStr "B") (Node page_B [] (JStr "A")));
      [left; reflexivity | reflexivity | reflexivity | reflexivity].
Defined.

(** *** Every root gets its turn *)

Lemma turns_roots (o : oracle) (total : nat) (fid : string)
    (roots : list info) :
  forall i w, map turn_root (turns o total fid i roots w) = roots.
Proof.
  induction roots as [| r roots IH]; intros i w; simpl; [reflexivity |].
  now rewrite IH.
Qed.

Lemma turns_run (o : oracle) (total : nat) (fid : string)
    (roots : list info) :
  forall i w t,
    In t (turns o total fid i roots w) ->
    backup_page o (turn_root t) fid (turn_before t)
    = (turn_outcome t, turn_after t).
Proof.
  induction roots as [| r roots IH]; intros i w t Hin; simpl in Hin;
    [destruct Hin |].
  destruct Hin as [<- | Hin]; [| now apply (IH _ _ _ Hin)].
  simpl. now destruct (backup_page o r fid w).
Qed.

Lemma turns_chain (o : oracle) (total : nat) (fid : string)
    (roots : list info) :
  forall i w before t t' after,
    turns o total fid i roots w = (before ++ t :: t' :: after)%list ->
    turn_before t'
    = printed (turn_line (i + List.length before) total (turn_outcome t))
              (turn_after t).
Proof.
  induction roots as [| r roots IH]; intros i w before t t' after H;
    simpl in H.
  - destruct before; discriminate.
  - destruct before as [| t0 before]; simpl in H.
    + inversion H as [[Ht Hrest]]. rewrite Nat.add_0_r.
      destruct roots as [| r' roots]; simpl in Hrest; [discriminate |].
      inversion Hrest. reflexivity.
    + inversion H as [[Ht0 Hrest]]. apply IH in Hrest.
      simpl. now rewrite <- Nat.add_succ_comm.
Qed.

Lemma successes_failures (ts : list turn) :
  successes ts + failures ts = List.length ts.
Proof.
  unfold successes, failures. induction ts as [| t ts IH]; [reflexivity |].
  simpl. destruct (succeeded t); simpl; lia.
Qed.

Lemma backup_roots_turns (o : oracle) (total : nat) (fid : string)
    (roots : list info) :
  forall i successful failed w,
    backup_roots o total fid i roots (successful, failed) w
    = (Returns (successful + successes (turns o total fid i roots w),
                failed + failures (turns o total fid i roots w)),
       end_of_turns total i w (turns o total fid i roots w)).
Proof.
  induction roots as [| r roots IH]; intros i s f w.
  - simpl. unfold ret, successes, failures. simpl. now rewrite !Nat.add_0_r.
  - rewrite backup_roots_cons. cbn [turns end_of_turns turn_outcome turn_after].
    destruct (backup_page o r fid w) as [[name | e] w']; cbn [fst snd];
      rewrite IH; unfold successes, failures; simpl;
      rewrite <- ?Nat.add_succ_comm; reflexivity.
Qed.

Lemma skipn_length_app {A} (l more : list A) :
  skipn (List.length l) (l ++ more) = more.
Proof. induction l; simpl; auto. Qed.

Lemma backup_page_first_request (o : oracle) (i : info) (parent : string)
    (w : world) :
  has_id i ->
  exists more,
    requests (snd (backup_page o i parent w))
    = (requests w
       ++ FilesList (title_of o i ++ "_"
                     ++ strftime_date o (List.length (requests w))) parent
       :: more)%list.
Proof.
  destruct i as [page children pid]. intros [page_id Hid]. simpl in Hid.
  unfold title_of. cbn [info_page].
  rewrite backup_page_cases, Hid.
  destruct (get_page_title_returns page) as [t Ht]. rewrite Ht.
  fold (folder_name_of o t w). cbv zeta.
  destruct (create_folder_first_request o (folder_name_of o t w) parent w)
    as [rest Hreq].
  destruct (create_folder o (folder_name_of o t w) parent w)
    as [[folder_id | e] w1]; cbn [snd] in Hreq.
  - destruct (hash page_id) as [k |]; cbn [snd].
    + destruct (after_folder_extends o page_id t k folder_id children w1)
        as [_ [[rs Hrs] _]].
      rewrite Hrs, Hreq, <- app_assoc. simpl. eauto.
    + rewrite Hreq. eauto.
  - cbn [snd]. rewrite Hreq. eauto.
Qed.

Lemma turns_first_request (o : oracle) (total : nat) (fid : string)
    (roots : list info) :
  Forall has_id roots ->
  forall i w t,
    In t (turns o total fid i roots w) ->
    exists more, new_requests t = first_request o fid t :: more.
Proof.
  induction 1 as [| r roots Hr _ IH]; intros i w t Hin; simpl in Hin;
    [destruct Hin |].
  destruct Hin as [<- | Hin]; [| now apply (IH _ _ _ Hin)].
  unfold new_requests, first_request. cbn [turn_before turn_after turn_root].
  destruct (backup_page_first_request o r fid w Hr) as [more ->].
  rewrite skipn_length_app. eauto.
Qed.

Lemma turns_requests (o : oracle) (total : nat) (fid : string)
    (roots : list info) :
  forall i w,
    requests (end_of_turns total i w (turns o total fid i roots w))
    = (requests w ++ flat_map new_requests (turns o total fid i roots w))%list.
Proof.
  induction roots as [| r roots IH]; intros i w.
  - simpl. now rewrite app_nil_r.
  - cbn [turns end_of_turns flat_map turn_outcome turn_after].
    rewrite IH. cbn [requests printed].
    unfold new_requests at 2. cbn [turn_before turn_after].
    destruct (monotone_backup_page o r fid w) as [_ [[rs Hrs] _]].
    rewrite Hrs, skipn_length_app. now rewrite <- app_assoc.
Qed.

Lemma forest_roots_have_ids (script : list (outcome json))
    (forest : list info) :
  get_all_pages script = Returns forest -> Forall has_id forest.
Proof.
  intros Hg. apply Forall_forall. intros r Hr.
  destruct (forest_has_ids _ _ r Hg (In_nodes_root _ _ Hr))
    as [page_id [_ [Hid _]]].
  now exists page_id.
Qed.

(** C5, as amended.  Once [run_backup] has the forest and its top-level
    folder, the loop over the roots gives every root its turn, in order and
    once: [backup_page] is run on each root in the world the turn before
    left, whether that turn returned or raised, and the requests sent
    during the loop are those of the turns, one after the other, each
    beginning with the lookup of the folder of its own root.  The loop
    returns the number of turns that returned and the number that raised,
    which add up to the number of roots, and the run ends by printing the
    summary with both. *)
Theorem run_backup_attempts_every_root (o : oracle) (root_folder_id : string)
    (w : world) (forest : list info) (backup_folder_id : string)
    (w2 : world) :
  get_all_pages (search o) = Returns forest ->
  let total := List.length forest in
  create_folder o (backup_folder_name_of o w) root_folder_id (found total w)
  = (Returns backup_folder_id, w2) ->
  let ts := turns o total backup_folder_id 1 forest w2 in
  let w3 := end_of_turns total 1 w2 ts in
  map turn_root ts = forest /\
  (forall t,
      In t ts ->
      backup_page o (turn_root t) backup_folder_id (turn_before t)
      = (turn_outcome t, turn_after t) /\
      exists more, new_requests t = first_request o backup_folder_id t :: more) /\
  (forall t rest, ts = t :: rest -> turn_before t = w2) /\
  (forall before t t' after,
      ts = (before ++ t :: t' :: after)%list ->
      turn_before t'
      = printed (turn_line (S (List.length before)) total (turn_outcome t))
                (turn_after t)) /\
  requests w3 = (requests w2 ++ flat_map new_requests ts)%list /\
  backup_roots o total backup_folder_id 1 forest (0, 0) w2
  = (Returns (successes ts, failures ts), w3) /\
  successes ts + failures ts = total /\
  run_backup o root_folder_id w
  = (Returns tt,
     World (files w3) (requests w3)
           (stdout w3
            ++ summary (successes ts, failures ts) (backup_folder_name_of o w))
           (folder_cache w3)).
Proof.
  intros Hg total Hc ts w3.
  assert (Hloop : backup_roots o total backup_folder_id 1 forest (0, 0) w2
                  = (Returns (successes ts, failures ts), w3)).
  { unfold ts, w3. now rewrite backup_roots_turns. }
  split; [apply turns_roots |].
  split; [| split; [| split; [| split; [| split; [| split]]]]].
  - intros t Ht. split.
    + now apply (turns_run o total backup_folder_id forest 1 w2).
    + apply (turns_first_request o total backup_folder_id forest
               (forest_roots_have_ids _ _ Hg) 1 w2 t Ht).
  - intros t rest H. unfold ts in H. destruct forest; simpl in H;
      [discriminate |]. inversion H. reflexivity.
  - intros before t t' after H.
    apply (turns_chain o total backup_folder_id forest 1 w2 _ _ _ _ H).
  - apply turns_requests.
  - exact Hloop.
  - rewrite successes_failures, <- (length_map turn_root ts).
    unfold ts. now rewrite turns_roots.
  - rewrite run_backup_cases, Hg. cbv zeta. fold total.
    now rewrite Hc, Hloop.
Qed.

(** [run_backup_attempts_every_root] on a run over three roots where the
    lookup of the folder of the second root fails: the second root is
    counted as a failure, the third is backed up after it, and the summary
    reports two successes and one failure. *)
Lemma run_backup_attempts_every_root_witness :
  (exists w3,
      backup_roots one_outage 3 "file-1" 1 three_roots (0, 0) outage_start
      = (Returns (2, 1), w3) /\
      skipn 2 (requests w3)
      = [FilesList "R_20240101" "file-1";
         FilesCreateFolder "R_20240101" "file-1";
         BlocksChildrenList (JStr "R");
         FilesCreateMedia "R_content_20240101_120000.json" "file-3"
           (JDict [("object", JStr "list"); ("results", JList [])]);
         FilesList "A_20240101" "file-1";
         FilesList "W_20240101" "file-1";
         FilesCreateFolder "W_20240101" "file-1";
         BlocksChildrenList (JStr "W");
         FilesCreateMedia "W_content_20240101_120000.json" "file-8"
           (JDict [("object", JStr "list"); ("results", JList [])])]) /\
  stdout (snd (run_backup one_outage "ROOT" (initial_world [])))
  = ["Starting Notion backup..."; "Found 3 root pages";
     "Uploading content for page 'R'...";
     "[1/3] Backed up: R_20240101";
     "Error backing up root page 2: Failed to backup page 'A': Failed to create folder 'A_20240101': 503 Service Unavailable";
     "Uploading content for page 'W'...";
     "[3/3] Backed up: W_20240101";
     newline ++ "Backup completed!";
     "Successfully backed up: 2 root pages and their subpages";
     "Failed to backup: 1 root pages";
     "Backup folder: Notion_Backup_20240101_120000"].
Proof.
  destruct (run_backup_attempts_every_root
              one_outage "ROOT" (initial_world []) three_roots "file-1"
              outage_start eq_refl eq_refl)
    as [_ [_ [_ [_ [Hreq [Hloop [_ Hrun]]]]]]].
  split.
  - eexists. split; [exact Hloop |]. rewrite Hreq. reflexivity.
  - rewrite Hrun. reflexivity.
Defined.

(** A run whose top-level folder cannot be created.  The forest has three
    roots; the only request sent is the lookup of the top-level folder, so
    no root was attempted under any folder, and the output ends with the
    failure of the run, not with a summary. *)
Lemma run_backup_attempts_every_root_counterexample :
  get_all_pages (search no_drive) = Returns three_roots /\
  fst no_drive_run = Returns tt /\
  requests (snd no_drive_run)
  = [FilesList "Notion_Backup_20240101_120000" "ROOT"] /\
  stdout (snd no_drive_run)
  = ["Starting Notion backup..."; "Found 3 root pages";
     "Backup failed: Failed to create folder 'Notion_Backup_20240101_120000': 503 Service Unavailable"] /\
  (forall r parent,
      In r three_roots -> ~ attempted no_drive r parent (snd no_drive_run)) /\
  (forall counts name out,
      stdout (snd no_drive_run) <> (out ++ summary counts name)%list).
Proof.
  split; [reflexivity |]. split; [reflexivity |]. split; [reflexivity |].
  split; [reflexivity |]. split.
  - intros r parent Hr [date Hin].
    destruct Hin as [Heq | []].
    destruct Hr as [<- | [<- | [<- | []]]]; vm_compute in Heq; discriminate.
  - intros counts name out H. apply (f_equal (@rev string)) in H.
    rewrite rev_app_distr in H. vm_compute in H. discriminate.
Qed.

(** *** The further properties at work on concrete runs *)

Lemma forest_keeps_fetch_order_witness :
  map info_page [Info page_R [] JNull; tree_A_two] = [page_R; page_A] /\
  map info_page (info_children tree_A_two) = [page_B; page_D].
Proof.
  destruct (forest_keeps_fetch_order
              [Returns (search_reply [page_B; page_R; page_A; page_D])]
              [page_B; page_R; page_A; page_D]
              [(KStr "B", Node page_B [] (JStr "A"));
               (KStr "R", Node page_R [] JNull);
               (KStr "A", Node page_A [] JNull);
               (KStr "D", Node page_D [] (JStr "A"))]
              [Info page_R [] JNull; tree_A_two]
              eq_refl eq_refl eq_refl) as [H1 H2].
  split.
  - rewrite H1. reflexivity.
  - rewrite (H2 tree_A_two (KStr "A")); [reflexivity | | reflexivity].
    right. left. reflexivity.
Defined.

Lemma forest_contents_witness : In page_B (forest_pages [tree_A]).
Proof.
  apply (proj2 (forest_contents
                  [Returns (search_reply [page_A; page_B; page_C])]
                  [page_A; page_B; page_C]
                  [(KStr "A", Node page_A [] JNull);
                   (KStr "B", Node page_B [] (JStr "A"));
                   (KStr "C", Node page_C [] (JStr "missing-id"))]
                  [tree_A] page_B eq_refl eq_refl eq_refl)).
  exists (KStr "B"), (Node page_B [] (JStr "A")), 1.
  repeat split; reflexivity.
Defined.

Lemma forest_never_repeats_witness :
  NoDup (forest_pages [tree_A]) /\ forest_size [tree_A] <= 3.
Proof.
  destruct (forest_never_repeats
              [Returns (search_reply [page_A; page_B; page_C])]
              [page_A; page_B; page_C] [tree_A] eq_refl eq_refl)
    as [H1 [_ H2]].
  split; [exact H1 | exact H2].
Defined.

Lemma forest_parent_links_witness :
  truthy (info_parent_id tree_A) = false /\
  hash (info_parent_id (Info page_B [] (JStr "A"))) = Returns (KStr "A").
Proof.
  destruct (forest_parent_links
              [Returns (search_reply [page_A; page_B; page_C])]
              [tree_A] eq_refl) as [H1 H2].
  split.
  - apply H1. left. reflexivity.
  - destruct (H2 tree_A (Info page_B [] (JStr "A")))
      as [_ [k [Hk Hh]]]; [left; reflexivity | left; reflexivity |].
    rewrite Hh. rewrite <- Hk. reflexivity.
Defined.

Lemma malformed_page_aborts_fetch_witness :
  exists e,
    get_all_pages [Returns (search_reply [page_A; page_without_id])]
    = Raises (fetch_failed e).
Proof.
  apply (malformed_page_aborts_fetch
           [Returns (search_reply [page_A; page_without_id])]
           [page_A; page_without_id] page_without_id eq_refl).
  - right. left. reflexivity.
  - left. eexists. reflexivity.
Defined.

Lemma get_page_title_reads_first_item_witness :
  get_page_title page_two_items = Returns (JStr "Road").
Proof.
  apply (get_page_title_reads_first_item
           page_two_items
           (JDict [("type", JStr "title");
                   ("title",
                    JList [JDict [("text", JDict [("content", JStr "Road")])];
                           JDict [("text",
                                   JDict [("content", JStr "map")])]])])
           [("text", JDict [("content", JStr "Road")])]
           [("content", JStr "Road")]
           [JDict [("text", JDict [("content", JStr "map")])]]
           (JStr "Road") eq_refl).
  - right. eexists. split; reflexivity.
  - reflexivity.
  - reflexivity.
Defined.

Lemma create_folder_result_witness :
  files (snd (create_folder (quiet []) "X" "P" (initial_world [])))
  = [folder "file-1" "X" "P"].
Proof.
  destruct (create_folder_result (quiet []) "X" "P" (initial_world [])
              (snd (create_folder (quiet []) "X" "P" (initial_world [])))
              "file-1" eq_refl) as [_ [H _]].
  simpl in H. exact H.
Defined.

Lemma create_folder_failure_witness :
  files (snd (create_folder (scenario (fun _ => true) []) "X" "P"
                            (initial_world twin_drive)))
  = twin_drive.
Proof.
  destruct (create_folder_failure (scenario (fun _ => true) []) "X" "P"
              (initial_world twin_drive)
              (snd (create_folder (scenario (fun _ => true) []) "X" "P"
                                  (initial_world twin_drive)))
              (create_folder_failed "X" "503 Service Unavailable")
              eq_refl) as [H _].
  exact H.
Defined.

Lemma backup_page_failure_leaves_drive_witness :
  files (snd (backup_page (scenario (fun _ => true) []) tree_A "top"
                          (initial_world twin_drive)))
  = twin_drive.
Proof.
  destruct (backup_page_failure_leaves_drive
              (scenario (fun _ => true) []) page_A JNull
              [Info page_B [] (JStr "A")] "top" (initial_world twin_drive)
              (snd (backup_page (scenario (fun _ => true) []) tree_A "top"
                                (initial_world twin_drive)))
              (JStr "A") (JStr "A") (KStr "A")
              (backup_failed (scenario (fun _ => true) []) (JStr "A")
                 (create_folder_failed "A_20240101"
                    "503 Service Unavailable"))
              eq_refl eq_refl eq_refl eq_refl) as [H _].
  exact H.
Defined.

Lemma backup_page_uploads_every_page_witness :
  exists name w',
    backup_page (quiet []) tree_A "top" (initial_world [])
    = (Returns name, w') /\
    uploads w' = 2.
Proof.
  destruct (backup_page_uploads_every_page (quiet []) tree_A "top"
              (initial_world []) (fun n => eq_refl) eq_refl eq_refl)
    as [name [w' [H1 [H2 _]]]].
  exists name, w'. split; [exact H1 | exact H2].
Defined.

Lemma same_title_pages_share_folder_witness :
  exists folder_id w1 w2,
    backup_page (quiet []) (Info page_A [] JNull) "top" (initial_world [])
    = (Returns "A_20240101",
       after_folder (quiet []) (JStr "A") (JStr "A") (KStr "A") folder_id []
                    w1) /\
    backup_page (quiet []) (Info page_A_twin [] JNull) "top"
      (after_folder (quiet []) (JStr "A") (JStr "A") (KStr "A") folder_id []
                    w1)
    = (Returns "A_20240101",
       after_folder (quiet []) (JStr "A-twin") (JStr "A") (KStr "A-twin")
                    folder_id [] w2).
Proof.
  destruct (same_title_pages_share_folder
              (quiet []) page_A page_A_twin JNull JNull [] [] "top"
              (initial_world []) (JStr "A") (JStr "A-twin") (JStr "A")
              (KStr "A") (KStr "A-twin")
              (fun n => eq_refl) eq_refl eq_refl eq_refl eq_refl eq_refl
              eq_refl) as [folder_id [w1 [H1 H2]]].
  destruct (H2 _ (extends_refl _) eq_refl) as [w2 [_ H3]].
  exists folder_id, w1, w2. split; [exact H1 | exact H3].
Defined.

Lemma run_backup_failed_start_witness :
  stdout (snd (run_backup (quiet []) "ROOT" (initial_world twin_drive)))
  = ["Starting Notion backup...";
     "Backup failed: Failed to fetch Notion pages: search request failed"] /\
  files (snd (run_backup (scenario (fun _ => true)
                            [Returns (search_reply [page_A])])
                         "ROOT" (initial_world twin_drive)))
  = twin_drive.
Proof.
  destruct (run_backup_failed_start (quiet []) "ROOT"
              (initial_world twin_drive)) as [H1 _].
  destruct (run_backup_failed_start
              (scenario (fun _ => true) [Returns (search_reply [page_A])])
              "ROOT" (initial_world twin_drive)) as [_ H2].
  split.
  - rewrite (H1 _ eq_refl). reflexivity.
  - destruct (H2 [Info page_A [] JNull]
                 (create_folder_failed "Notion_Backup_20240101_120000"
                    "503 Service Unavailable")
                 (snd (create_folder
                         (scenario (fun _ => true)
                            [Returns (search_reply [page_A])])
                         "Notion_Backup_20240101_120000" "ROOT"
                         (found 1 (initial_world twin_drive))))
                 eq_refl eq_refl) as [Hrun [Hfiles _]].
    rewrite Hrun. exact Hfiles.
Defined.

Lemma run_backup_bounds_witness :
  List.length (requests (snd scenario_run)) <= 10 /\
  List.length (files (snd scenario_run)) <= 5.
Proof.
  apply (run_backup_bounds
           (quiet [Returns (search_reply [page_A; page_B; page_C])])
           "ROOT" (initial_world []) [tree_A] eq_refl).
Defined.

Lemma run_backup_without_failures_witness :
  exists w',
    scenario_run = (Returns tt, w') /\ uploads w' = 2.
Proof.
  destruct (run_backup_without_failures
              (quiet [Returns (search_reply [page_A; page_B; page_C])])
              "ROOT" (initial_world []) [tree_A]
              (fun n => eq_refl) eq_refl eq_refl) as [w' [H1 [_ [H2 _]]]].
  exists w'. split; [exact H1 | exact H2].
Defined.
